(** * mc: admin-client cache and SUBNET registration helpers

    A shallow embedding of [cmd/subnet-utils.go] and of the admin-client
    factory ([newAdminFactory]) of the MinIO client, with the properties
    the specification states about them.

    Conventions of the embedding.
    - A Go [string] is a sequence of bytes: Rocq's [string] of 8-bit
      [ascii] characters.
    - [uint64] and [uint32] values are [Z] with the wrap-around written out
      ([u64], [u32]); [int] is the 64-bit signed integer ([wrap_int]).
    - A Go [error] is a nullable value: [option string], [None] being [nil].
    - A function that can panic (index out of range, nil dereference) or
      leave the process through [fatalIf] returns an [outcome].
    - A [map] is a stdpp [gmap]; a slice is a [list].
    - Calls into libraries and into parts of the client that are outside
      these sources ([net/url], [madmin], [gjson], the configuration
      loader) are parameters, gathered in classes; [hash/fnv],
      [strconv.Atoi], [strings.Trim], [encoding/base64] and the string
      and integer encoding of [encoding/json] are written out after
      their documented behaviour.
    - Terminal and network are a [World] that the [IO] computations pass
      along: the lines typed, the answers of the network, and the events
      so far.

    The first part is the model, the second part the properties. *)

From Stdlib Require Import ZArith Lia List String Ascii.
From stdpp Require Import base option list gmap strings pretty.

Local Open Scope string_scope.
Local Open Scope Z_scope.

(** ** Go runtime vocabulary *)

Module Go.

(** [nil] is [None]. *)
Definition error : Type := option string.

(** How a call ends: it returns, it panics, or [fatalIf] ends the
    process. *)
Inductive outcome (A : Type) : Type :=
| Done (a : A)
| Panic (msg : string)
| Fatal (msg : string).
Arguments Done {A} a.
Arguments Panic {A} msg.
Arguments Fatal {A} msg.

Definition returns {A} (o : outcome A) : bool :=
  match o with Done _ => true | _ => false end.

Definition outcome_value {A} (o : outcome A) : option A :=
  match o with Done a => Some a | _ => None end.

(** Sequencing: the first call that does not return ends the whole. *)
Definition outcome_bind {A B} (k : A -> outcome B) (o : outcome A) : outcome B :=
  match o with
  | Done a => k a
  | Panic msg => Panic msg
  | Fatal msg => Fatal msg
  end.

#[export] Instance outcome_ret : MRet outcome := fun A a => Done a.
#[export] Instance outcome_mbind : MBind outcome := fun A B k o => outcome_bind k o.

(** [fatalIf(err, msg)]: nothing for a nil error; otherwise the message
    is reported and the process exits. *)
Definition fatalIf (err : error) (msg : string) : outcome unit :=
  match err with
  | None => Done tt
  | Some _ => Fatal msg
  end.

Definition u32 (z : Z) : Z := z mod 2 ^ 32.
Definition u64 (z : Z) : Z := z mod 2 ^ 64.
(** Two's complement 64-bit [int]. *)
Definition wrap_int (z : Z) : Z := (z + 2 ^ 63) mod 2 ^ 64 - 2 ^ 63.

Definition add_u64 (a b : Z) : Z := u64 (a + b).
Definition add_int (a b : Z) : Z := wrap_int (a + b).

(** [len(s)] of a slice, as an [int]. *)
Definition len {A} (l : list A) : Z := Z.of_nat (length l).

(** [s[i]] on a slice: a panic outside [0 <= i < len(s)]. *)
Definition index {A} (l : list A) (i : Z) : outcome A :=
  if (i <? 0) || (len l <=? i) then Panic "index out of range"
  else match l !! Z.to_nat i with
       | Some a => Done a
       | None => Panic "index out of range"
       end.

End Go.
Import Go.

(** ** Cluster status and registration info *)

(** The fields of [madmin.Disk], [madmin.ServerProperties] and
    [madmin.InfoMessage] that this code reads. *)
Module madmin.

Record Disk := {
  TotalSpace : Z;   (* uint64 *)
  UsedSpace : Z     (* uint64 *)
}.

Record ServerProperties := {
  Version : string;
  PoolNumber : Z;   (* int *)
  Disks : list Disk
}.

Record InfoMessage := {
  DeploymentID : string;
  Servers : list ServerProperties;
  Usage_Size : Z;      (* admInfo.Usage.Size, uint64 *)
  Buckets_Count : Z;   (* admInfo.Buckets.Count, uint64 *)
  Objects_Count : Z    (* admInfo.Objects.Count, uint64 *)
}.

End madmin.
Import madmin.

(** Modelled from the spec: the declarations of [ClusterInfo] and
    [ClusterRegistrationInfo] are not among the sources.  The fields are
    those that [getClusterRegInfo] sets, which are those of the
    specification's data model, with the types of what is assigned to
    them. *)
Record ClusterInfo := {
  MinioVersion : string;
  NoOfServerPools : Z;   (* int *)
  NoOfServers : Z;       (* int *)
  NoOfDrives : Z;        (* int *)
  NoOfBuckets : Z;       (* uint64 *)
  NoOfObjects : Z;       (* uint64 *)
  TotalDriveSpace : Z;   (* uint64 *)
  UsedDriveSpace : Z     (* uint64 *)
}.

Record ClusterRegistrationInfo := {
  DeploymentID : string;
  ClusterName : string;
  UsedCapacity : Z;      (* uint64 *)
  Info : ClusterInfo
}.

(** The first loop of [getClusterRegInfo]: the pair
    [(noOfPools, noOfDrives)] after the servers seen so far. *)
Definition poolsAndDrives_step (acc : Z * Z) (srvr : ServerProperties) : Z * Z :=
  let '(noOfPools, noOfDrives) := acc in
  (if noOfPools <? PoolNumber srvr then PoolNumber srvr else noOfPools,
   add_int noOfDrives (len (Disks srvr))).

Definition poolsAndDrives (servers : list ServerProperties) : Z * Z :=
  fold_left poolsAndDrives_step servers (1, 0).

(** [getDriveSpaceInfo]: the pair [(total, used)]. *)
Definition driveSpace_disk (acc : Z * Z) (d : Disk) : Z * Z :=
  let '(total, used) := acc in
  (add_u64 total (TotalSpace d), add_u64 used (UsedSpace d)).

Definition driveSpace_server (acc : Z * Z) (srvr : ServerProperties) : Z * Z :=
  fold_left driveSpace_disk (Disks srvr) acc.

Definition getDriveSpaceInfo (admInfo : InfoMessage) : Z * Z :=
  fold_left driveSpace_server (Servers admInfo) (0, 0).

Definition getClusterRegInfo (admInfo : InfoMessage) (clusterName : string)
  : outcome ClusterRegistrationInfo :=
  let '(noOfPools, noOfDrives) := poolsAndDrives (Servers admInfo) in
  let '(totalSpace, usedSpace) := getDriveSpaceInfo admInfo in
  match index (Servers admInfo) 0 with
  | Done srvr0 =>
      Done {| DeploymentID := madmin.DeploymentID admInfo;
              ClusterName := clusterName;
              UsedCapacity := Usage_Size admInfo;
              Info := {| MinioVersion := Version srvr0;
                         NoOfServerPools := noOfPools;
                         NoOfServers := len (Servers admInfo);
                         NoOfDrives := noOfDrives;
                         TotalDriveSpace := totalSpace;
                         UsedDriveSpace := usedSpace;
                         NoOfBuckets := Buckets_Count admInfo;
                         NoOfObjects := Objects_Count admInfo |} |}
  | Panic msg => Panic msg
  | Fatal msg => Fatal msg
  end.

(** ** The admin-client factory ([newAdminFactory]) *)

(** [hash/fnv], [New32a]: the 32-bit FNV-1a hash of a byte string. *)
Definition fnv_offset32 : Z := 2166136261.
Definition fnv_prime32 : Z := 16777619.

Definition byte_val (b : ascii) : Z := Z.of_N (N_of_ascii b).

Definition fnv32a_byte (hash : Z) (b : ascii) : Z :=
  u32 (Z.lxor hash (byte_val b) * fnv_prime32).

Fixpoint fnv32a_write (hash : Z) (s : string) : Z :=
  match s with
  | EmptyString => hash
  | String b s' => fnv32a_write (fnv32a_byte hash b) s'
  end.

Definition fnv32a_sum (s : string) : Z := fnv32a_write fnv_offset32 s.

(** The fields of [Config] the factory reads. *)
Record Config := {
  HostURL : string;
  AccessKey : string;
  SecretKey : string;
  Insecure : bool;
  Debug : bool;
  AppName : string;
  AppVersion : string
}.

(** What [url.Parse] yields, as far as the factory looks at it. *)
Record URL := { Scheme : string; Host : string }.

(** The HTTP transport given to a client. *)
Inductive RoundTripper : Type :=
| DefaultTransport
| TLSTransport (InsecureSkipVerify : bool)
| TraceTransport (inner : RoundTripper).

(** A [madmin.AdminClient] object. *)
Record AdminClient := {
  endpointHost : string;
  accessKeyID : string;
  secretAccessKey : string;
  secure : bool;
  customTransport : RoundTripper;
  appName : string;
  appVersion : string
}.

(** The two library calls of the factory.  [url_Parse] is [None] where
    [url.Parse] returns an error (and a nil URL); [madmin_New] is the
    error, if any, with which [madmin.New] refuses its arguments. *)
Class FactoryLibs := {
  url_Parse : string -> option URL;
  madmin_New : string -> string -> string -> bool -> error
}.

(** A [*madmin.AdminClient] is the address of an object of the heap:
    two calls return the same instance when they return the same
    address. *)
Definition ptr : Type := nat.

(** The state the closure returned by [newAdminFactory] keeps:
    [clientCache], and the client objects allocated so far.  The mutex
    makes each call of the closure one atomic step on this state. *)
Record Factory := {
  clientCache : gmap Z ptr;
  heap : list AdminClient
}.

Definition newAdminFactory : Factory :=
  {| clientCache := ∅; heap := [] |}.

Definition transport_for (useTLS : bool) (config : Config) : RoundTripper :=
  let transport :=
    if useTLS then TLSTransport (if Insecure config then true else false)
    else DefaultTransport in
  if Debug config then TraceTransport transport else transport.

(** The closure itself, [s3AdminNew]: the result
    [(api, err)] and the factory after the call. *)
Definition s3AdminNew `{FactoryLibs} (config : Config) (f : Factory)
  : outcome (option ptr * error) * Factory :=
  match url_Parse (HostURL config) with
  | None => (Panic "nil pointer dereference", f)
  | Some targetURL =>
      let useTLS := if String.eqb (Scheme targetURL) "http" then false else true in
      let hostName := Host targetURL in
      let confSum :=
        fnv32a_sum (hostName +:+ AccessKey config +:+ SecretKey config) in
      match clientCache f !! confSum with
      | Some api => (Done (Some api, None), f)
      | None =>
          match madmin_New hostName (AccessKey config) (SecretKey config) useTLS with
          | Some e => (Done (None, Some e), f)
          | None =>
              let api := length (heap f) in
              let client :=
                {| endpointHost := hostName;
                   accessKeyID := AccessKey config;
                   secretAccessKey := SecretKey config;
                   secure := useTLS;
                   customTransport := transport_for useTLS config;
                   appName := AppName config;
                   appVersion := AppVersion config |} in
              (Done (Some api, None),
               {| clientCache := <[confSum := api]> (clientCache f);
                  heap := (heap f ++ [client])%list |})
          end
      end
  end.

(** A run of calls, one after the other; only the factory is kept. *)
Definition calls `{FactoryLibs} (configs : list Config) (f : Factory) : Factory :=
  fold_left (fun f config => (s3AdminNew config f).2) configs f.

(** The identity (host, access key, secret key) of a config, and its
    fingerprint. *)
Definition identity `{FactoryLibs} (config : Config) : option (string * string * string) :=
  match url_Parse (HostURL config) with
  | None => None
  | Some u => Some (Host u, AccessKey config, SecretKey config)
  end.

Definition fingerprint (id : string * string * string) : Z :=
  let '(host, accessKey, secretKey) := id in
  fnv32a_sum (host +:+ accessKey +:+ secretKey).

(** A small stand-in for the two libraries, for running the factory on
    concrete configs: a URL is [scheme://host] or [scheme://host/path],
    and [madmin.New] refuses only an empty endpoint. *)
Definition simple_url_Parse (s : string) : option URL :=
  match String.index 0 "://" s with
  | None => None
  | Some n =>
      let rest := String.substring (n + 3) (String.length s - (n + 3)) s in
      let host :=
        match String.index 0 "/" rest with
        | Some m => String.substring 0 m rest
        | None => rest
        end in
      Some {| Scheme := String.substring 0 n s; Host := host |}
  end.

Definition simple_madmin_New (endpoint accessKey secretKey : string) (secure : bool)
  : error :=
  if String.eqb endpoint "" then Some "Endpoint:  does not follow ip address or domain name standards."
  else None.

Definition simple_libs : FactoryLibs :=
  {| url_Parse := simple_url_Parse; madmin_New := simple_madmin_New |}.

Definition mkConfig (hostURL accessKey secretKey : string) : Config :=
  {| HostURL := hostURL; AccessKey := accessKey; SecretKey := secretKey;
     Insecure := false; Debug := false; AppName := "mc"; AppVersion := "dev" |}.

(** ** Credential resolution ([getSubnetAPIKeyFromConfig] and
    [getSubnetLicenseFromConfig]) *)

(** [madmin.HelpKV], [madmin.Help], [madmin.KV] and the target that
    [madmin.ParseSubSysTarget] returns, as far as they are read here. *)
Record HelpKV := { HelpKey : string; HelpDescription : string }.
Record Help := { SubSys : string; KeysHelp : list HelpKV }.
Record KV := { Key : string; Value : string }.
Record SubsysTarget := { TargetSubSystem : string; KVS : list KV }.

(** An alias of the local configuration ([aliasConfigV10]) and the
    configuration itself ([configV10]). *)
Record aliasConfig := {
  AliasURL : string;
  AliasAccessKey : string;
  AliasSecretKey : string;
  License : string;
  APIKey : string
}.

Record configV10 := { Aliases : gmap string aliasConfig }.

(** The zero value that [Aliases[alias]] yields for an absent alias. *)
Definition aliasConfig_zero : aliasConfig :=
  {| AliasURL := ""; AliasAccessKey := ""; AliasSecretKey := "";
     License := ""; APIKey := "" |}.

Definition Aliases_get (c : configV10) (alias : string) : aliasConfig :=
  default aliasConfig_zero (Aliases c !! alias).

(** What credential resolution asks of its surroundings: the admin
    connection of an alias ([newAdminClient], whose alias expansion is
    outside these sources), three calls on the administered cluster and
    its configuration parser, each with the error it may return, and the
    load of the local configuration ([loadMcConfig]). *)
Class ClusterEnv := {
  Client : Type;
  newAdminClient : string -> Client * error;
  HelpConfigKV : Client -> string -> string -> bool -> Help * error;
  GetConfigKV : Client -> string -> string * error;
  ParseSubSysTarget : string -> Help -> SubsysTarget * error;
  loadMcConfig : configV10 * error
}.

Section Credentials.

Context `{ClusterEnv}.

(** The loop of [minioConfigSupportsSubnet]. *)
Fixpoint hasHelpKey (key : string) (keys : list HelpKV) : bool :=
  match keys with
  | [] => false
  | h :: keys' => if String.eqb (HelpKey h) key then true else hasHelpKey key keys'
  end.

Definition minioConfigSupportsSubnet (client : Client) : outcome bool :=
  let '(help, e) := HelpConfigKV client "" "" false in
  _ ← fatalIf e "Unable to get minio config keys";
  mret (hasHelpKey "subnet" (KeysHelp help)).

(** The loop of [getSubnetKeyFromMinIOConfig]: the value of the first
    entry with the key. *)
Fixpoint findKV (key : string) (kvs : list KV) : option string :=
  match kvs with
  | [] => None
  | kv :: kvs' => if String.eqb (Key kv) key then Some (Value kv) else findKV key kvs'
  end.

Definition getSubnetKeyFromMinIOConfig (alias key : string) : outcome (bool * string) :=
  let '(client, err) := newAdminClient alias in
  _ ← fatalIf err "Unable to initialize admin connection.";
  supports ← minioConfigSupportsSubnet client;
  if supports : bool then
    let '(sh, pe) := HelpConfigKV client "subnet" "" false in
    _ ← fatalIf pe "Unable to get config keys for SUBNET";
    let '(buf, e) := GetConfigKV client "subnet" in
    _ ← fatalIf e "Unable to get server SUBNET config";
    let '(tgt, e) := ParseSubSysTarget buf sh in
    _ ← fatalIf e "Unable to parse sub-system target 'subnet'";
    match findKV key (KVS tgt) with
    | Some value => mret (true, value)
    | None => mret (false, "")
    end
  else mret (false, "").

Definition mcConfig : outcome configV10 :=
  let '(config, err) := loadMcConfig in
  _ ← fatalIf err "Unable to access configuration file.";
  mret config.

Definition getSubnetAPIKeyFromConfig (alias : string) : outcome string :=
  '(supported, apiKey) ← getSubnetKeyFromMinIOConfig alias "api_key";
  if supported : bool then mret apiKey
  else
    config ← mcConfig;
    mret (APIKey (Aliases_get config alias)).

Definition getSubnetLicenseFromConfig (alias : string) : outcome string :=
  '(supported, lic) ← getSubnetKeyFromMinIOConfig alias "license";
  if supported : bool then mret lic
  else
    config ← mcConfig;
    mret (License (Aliases_get config alias)).

End Credentials.

(** The two credentials that are resolved, the key under which the
    cluster's [subnet] subsystem holds each, and the field of the local
    alias that holds it. *)
Inductive Credential : Type := CredAPIKey | CredLicense.

Definition cred_key (c : Credential) : string :=
  match c with CredAPIKey => "api_key" | CredLicense => "license" end.

Definition cred_local (c : Credential) (a : aliasConfig) : string :=
  match c with CredAPIKey => APIKey a | CredLicense => License a end.

Definition resolve `{ClusterEnv} (c : Credential) (alias : string) : outcome string :=
  match c with
  | CredAPIKey => getSubnetAPIKeyFromConfig alias
  | CredLicense => getSubnetLicenseFromConfig alias
  end.

(** A cluster for the examples: its schema lists the subsystems of
    [subsystems], and its [subnet] subsystem holds [kvs]. *)
Definition demo_cluster (subsystems : list string) (kvs : list KV)
    (local : configV10 * error) : ClusterEnv :=
  {| Client := string;
     newAdminClient := fun alias => (alias, None);
     HelpConfigKV := fun _ subSys _ _ =>
       ({| SubSys := subSys;
           KeysHelp := map (fun k => {| HelpKey := k; HelpDescription := "" |})
                           (if String.eqb subSys "" then subsystems
                            else ["license"; "api_key"; "proxy"]) |}, None);
     GetConfigKV := fun _ _ => ("subnet license= api_key=", None);
     ParseSubSysTarget := fun _ _ => ({| TargetSubSystem := "subnet"; KVS := kvs |}, None);
     loadMcConfig := local |}.

Definition demo_local : configV10 :=
  {| Aliases := {[ "play" := {| AliasURL := "https://play.min.io";
                                AliasAccessKey := "Q3AM3UQ867SPQQA43P2F";
                                AliasSecretKey := "zuf+tfteSlswRu7BJ86wekitnifILbZam1KYY3TG";
                                License := "";
                                APIKey := "local-key" |} ]} |}.

(** ** The terminal and the network *)

(** The payloads that are posted to SUBNET; [json.Marshal] of each is
    the body of the request. *)
Inductive Payload : Type :=
| LoginReq (username password : string)   (* map[string]string *)
| SubnetMFAReq (Username OTP Token : string)
| ClusterRegistrationReq (Token : string).

(** An [http.Header]: the values added under each key. *)
Definition Header : Type := gmap string (list string).

Definition Header_Add (k v : string) (h : Header) : Header :=
  <[k := (default [] (h !! k) ++ [v])%list]> h.

Definition Header_Get (k : string) (h : Header) : string :=
  match h !! k with
  | Some (v :: _) => v
  | _ => ""
  end.

Record Request := {
  Method : string;
  ReqURL : string;
  ReqHeader : Header;
  ReqBody : option Payload
}.

(** What the network does with a request: [client.Do] fails, or there
    is a response with a status code and a body, the reading of which
    may fail after the bytes of [RespBody]. *)
Inductive HttpResult : Type :=
| DoError (e : string)
| Response (StatusCode : Z) (RespBody : string) (ReadErr : error).

(** What passes between the program and the outside, in order. *)
Inductive Event : Type :=
| Printed (s : string)
| Sent (proxy : option string) (r : Request)
| Received (resp : HttpResult).

(** The outside of one run: the lines the user types at the terminal
    (each without its newline), the answers of the network to the
    requests in the order they are sent, and what has passed so far.
    Standard input is a terminal: each read takes one line. *)
Record World := {
  stdin : list string;
  network : list HttpResult;
  events : list Event
}.

Definition IO (A : Type) : Type := World -> outcome A * World.

#[export] Instance IO_ret : MRet IO := fun A a w => (Done a, w).
#[export] Instance IO_bind : MBind IO := fun A B k m w =>
  match m w with
  | (Done a, w') => k a w'
  | (Panic msg, w') => (Panic msg, w')
  | (Fatal msg, w') => (Fatal msg, w')
  end.

(** A pure call that may panic, inside [IO]. *)
Definition lift {A} (o : outcome A) : IO A := fun w => (o, w).

Definition emit (e : Event) : IO unit := fun w =>
  (Done tt, {| stdin := stdin w; network := network w; events := (events w ++ [e])%list |}).

Definition LF : string := String "010"%char "".

Definition sep_by (sep : string) (parts : list string) : string :=
  match parts with
  | [] => ""
  | p :: ps => fold_left (fun acc q => acc +:+ sep +:+ q) ps p
  end.

(** [fmt.Print(s)], and [fmt.Println] of operands already formatted:
    a space between operands and a newline at the end. *)
Definition Print (s : string) : IO unit := emit (Printed s).
Definition Sprintln (operands : list string) : string := sep_by " " operands +:+ LF.
Arguments Sprintln : simpl never.
Definition Println (operands : list string) : IO unit := emit (Printed (Sprintln operands)).

Definition next_line : IO (option string) := fun w =>
  match stdin w with
  | [] => (Done None, w)
  | l :: ls => (Done (Some l), {| stdin := ls; network := network w; events := events w |})
  end.

(** [reader.ReadString('\n')]: the line with its newline; at the end of
    the input, the empty string and [io.EOF]. *)
Definition ReadString : IO (string * error) :=
  l ← next_line;
  match l with
  | Some l => mret (l +:+ LF, None)
  | None => mret ("", Some "EOF")
  end.

(** [terminal.ReadPassword]: the line without its newline. *)
Definition ReadPassword : IO (string * error) :=
  l ← next_line;
  match l with
  | Some l => mret (l, None)
  | None => mret ("", Some "EOF")
  end.

(** [client.Do(req)] through the proxy, if one is set: the request goes
    out and the network's next answer comes back. *)
Definition clientDo (proxy : option string) (r : Request) : IO HttpResult := fun w =>
  let resp := hd (DoError "EOF") (network w) in
  (Done resp,
   {| stdin := stdin w; network := tail (network w);
      events := (events w ++ [Sent proxy r; Received resp])%list |}).

(** The process-wide settings this code reads, and the library calls it
    makes on strings and URLs: [strings.TrimSpace], and the error, if
    any, with which [http.NewRequest] refuses a method and URL. *)
Class Process := {
  globalDevMode : bool;
  globalSubnetProxyURL : option string;
  strings_TrimSpace : string -> string;
  http_NewRequest_err : string -> string -> error
}.

(** [gjson]: a [Result] is what a path selects in a JSON text. *)
Class Gjson := {
  Result : Type;
  gjson_Get : string -> string -> Result;
  gjson_Parse : string -> Result;
  Result_Get : Result -> string -> Result;
  Result_Bool : Result -> bool;
  Result_String : Result -> string;
  Result_Exists : Result -> bool;
  Result_Array : Result -> list Result
}.

(** [len(s)] of a string, as an [int]. *)
Fixpoint strlen (s : string) : Z :=
  match s with
  | EmptyString => 0
  | String _ s' => 1 + strlen s'
  end.

(** [strings.Trim(s, cutset)] for a cutset of single-byte characters. *)
Fixpoint in_cutset (c : ascii) (cutset : string) : bool :=
  match cutset with
  | EmptyString => false
  | String d cutset' => if Ascii.eqb c d then true else in_cutset c cutset'
  end.

Fixpoint TrimLeft (s cutset : string) : string :=
  match s with
  | EmptyString => EmptyString
  | String c s' => if in_cutset c cutset then TrimLeft s' cutset else s
  end.

Fixpoint TrimRight (s cutset : string) : string :=
  match s with
  | EmptyString => EmptyString
  | String c s' =>
      match TrimRight s' cutset with
      | EmptyString => if in_cutset c cutset then EmptyString else String c EmptyString
      | t => String c t
      end
  end.

Definition Trim (s cutset : string) : string := TrimRight (TrimLeft s cutset) cutset.

(** [strconv.Atoi]: an optional sign and decimal digits, within the range
    of [int]. *)
Definition max_int : Z := 2 ^ 63 - 1.
Definition min_int : Z := - 2 ^ 63.

Definition digit_val (c : ascii) : option Z :=
  let n := byte_val c in
  if (48 <=? n) && (n <=? 57) then Some (n - 48) else None.

Fixpoint digits_val (acc : Z) (s : string) : option Z :=
  match s with
  | EmptyString => Some acc
  | String c s' =>
      match digit_val c with
      | Some d => digits_val (acc * 10 + d) s'
      | None => None
      end
  end.

Definition ErrSyntax : string := "strconv.Atoi: invalid syntax".
Definition ErrRange : string := "strconv.Atoi: value out of range".

Definition Atoi (s : string) : Z * error :=
  let '(neg, digits) :=
    match s with
    | String "-" s' => (true, s')
    | String "+" s' => (false, s')
    | _ => (false, s)
    end in
  match digits with
  | EmptyString => (0, Some ErrSyntax)
  | _ =>
      match digits_val 0 digits with
      | None => (0, Some ErrSyntax)
      | Some n =>
          let v := if neg : bool then - n else n in
          if v <? min_int then (min_int, Some ErrRange)
          else if max_int <? v then (max_int, Some ErrRange)
          else (v, None)
      end
  end.

(** [io.ReadAll(io.LimitReader(body, limit))]: at most [limit] bytes;
    the body's read error shows only when it comes before the limit. *)
Fixpoint read_limited (limit : N) (body : string) (readErr : error) : string * error :=
  if (limit =? 0)%N then (EmptyString, None)
  else match body with
       | EmptyString => (EmptyString, readErr)
       | String c body' =>
           let '(read, e) := read_limited (N.pred limit) body' readErr in
           (String c read, e)
       end.

Definition subnetRespBodyLimit : N := 2 ^ 20.
Definition minioSubscriptionURL : string := "https://min.io/subscription".

(** ** Requests to SUBNET *)

(** A Go [map[string]string]; [None] is the nil map. *)
Definition StringMap : Type := option (gmap string string).

Section Subnet.

Context `{Process} `{Gjson}.

Definition subnetBaseURL : string :=
  if globalDevMode then "http://localhost:9000" else "https://subnet.min.io".

Definition subnetHealthUploadURL : string := subnetBaseURL +:+ "/api/health/upload".
Definition subnetRegisterURL : string := subnetBaseURL +:+ "/api/cluster/register".
Definition subnetLoginURL : string := subnetBaseURL +:+ "/api/auth/login".
Definition subnetOrgsURL : string := subnetBaseURL +:+ "/api/auth/organizations".
Definition subnetMFAURL : string := subnetBaseURL +:+ "/api/auth/mfa-login".

Definition subnetAuthHeaders (authToken : string) : StringMap :=
  Some {[ "Authorization" := "Bearer " +:+ authToken ]}.

Definition httpDo (req : Request) : IO HttpResult :=
  clientDo globalSubnetProxyURL req.

(** The loop [for k, v := range headers { r.Header.Add(k, v) }]. *)
Definition add_headers (headers : StringMap) (h : Header) : Header :=
  map_fold Header_Add h (default ∅ headers).

(** The first half of [subnetReqDo]: the request with its headers. *)
Definition with_headers (r : Request) (headers : StringMap) : Request :=
  let h := add_headers headers (ReqHeader r) in
  let ct := Header_Get "Content-Type" h in
  let h := if strlen ct =? 0 then Header_Add "Content-Type" "application/json" h else h in
  {| Method := Method r; ReqURL := ReqURL r; ReqHeader := h; ReqBody := ReqBody r |}.

(** The second half of [subnetReqDo]: what it returns for an answer of
    the network. *)
Definition reply_of (resp : HttpResult) : string * error :=
  match resp with
  | DoError e => ("", Some e)
  | Response code body readErr =>
      let '(respStr, e) := read_limited subnetRespBodyLimit body readErr in
      match e with
      | Some e => ("", Some e)
      | None =>
          if code =? 200 then (respStr, None)
          else (respStr,
                Some ("Request failed with code " +:+ pretty code +:+
                      " and error: " +:+ respStr))
      end
  end.

Definition subnetReqDo (r : Request) (headers : StringMap) : IO (string * error) :=
  resp ← httpDo (with_headers r headers);
  mret (reply_of resp).

(** [http.NewRequest(method, url, body)]. *)
Definition http_NewRequest (method url : string) (body : option Payload)
  : Request * error :=
  ({| Method := method; ReqURL := url; ReqHeader := ∅; ReqBody := body |},
   http_NewRequest_err method url).

Definition subnetGetReq (reqURL : string) (headers : StringMap) : IO (string * error) :=
  let '(r, e) := http_NewRequest "GET" reqURL None in
  match e with
  | Some e => mret ("", Some e)
  | None => subnetReqDo r headers
  end.

(** [json.Marshal] does not fail on the payloads posted here, which
    hold strings only. *)
Definition subnetPostReq (reqURL : string) (payload : Payload) (headers : StringMap)
  : IO (string * error) :=
  let '(r, e) := http_NewRequest "POST" reqURL (Some payload) in
  match e with
  | Some e => mret ("", Some e)
  | None => subnetReqDo r headers
  end.

(** The end of [subnetLogin]: the access token of a response. *)
Definition access_token (respStr : string) : string * error :=
  let token := gjson_Get respStr "token_info.access_token" in
  if Result_Exists token then (Result_String token, None)
  else ("", Some "access token not found in response").

Definition subnetLogin : IO (string * error) :=
  _ ← Print "SUBNET username: ";
  '(username, _) ← ReadString;
  let username := strings_TrimSpace username in
  if strlen username =? 0 then
    mret ("", Some ("Username cannot be empty. If you don't have one, please create one from here: "
                    +:+ minioSubscriptionURL))
  else
    _ ← Print "Password: ";
    '(bytepw, _) ← ReadPassword;
    _ ← Println [];
    let loginReq := LoginReq username bytepw in
    '(respStr, e) ← subnetPostReq subnetLoginURL loginReq None;
    match e with
    | Some e => mret ("", Some e)
    | None =>
        let mfaRequired := Result_Bool (gjson_Get respStr "mfa_required") in
        if mfaRequired then
          let mfaToken := Result_String (gjson_Get respStr "mfa_token") in
          _ ← Print "OTP received in email: ";
          '(byteotp, _) ← ReadPassword;
          _ ← Println [];
          let mfaLoginReq :=
            SubnetMFAReq username byteotp mfaToken in
          '(respStr, e) ← subnetPostReq subnetMFAURL mfaLoginReq None;
          match e with
          | Some e => mret ("", Some e)
          | None => mret (access_token respStr)
          end
        else mret (access_token respStr)
    end.

(** The loop that lists the organizations, from position [idx]. *)
Fixpoint print_orgs (idx : Z) (orgs : list Result) : IO unit :=
  match orgs with
  | [] => mret tt
  | org :: orgs' =>
      _ ← Println ["  "; pretty (idx + 1); ":"; Result_String (Result_Get org "company")];
      print_orgs (idx + 1) orgs'
  end.

(** The last statement of [getSubnetAccID]. *)
Definition account_of (orgs : list Result) (idx : Z) : IO (string * error) :=
  org ← lift (index orgs (wrap_int (idx - 1)));
  mret (Result_String (Result_Get org "accountId"), None).

Definition getSubnetAccID (headers : StringMap) : IO (string * error) :=
  '(respStr, e) ← subnetGetReq subnetOrgsURL headers;
  match e with
  | Some e => mret ("", Some e)
  | None =>
      let data := gjson_Parse respStr in
      let orgs := Result_Array data in
      let idx := 1 in
      if 1 <? len orgs then
        _ ← Println ["You are part of multiple organizations on SUBNET:"];
        _ ← print_orgs 0 orgs;
        _ ← Print "Please choose the organization for this cluster: ";
        '(accIdx, _) ← ReadString;
        let accIdx := Trim accIdx LF in
        let '(idx, e) := Atoi accIdx in
        match e with
        | Some e => mret ("", Some e)
        | None =>
            if len orgs <? idx then
              mret ("", Some "Invalid choice for organization. Please run the command again.")
            else account_of orgs idx
        end
      else account_of orgs idx
  end.

Definition subnetURLWithAuth (reqURL apiKey license : string)
  : IO (string * StringMap * error) :=
  let headers : StringMap := Some ∅ in
  if 0 <? strlen apiKey then
    mret (reqURL +:+ "?api_key=" +:+ apiKey, headers, None)
  else if 0 <? strlen license then
    mret (reqURL +:+ "?license=" +:+ license, headers, None)
  else
    '(token, e) ← subnetLogin;
    match e with
    | Some _ => mret ("", None, e)
    | None =>
        let headers := subnetAuthHeaders token in
        '(accID, err) ← getSubnetAccID headers;
        match err with
        | Some _ => mret ("", headers, e)
        | None => mret (reqURL +:+ "?aid=" +:+ accID, headers, None)
        end
    end.

End Subnet.

(** ** Reading text *)

(** What follows the prefix [pre] in [s]. *)
Fixpoint after_prefix (pre s : string) : option string :=
  match pre, s with
  | EmptyString, _ => Some s
  | String c pre', String d s' => if Ascii.eqb c d then after_prefix pre' s' else None
  | _, _ => None
  end.

(** The text up to the next quote, and what follows the quote. *)
Fixpoint read_quoted (s : string) : option (string * string) :=
  match s with
  | EmptyString => None
  | String c s' =>
      if Ascii.eqb c "034" then Some (EmptyString, s')
      else '(t, rest) ← read_quoted s'; Some (String c t, rest)
  end.

(** The leading digits of [s] and the rest; a decimal integer with an
    optional minus sign. *)
Fixpoint span_digits (s : string) : string * string :=
  match s with
  | String c s' =>
      match digit_val c with
      | Some _ => let '(ds, rest) := span_digits s' in (String c ds, rest)
      | None => (EmptyString, s)
      end
  | EmptyString => (EmptyString, EmptyString)
  end.

Definition read_number (s : string) : option (Z * string) :=
  let '(neg, s') :=
    match s with
    | String c t => if Ascii.eqb c "-" then (true, t) else (false, s)
    | EmptyString => (false, s)
    end in
  let '(ds, rest) := span_digits s' in
  match ds with
  | EmptyString => None
  | _ => n ← digits_val 0 ds; Some (if neg : bool then - n else n, rest)
  end.

(** ** The registration token ([generateRegToken]) *)

(** [encoding/base64], [StdEncoding]: three bytes become four characters
    of the alphabet, six bits each; a last group of one or two bytes is
    padded with [=]. *)
Module Base64.

Definition alphabet : list ascii :=
  list_ascii_of_string
    "ABCDEFGHIJKLMNOPQRSTUVWXYZabcdefghijklmnopqrstuvwxyz0123456789+/".

Definition pad : ascii := "="%char.

Definition enc (i : Z) : ascii := nth (Z.to_nat i) alphabet pad.

Fixpoint position (c : ascii) (l : list ascii) (i : Z) : option Z :=
  match l with
  | [] => None
  | d :: l' => if Ascii.eqb c d then Some i else position c l' (i + 1)
  end.

Definition dec (c : ascii) : option Z := position c alphabet 0.

Definition byte_of (z : Z) : ascii := ascii_of_N (Z.to_N z).

Fixpoint EncodeToString (src : string) : string :=
  match src with
  | EmptyString => EmptyString
  | String a EmptyString =>
      let val := byte_val a * 65536 in
      String (enc (val / 262144)) (String (enc (val / 4096 mod 64))
        (String pad (String pad EmptyString)))
  | String a (String b EmptyString) =>
      let val := byte_val a * 65536 + byte_val b * 256 in
      String (enc (val / 262144)) (String (enc (val / 4096 mod 64))
        (String (enc (val / 64 mod 64)) (String pad EmptyString)))
  | String a (String b (String c rest)) =>
      let val := byte_val a * 65536 + byte_val b * 256 + byte_val c in
      String (enc (val / 262144)) (String (enc (val / 4096 mod 64))
        (String (enc (val / 64 mod 64)) (String (enc (val mod 64))
          (EncodeToString rest))))
  end.

Definition bytes3 (v0 v1 v2 v3 : Z) : string :=
  let val := v0 * 262144 + v1 * 4096 + v2 * 64 + v3 in
  String (byte_of (val / 65536)) (String (byte_of (val / 256 mod 256))
    (String (byte_of (val mod 256)) EmptyString)).

Fixpoint DecodeString (s : string) : option string :=
  match s with
  | EmptyString => Some EmptyString
  | String c0 (String c1 (String c2 (String c3 rest))) =>
      v0 ← dec c0;
      v1 ← dec c1;
      match rest with
      | EmptyString =>
          if Ascii.eqb c3 pad then
            if Ascii.eqb c2 pad then
              Some (String (byte_of ((v0 * 262144 + v1 * 4096) / 65536)) EmptyString)
            else
              v2 ← dec c2;
              let val := v0 * 262144 + v1 * 4096 + v2 * 64 in
              Some (String (byte_of (val / 65536))
                      (String (byte_of (val / 256 mod 256)) EmptyString))
          else
            v2 ← dec c2;
            v3 ← dec c3;
            Some (bytes3 v0 v1 v2 v3)
      | _ =>
          v2 ← dec c2;
          v3 ← dec c3;
          t ← DecodeString rest;
          Some (bytes3 v0 v1 v2 v3 +:+ t)
      end
  | _ => None
  end.

End Base64.

(** [encoding/json], as far as [json.Marshal] of a
    [ClusterRegistrationInfo] goes: strings and integers in an object.
    A string is written between quotes, coerced to valid UTF-8: the
    quote, the backslash, the control characters and [<], [>], [&] are
    escaped; every byte that does not start a well-formed UTF-8 sequence
    is replaced by the replacement rune, written [\ufffd]; and the
    separators U+2028 and U+2029 are escaped too. *)
Module JSON.

Definition quote : ascii := "034"%char.
Definition backslash : ascii := "092"%char.

Definition hex (n : Z) : ascii :=
  nth (Z.to_nat n) (list_ascii_of_string "0123456789abcdef") "0"%char.

(** [htmlSafeSet]: the ASCII bytes that are written as they are. *)
Definition html_safe (b : Z) : bool :=
  (32 <=? b) && (b <? 128) &&
  negb ((b =? 34) || (b =? 38) || (b =? 60) || (b =? 62) || (b =? 92)).

(** The escape of an ASCII byte that is not safe. *)
Definition escape_byte (c : ascii) : string :=
  let b := byte_val c in
  if (b =? 92) || (b =? 34) then String backslash (String c EmptyString)
  else if b =? 10 then String backslash "n"
  else if b =? 13 then String backslash "r"
  else if b =? 9 then String backslash "t"
  else String backslash
         (String "u" (String "0" (String "0"
            (String (hex (b / 16)) (String (hex (b mod 16)) EmptyString))))).

(** [utf8.DecodeRuneInString]: whether the bytes start a well-formed
    sequence of two, three or four bytes. *)
Definition cont (b : Z) : bool := (128 <=? b) && (b <=? 191).

Definition seq2 (b0 b1 : Z) : bool :=
  (194 <=? b0) && (b0 <=? 223) && cont b1.

Definition seq3 (b0 b1 b2 : Z) : bool :=
  (224 <=? b0) && (b0 <=? 239) &&
  ((if b0 =? 224 then 160 else 128) <=? b1) &&
  (b1 <=? (if b0 =? 237 then 159 else 191)) &&
  cont b2.

Definition seq4 (b0 b1 b2 b3 : Z) : bool :=
  (240 <=? b0) && (b0 <=? 244) &&
  ((if b0 =? 240 then 144 else 128) <=? b1) &&
  (b1 <=? (if b0 =? 244 then 143 else 191)) &&
  cont b2 && cont b3.

(** U+2028 and U+2029 are the bytes E2 80 A8 and E2 80 A9. *)
Definition line_sep (b0 b1 b2 : Z) : bool :=
  (b0 =? 226) && (b1 =? 128) && ((b2 =? 168) || (b2 =? 169)).

Definition replacement : string := String backslash "ufffd".

(** The body of a JSON string, for the bytes of [s]. *)
Fixpoint escape (s : string) : string :=
  match s with
  | EmptyString => EmptyString
  | String c0 s1 =>
      let b0 := byte_val c0 in
      if b0 <? 128 then
        if html_safe b0 then String c0 (escape s1)
        else escape_byte c0 +:+ escape s1
      else
        match s1 with
        | EmptyString => replacement
        | String c1 s2 =>
            let b1 := byte_val c1 in
            if seq2 b0 b1 then String c0 (String c1 (escape s2))
            else
              match s2 with
              | EmptyString => replacement +:+ escape s1
              | String c2 s3 =>
                  let b2 := byte_val c2 in
                  if seq3 b0 b1 b2 then
                    if line_sep b0 b1 b2 then
                      String backslash (String "u" (String "2" (String "0" (String "2"
                        (String (hex (b2 mod 16)) (escape s3))))))
                    else String c0 (String c1 (String c2 (escape s3)))
                  else
                    match s3 with
                    | EmptyString => replacement +:+ escape s1
                    | String c3 s4 =>
                        if seq4 b0 b1 b2 (byte_val c3) then
                          String c0 (String c1 (String c2 (String c3 (escape s4))))
                        else replacement +:+ escape s1
                    end
              end
        end
  end.

(** Whether [s] is well-formed UTF-8: no byte gets replaced. *)
Fixpoint valid_utf8 (s : string) : bool :=
  match s with
  | EmptyString => true
  | String c0 s1 =>
      let b0 := byte_val c0 in
      if b0 <? 128 then valid_utf8 s1
      else
        match s1 with
        | EmptyString => false
        | String c1 s2 =>
            let b1 := byte_val c1 in
            if seq2 b0 b1 then valid_utf8 s2
            else
              match s2 with
              | EmptyString => false
              | String c2 s3 =>
                  let b2 := byte_val c2 in
                  if seq3 b0 b1 b2 then valid_utf8 s3
                  else
                    match s3 with
                    | EmptyString => false
                    | String c3 s4 =>
                        if seq4 b0 b1 b2 (byte_val c3) then valid_utf8 s4 else false
                    end
              end
        end
  end.

Definition string_ (s : string) : string :=
  String quote (escape s +:+ String quote EmptyString).

(** An integer is written in decimal. *)
Definition int_ (n : Z) : string := pretty n.

(** A field: its name, a colon, its value. *)
Definition field (name value : string) : string :=
  String quote (name +:+ String quote (String ":" value)).

End JSON.

(** Modelled from the spec: the declarations of the two structs, and
    with them the JSON names of their fields, are not among the sources.
    The names are a parameter; the fields are written in the order of the
    composite literal in [getClusterRegInfo]. *)
Class FieldNames := {
  name_DeploymentID : string;
  name_ClusterName : string;
  name_UsedCapacity : string;
  name_Info : string;
  name_MinioVersion : string;
  name_NoOfServerPools : string;
  name_NoOfServers : string;
  name_NoOfDrives : string;
  name_TotalDriveSpace : string;
  name_UsedDriveSpace : string;
  name_NoOfBuckets : string;
  name_NoOfObjects : string
}.

(** The names of the Go fields, which [encoding/json] uses for fields
    without a tag. *)
Definition go_names : FieldNames :=
  {| name_DeploymentID := "DeploymentID";
     name_ClusterName := "ClusterName";
     name_UsedCapacity := "UsedCapacity";
     name_Info := "Info";
     name_MinioVersion := "MinioVersion";
     name_NoOfServerPools := "NoOfServerPools";
     name_NoOfServers := "NoOfServers";
     name_NoOfDrives := "NoOfDrives";
     name_TotalDriveSpace := "TotalDriveSpace";
     name_UsedDriveSpace := "UsedDriveSpace";
     name_NoOfBuckets := "NoOfBuckets";
     name_NoOfObjects := "NoOfObjects" |}.

Section RegToken.

Context `{FieldNames}.

Definition Marshal_ClusterInfo (i : ClusterInfo) : string :=
  "{" +:+ JSON.field name_MinioVersion (JSON.string_ (MinioVersion i)) +:+
  "," +:+ JSON.field name_NoOfServerPools (JSON.int_ (NoOfServerPools i)) +:+
  "," +:+ JSON.field name_NoOfServers (JSON.int_ (NoOfServers i)) +:+
  "," +:+ JSON.field name_NoOfDrives (JSON.int_ (NoOfDrives i)) +:+
  "," +:+ JSON.field name_TotalDriveSpace (JSON.int_ (TotalDriveSpace i)) +:+
  "," +:+ JSON.field name_UsedDriveSpace (JSON.int_ (UsedDriveSpace i)) +:+
  "," +:+ JSON.field name_NoOfBuckets (JSON.int_ (NoOfBuckets i)) +:+
  "," +:+ JSON.field name_NoOfObjects (JSON.int_ (NoOfObjects i)) +:+
  "}".

(** [json.Marshal(clusterRegInfo)]: it has no error for a struct of
    strings and integers. *)
Definition json_Marshal (r : ClusterRegistrationInfo) : string * error :=
  ("{" +:+ JSON.field name_DeploymentID (JSON.string_ (DeploymentID r)) +:+
   "," +:+ JSON.field name_ClusterName (JSON.string_ (ClusterName r)) +:+
   "," +:+ JSON.field name_UsedCapacity (JSON.int_ (UsedCapacity r)) +:+
   "," +:+ JSON.field name_Info (Marshal_ClusterInfo (Info r)) +:+
   "}", None).

Definition generateRegToken (clusterRegInfo : ClusterRegistrationInfo) : string * error :=
  let '(token, e) := json_Marshal clusterRegInfo in
  match e with
  | Some e => ("", Some e)
  | None => (Base64.EncodeToString token, None)
  end.

End RegToken.

(** ** Reading a registration token back

    The other direction, which the sources do not have: base64-decode,
    then read the object that [json_Marshal] writes. *)
Module Reader.

Definition unhex (c : ascii) : option Z :=
  let b := byte_val c in
  if (48 <=? b) && (b <=? 57) then Some (b - 48)
  else if (97 <=? b) && (b <=? 102) then Some (b - 87)
  else if (65 <=? b) && (b <=? 70) then Some (b - 55)
  else None.

(** The UTF-8 bytes of a code point below 65536. *)
Definition utf8 (code : Z) : string :=
  if code <? 128 then String (Base64.byte_of code) EmptyString
  else if code <? 2048 then
    String (Base64.byte_of (192 + code / 64))
      (String (Base64.byte_of (128 + code mod 64)) EmptyString)
  else
    String (Base64.byte_of (224 + code / 4096))
      (String (Base64.byte_of (128 + code / 64 mod 64))
         (String (Base64.byte_of (128 + code mod 64)) EmptyString)).

Definition simple_escape (e : ascii) : option ascii :=
  let b := byte_val e in
  if (b =? 34) || (b =? 92) || (b =? 47) then Some e
  else if b =? 110 then Some "010"%char
  else if b =? 114 then Some "013"%char
  else if b =? 116 then Some "009"%char
  else if b =? 98 then Some "008"%char
  else if b =? 102 then Some "012"%char
  else None.

(** The bytes of a JSON string, from after its opening quote, and what
    follows its closing quote. *)
Fixpoint string_body (s : string) : option (string * string) :=
  match s with
  | EmptyString => None
  | String c s1 =>
      if Ascii.eqb c JSON.quote then Some (EmptyString, s1)
      else if Ascii.eqb c JSON.backslash then
        match s1 with
        | EmptyString => None
        | String e s2 =>
            if Ascii.eqb e "u" then
              match s2 with
              | String h1 (String h2 (String h3 (String h4 s3))) =>
                  d1 ← unhex h1; d2 ← unhex h2; d3 ← unhex h3; d4 ← unhex h4;
                  '(t, rest) ← string_body s3;
                  Some (utf8 (d1 * 4096 + d2 * 256 + d3 * 16 + d4) +:+ t, rest)
              | _ => None
              end
            else
              b ← simple_escape e;
              '(t, rest) ← string_body s2;
              Some (String b t, rest)
        end
      else '(t, rest) ← string_body s1; Some (String c t, rest)
  end.

Definition string_ (s : string) : option (string * string) :=
  match s with
  | String c s1 => if Ascii.eqb c JSON.quote then string_body s1 else None
  | EmptyString => None
  end.

Definition key (name : string) : string :=
  String JSON.quote (name +:+ String JSON.quote ":").

Definition string_field (name s : string) : option (string * string) :=
  s ← after_prefix (key name) s; string_ s.

Definition int_field (name s : string) : option (Z * string) :=
  s ← after_prefix (key name) s; read_number s.

Section Unmarshal.

Context `{FieldNames}.

Definition Unmarshal_ClusterInfo (s : string) : option (ClusterInfo * string) :=
  s ← after_prefix "{" s;
  '(version, s) ← string_field name_MinioVersion s;
  s ← after_prefix "," s;
  '(pools, s) ← int_field name_NoOfServerPools s;
  s ← after_prefix "," s;
  '(servers, s) ← int_field name_NoOfServers s;
  s ← after_prefix "," s;
  '(drives, s) ← int_field name_NoOfDrives s;
  s ← after_prefix "," s;
  '(total, s) ← int_field name_TotalDriveSpace s;
  s ← after_prefix "," s;
  '(used, s) ← int_field name_UsedDriveSpace s;
  s ← after_prefix "," s;
  '(buckets, s) ← int_field name_NoOfBuckets s;
  s ← after_prefix "," s;
  '(objects, s) ← int_field name_NoOfObjects s;
  s ← after_prefix "}" s;
  Some ({| MinioVersion := version; NoOfServerPools := pools;
           NoOfServers := servers; NoOfDrives := drives;
           NoOfBuckets := buckets; NoOfObjects := objects;
           TotalDriveSpace := total; UsedDriveSpace := used |}, s).

Definition Unmarshal (s : string) : option ClusterRegistrationInfo :=
  s ← after_prefix "{" s;
  '(deployment, s) ← string_field name_DeploymentID s;
  s ← after_prefix "," s;
  '(cluster, s) ← string_field name_ClusterName s;
  s ← after_prefix "," s;
  '(capacity, s) ← int_field name_UsedCapacity s;
  s ← after_prefix "," s;
  s ← after_prefix (key name_Info) s;
  '(info, s) ← Unmarshal_ClusterInfo s;
  match s with
  | "}" => Some {| DeploymentID := deployment; ClusterName := cluster;
                   UsedCapacity := capacity; Info := info |}
  | _ => None
  end.

Definition decodeRegToken (token : string) : option ClusterRegistrationInfo :=
  Base64.DecodeString token ≫= Unmarshal.

End Unmarshal.

End Reader.

(** ** A JSON reader for the examples

    Enough of JSON, and of [gjson] on it, to run the code above on
    concrete response bodies: compact documents of null, booleans,
    integers, strings without escapes, arrays and objects; paths are
    object keys joined by dots. *)
#[local] Unset Elimination Schemes.
Inductive json : Type :=
| JNull
| JBool (b : bool)
| JNum (n : Z)
| JStr (s : string)
| JArr (elems : list json)
| JObj (members : list (string * json)).
#[local] Set Elimination Schemes.

Definition dquote : string := String "034"%char "".

Fixpoint render (j : json) : string :=
  match j with
  | JNull => "null"
  | JBool true => "true"
  | JBool false => "false"
  | JNum n => pretty n
  | JStr s => dquote +:+ s +:+ dquote
  | JArr elems => "[" +:+ sep_by "," (map render elems) +:+ "]"
  | JObj members =>
      "{" +:+ sep_by "," (map (fun m => dquote +:+ m.1 +:+ dquote +:+ ":" +:+ render m.2)
                              members) +:+ "}"
  end.

Fixpoint parse_value (fuel : nat) (s : string) : option (json * string) :=
  match fuel with
  | O => None
  | S fuel =>
      match s with
      | EmptyString => None
      | String "n" rest => r ← after_prefix "ull" rest; Some (JNull, r)
      | String "t" rest => r ← after_prefix "rue" rest; Some (JBool true, r)
      | String "f" rest => r ← after_prefix "alse" rest; Some (JBool false, r)
      | String "034" rest => '(str, r) ← read_quoted rest; Some (JStr str, r)
      | String "[" (String "]" r) => Some (JArr [], r)
      | String "[" rest => '(l, r) ← parse_elems fuel rest; Some (JArr l, r)
      | String "{" (String "}" r) => Some (JObj [], r)
      | String "{" rest => '(l, r) ← parse_members fuel rest; Some (JObj l, r)
      | _ => '(n, r) ← read_number s; Some (JNum n, r)
      end
  end
with parse_elems (fuel : nat) (s : string) : option (list json * string) :=
  match fuel with
  | O => None
  | S fuel =>
      '(v, r) ← parse_value fuel s;
      match r with
      | String "," r' => '(l, r'') ← parse_elems fuel r'; Some (v :: l, r'')
      | String "]" r' => Some ([v], r')
      | _ => None
      end
  end
with parse_members (fuel : nat) (s : string) : option (list (string * json) * string) :=
  match fuel with
  | O => None
  | S fuel =>
      s1 ← after_prefix dquote s;
      '(k, s2) ← read_quoted s1;
      s3 ← after_prefix ":" s2;
      '(v, r) ← parse_value fuel s3;
      match r with
      | String "," r' => '(l, r'') ← parse_members fuel r'; Some ((k, v) :: l, r'')
      | String "}" r' => Some ([(k, v)], r')
      | _ => None
      end
  end.

(** A [Result]: the value read, if there is one. *)
Definition json_parse (s : string) : option json :=
  match parse_value (S (String.length s)) s with
  | Some (j, EmptyString) => Some j
  | _ => None
  end.

Fixpoint member (key : string) (members : list (string * json)) : option json :=
  match members with
  | [] => None
  | (k, v) :: members' => if String.eqb k key then Some v else member key members'
  end.

Fixpoint split_dots (acc path : string) : list string :=
  match path with
  | EmptyString => [acc]
  | String "." path' => acc :: split_dots "" path'
  | String c path' => split_dots (acc +:+ String c "") path'
  end.

Definition json_get (r : option json) (path : string) : option json :=
  fold_left (fun r key =>
               match r with
               | Some (JObj members) => member key members
               | _ => None
               end) (split_dots "" path) r.

Definition json_bool (r : option json) : bool :=
  match r with
  | Some (JBool b) => b
  | Some (JNum n) => negb (n =? 0)
  | Some (JStr s) => String.eqb s "true" || String.eqb s "t" || String.eqb s "1"
  | _ => false
  end.

Definition json_string (r : option json) : string :=
  match r with
  | None | Some JNull => ""
  | Some (JStr s) => s
  | Some j => render j
  end.

Definition json_array (r : option json) : list (option json) :=
  match r with
  | None | Some JNull => []
  | Some (JArr elems) => map Some elems
  | Some j => [Some j]
  end.

Definition simple_gjson : Gjson :=
  {| Result := option json;
     gjson_Get := fun s path => json_get (json_parse s) path;
     gjson_Parse := json_parse;
     Result_Get := json_get;
     Result_Bool := json_bool;
     Result_String := json_string;
     Result_Exists := fun r => bool_decide (is_Some r);
     Result_Array := json_array |}.

(** A process for the examples: production SUBNET, no proxy, white space
    that is ASCII, and URLs refused when they hold a space. *)
Definition simple_process : Process :=
  {| globalDevMode := false;
     globalSubnetProxyURL := None;
     strings_TrimSpace := fun s =>
       Trim s (String " " (String "009" (String "010" (String "011"
              (String "012" (String "013" ""))))));
     http_NewRequest_err := fun _ url =>
       if in_cutset " " url then Some "net/url: invalid character in URL" else None |}.

(** What the loops are meant to compute, written directly. *)
Definition all_disks (servers : list ServerProperties) : list Disk :=
  concat (map Disks servers).

Definition sumZ (l : list Z) : Z := fold_right Z.add 0 l.

(** The pool count the specification asks for: the largest pool index,
    and at least 1. *)
Definition max_pool (servers : list ServerProperties) : Z :=
  fold_right Z.max 1 (map PoolNumber servers).

(** Servers and a status for the examples. *)
Definition srv (pool : Z) (disks : list Disk) : ServerProperties :=
  {| Version := "RELEASE.2021-10-13T00-23-17Z"; PoolNumber := pool; Disks := disks |}.

Definition info_of (servers : list ServerProperties) : InfoMessage :=
  {| madmin.DeploymentID := "4a6e1e8c"; Servers := servers;
     Usage_Size := 0; Buckets_Count := 0; Objects_Count := 0 |}.

(** The cache points into the heap, and no two keys share a client. *)
Definition factory_wf (f : Factory) : Prop :=
  (forall k p, clientCache f !! k = Some p -> (p < length (heap f))%nat) /\
  (forall k1 k2 p,
      clientCache f !! k1 = Some p -> clientCache f !! k2 = Some p -> k1 = k2).

(** Two configs for the same host whose access and secret keys differ but
    concatenate to the same bytes. *)
Definition config_ab_c : Config := mkConfig "https://play.min.io" "ab" "c".
Definition config_a_bc : Config := mkConfig "https://play.min.io" "a" "bc".

(** The schema [help] lists the subsystem [name]: one of its entries
    has that name. *)
Definition lists_subsystem (help : Help) (name : string) : Prop :=
  exists h, h ∈ KeysHelp help /\ HelpKey h = name.

(** The configuration [kvs] holds [value] under [key]: it has an entry
    with the key, and [value] is the value of the first such entry. *)
Definition holds_key (kvs : list KV) (key value : string) : Prop :=
  exists before kv after,
    kvs = (before ++ kv :: after)%list /\
    Key kv = key /\ Value kv = value /\
    forall kv', kv' ∈ before -> Key kv' <> key.

(** The configuration has no entry with the key. *)
Definition lacks_key (kvs : list KV) (key : string) : Prop :=
  forall kv, kv ∈ kvs -> Key kv <> key.

(** The cluster of [alias] answers every call, its schema lists the
    [subnet] subsystem, and [tgt] is that subsystem's parsed
    configuration. *)
Definition cluster_target `{ClusterEnv} (alias : string) (tgt : SubsysTarget) : Prop :=
  exists client help sh buf,
    newAdminClient alias = (client, None) /\
    HelpConfigKV client "" "" false = (help, None) /\
    lists_subsystem help "subnet" /\
    HelpConfigKV client "subnet" "" false = (sh, None) /\
    GetConfigKV client "subnet" = (buf, None) /\
    ParseSubSysTarget buf sh = (tgt, None).

(** The cluster's schema is fetched and has no [subnet] subsystem. *)
Definition cluster_unsupported `{ClusterEnv} (alias : string) : Prop :=
  exists client help,
    newAdminClient alias = (client, None) /\
    HelpConfigKV client "" "" false = (help, None) /\
    ~ lists_subsystem help "subnet".

(** What the cluster holds for a key: the value of the key in the
    [subnet] subsystem, or nothing, when the subsystem lacks the key or
    the cluster lacks the subsystem. *)
Inductive server_holds `{ClusterEnv} (alias key : string) : option string -> Prop :=
| holds_value tgt value :
    cluster_target alias tgt -> holds_key (KVS tgt) key value ->
    server_holds alias key (Some value)
| holds_no_key tgt :
    cluster_target alias tgt -> lacks_key (KVS tgt) key ->
    server_holds alias key None
| holds_no_subsystem :
    cluster_unsupported alias ->
    server_holds alias key None.

(** The requests that [subnetPostReq] and [subnetGetReq] send. *)
Definition post_request `{Process} (reqURL : string) (payload : Payload)
    (headers : StringMap) : Request :=
  with_headers {| Method := "POST"; ReqURL := reqURL; ReqHeader := ∅;
                  ReqBody := Some payload |} headers.

Definition get_request `{Process} (reqURL : string) (headers : StringMap) : Request :=
  with_headers {| Method := "GET"; ReqURL := reqURL; ReqHeader := ∅;
                  ReqBody := None |} headers.

(** The world after the events [evs], with input [inp] and answers [net]
    left. *)
Definition world_after (w : World) (inp : list string) (net : list HttpResult)
    (evs : list Event) : World :=
  {| stdin := inp; network := net; events := (events w ++ evs)%list |}.

(** What [print_orgs] prints. *)
Fixpoint org_lines `{Gjson} (idx : Z) (orgs : list Result) : list Event :=
  match orgs with
  | [] => []
  | org :: orgs' =>
      Printed (Sprintln ["  "; pretty (idx + 1); ":";
                         Result_String (Result_Get org "company")])
      :: org_lines (idx + 1) orgs'
  end.

(** What [account_of] returns. *)
Definition selected `{Gjson} (orgs : list Result) (idx : Z) : outcome (string * error) :=
  match index orgs (wrap_int (idx - 1)) with
  | Done org => Done (Result_String (Result_Get org "accountId"), None)
  | Panic msg => Panic msg
  | Fatal msg => Fatal msg
  end.

(** ** Reading a run *)

(** What a run added to the events of the world it started from. *)
Definition new_events (w w' : World) : list Event :=
  drop (length (events w)) (events w').

(** The URLs of the requests sent, and the texts printed, in order. *)
Definition sent_urls (evs : list Event) : list string :=
  omap (fun e => match e with Sent _ r => Some (ReqURL r) | _ => None end) evs.

Definition printed (evs : list Event) : list string :=
  omap (fun e => match e with Printed s => Some s | _ => None end) evs.

(** The most recent answer of the network. *)
Definition last_received (evs : list Event) : option HttpResult :=
  last (omap (fun e => match e with Received resp => Some resp | _ => None end) evs).

(** The line the next [ReadString] returns. *)
Definition typed_line (w : World) : string :=
  match stdin w with
  | [] => ""
  | l :: _ => l +:+ LF
  end.

(** The answer the network gives to the next request. *)
Definition next_answer (w : World) : HttpResult := hd (DoError "EOF") (network w).

Section Replies.

Context `{Process} `{Gjson}.

(** The reply to the login request of a run of [subnetLogin] from [w]:
    the text that [subnetPostReq] returns without an error, when the
    user gave a name and the request went out. *)
Definition login_reply (w : World) : option string :=
  if strlen (strings_TrimSpace (typed_line w)) =? 0 then None
  else match http_NewRequest_err "POST" subnetLoginURL with
       | Some _ => None
       | None =>
           match reply_of (next_answer w) with
           | (respStr, None) => Some respStr
           | _ => None
           end
       end.

(** The reply to the request of [getSubnetAccID] from [w], likewise. *)
Definition orgs_reply (w : World) : option string :=
  match http_NewRequest_err "GET" subnetOrgsURL with
  | Some _ => None
  | None =>
      match reply_of (next_answer w) with
      | (respStr, None) => Some respStr
      | _ => None
      end
  end.

End Replies.

(** ** Scripted runs for the examples *)

Definition world (typed : list string) (answers : list HttpResult) : World :=
  {| stdin := typed; network := answers; events := [] |}.

Definition ok (doc : json) : HttpResult := Response 200 (render doc) None.

Definition login_doc : json :=
  JObj [("mfa_required", JBool false);
        ("token_info", JObj [("access_token", JStr "tok-123")])].

Definition login_mfa_doc : json :=
  JObj [("mfa_required", JBool true); ("mfa_token", JStr "mfa-9")].

Definition mfa_doc : json :=
  JObj [("token_info", JObj [("access_token", JStr "tok-456")])].

Definition org (company accountId : string) : json :=
  JObj [("company", JStr company); ("accountId", JStr accountId)].

Definition one_org : json := JArr [org "Acme" "11"].
Definition three_orgs : json := JArr [org "Acme" "11"; org "Globex" "22"; org "Initech" "33"].

(** Two registration infos that differ in one byte of the cluster
    name, neither of them UTF-8, and the info with that byte replaced by
    U+FFFD. *)
Definition info_named (name : string) : ClusterRegistrationInfo :=
  {| DeploymentID := "4a6e1e8c"; ClusterName := name; UsedCapacity := 4096;
     Info := {| MinioVersion := "RELEASE.2021-10-13T00-23-17Z";
                NoOfServerPools := 1; NoOfServers := 4; NoOfDrives := 16;
                NoOfBuckets := 2; NoOfObjects := 7;
                TotalDriveSpace := 1000000; UsedDriveSpace := 4096 |} |}.

Definition info_ff : ClusterRegistrationInfo := info_named (String "255" "").
Definition info_fe : ClusterRegistrationInfo := info_named (String "254" "").
Definition info_fffd : ClusterRegistrationInfo :=
  info_named (String "239" (String "191" (String "189" ""))).

(** ** The rest of the admin-client file *)

(** What [newAdminClient] takes from the rest of the client: the
    expansion of an aliased URL into the alias, the full URL and the
    alias's entry of the configuration (nil when there is none), the
    pattern that recognizes a plain URL, and the config built for an
    alias and a URL. *)
Class AliasLibs := {
  expandAlias : string -> string * string * option aliasConfig * error;
  urlRgx_MatchString : string -> bool;
  errInvalidAliasedURL : string -> string;
  buildConfig : string -> string -> Config
}.

Module Admin.

Section AdminClient.

Context `{FactoryLibs} `{AliasLibs}.

Definition newAdminClientFromAlias (alias urlStr : string) (f : Factory)
  : outcome (option ptr * error) * Factory :=
  let s3Config := buildConfig alias urlStr in
  match s3AdminNew s3Config f with
  | (Done (s3Client, err), f') =>
      match err with
      | Some e => (Done (None, Some e), f')
      | None => (Done (s3Client, None), f')
      end
  | other => other
  end.

Definition newAdminClient (aliasedURL : string) (f : Factory)
  : outcome (option ptr * error) * Factory :=
  let '(alias, urlStrFull, hostCfg, err) := expandAlias aliasedURL in
  match err with
  | Some e => (Done (None, Some e), f)
  | None =>
      if (if hostCfg is None then true else false) && urlRgx_MatchString aliasedURL then
        (Done (None, Some (errInvalidAliasedURL aliasedURL)), f)
      else newAdminClientFromAlias alias urlStrFull f
  end.

End AdminClient.

End Admin.

(** Aliases for the examples: [play] is configured, and a text with
    [://] is a plain URL. *)
Definition simple_aliases : AliasLibs :=
  {| expandAlias := fun aliasedURL =>
       if String.eqb aliasedURL "play" then
         ("play", "https://play.min.io", Some (Aliases_get demo_local "play"), None)
       else ("", aliasedURL, None, None);
     urlRgx_MatchString := fun s => if String.index 0 "://" s is Some _ then true else false;
     errInvalidAliasedURL := fun s => "Use `mc alias set mycloud " +:+ s +:+ " ...` to add an alias.";
     buildConfig := fun alias urlStr =>
       mkConfig urlStr (AliasAccessKey (Aliases_get demo_local alias))
                (AliasSecretKey (Aliases_get demo_local alias)) |}.

(** ** The rest of the SUBNET helpers *)

Section MoreSubnet.

Context `{Process} `{Gjson}.

(** [checkURLReachable]: a HEAD request through a client of its own,
    which does not take the SUBNET proxy; of [resp.Status] the model
    keeps the code. *)
Definition checkURLReachable (url : string) : IO error :=
  let '(req, e) := http_NewRequest "HEAD" url None in
  match e with
  | Some e => mret (Some e)
  | None =>
      resp ← clientDo None req;
      match resp with
      | DoError e => mret (Some e)
      | Response code _ _ =>
          if negb (code =? 200) then mret (Some (pretty code)) else mret None
      end
  end.

Context `{ClusterEnv} `{FieldNames}.

(** [registerClusterOnSubnet]: the calls on the administered cluster
    and on the local configuration are those of credential resolution. *)
Definition registerClusterOnSubnet (alias : string)
    (clusterRegInfo : ClusterRegistrationInfo) : IO (string * error) :=
  apiKey ← lift (getSubnetAPIKeyFromConfig alias);
  lic ← (if strlen apiKey =? 0 then lift (getSubnetLicenseFromConfig alias)
         else mret "");
  '(regURL, headers, e) ← subnetURLWithAuth subnetRegisterURL apiKey lic;
  match e with
  | Some e => mret ("", Some e)
  | None =>
      let '(regToken, e) := generateRegToken clusterRegInfo in
      match e with
      | Some e => mret ("", Some e)
      | None =>
          let reqPayload := ClusterRegistrationReq regToken in
          subnetPostReq regURL reqPayload headers
      end
  end.

End MoreSubnet.

(** ** Saving the API key

    The two places an API key is written to: the [subnet] subsystem of
    the administered cluster ([client.SetConfigKV]) and the alias of the
    local configuration ([setAlias], which is outside these sources).
    Each write is a call with a result; the calls made are kept in
    order. *)
Class ClusterWrites `{ClusterEnv} := {
  SetConfigKV : Client -> string -> bool * error;
  setAlias : string -> aliasConfig -> outcome unit
}.

Section SaveAPIKey.

Context `{ClusterEnv} `{!ClusterWrites} `{Gjson}.

Inductive ConfigWrite : Type :=
| ServerSet (client : Client) (configStr : string)
| AliasSet (alias : string) (aliasCfg : aliasConfig).

(** A computation that makes such calls: its outcome, and the calls
    made, after those made before. *)
Definition Writing (A : Type) : Type := list ConfigWrite -> outcome A * list ConfigWrite.

#[export] Instance Writing_ret : MRet Writing := fun A a log => (Done a, log).
#[export] Instance Writing_bind : MBind Writing := fun A B k m log =>
  match m log with
  | (Done a, log') => k a log'
  | (Panic msg, log') => (Panic msg, log')
  | (Fatal msg, log') => (Fatal msg, log')
  end.

Definition reading {A} (o : outcome A) : Writing A := fun log => (o, log).

Definition call_SetConfigKV (client : Client) (configStr : string)
  : Writing (bool * error) := fun log =>
  (Done (SetConfigKV client configStr), (log ++ [ServerSet client configStr])%list).

Definition call_setAlias (alias : string) (aliasCfg : aliasConfig) : Writing unit :=
  fun log => (setAlias alias aliasCfg, (log ++ [AliasSet alias aliasCfg])%list).

(** [aliasCfg.APIKey = apiKey]. *)
Definition set_APIKey (aliasCfg : aliasConfig) (apiKey : string) : aliasConfig :=
  {| AliasURL := AliasURL aliasCfg;
     AliasAccessKey := AliasAccessKey aliasCfg;
     AliasSecretKey := AliasSecretKey aliasCfg;
     License := License aliasCfg;
     APIKey := apiKey |}.

Definition setSubnetAPIKeyConfig (alias apiKey : string) : Writing unit :=
  '(supported, _) ← reading (getSubnetKeyFromMinIOConfig alias "api_key");
  if supported : bool then
    let '(client, err) := newAdminClient alias in
    _ ← reading (fatalIf err "Unable to initialize admin connection.");
    let configStr := "subnet license= api_key=" +:+ apiKey in
    '(_, e) ← call_SetConfigKV client configStr;
    _ ← reading (fatalIf e "Unable to set SUBNET API key config on minio");
    mret tt
  else
    mcCfg ← reading mcConfig;
    let aliasCfg := Aliases_get mcCfg alias in
    let aliasCfg := set_APIKey aliasCfg apiKey in
    call_setAlias alias aliasCfg.

Definition extractAndSaveAPIKey (alias resp : string) : Writing unit :=
  let subnetAPIKey := Result_String (Result_Get (gjson_Parse resp) "api_key") in
  if 0 <? strlen subnetAPIKey then setSubnetAPIKeyConfig alias subnetAPIKey
  else mret tt.

End SaveAPIKey.

(** Writes for the examples: both succeed, and the cluster asks for no
    restart. *)
Definition demo_writes (E : ClusterEnv) : @ClusterWrites E :=
  {| SetConfigKV := fun _ _ => (false, None);
     setAlias := fun _ _ => Done tt |}.

(** The requests sent, each with the proxy it went through, in order. *)
Definition sent_requests (evs : list Event) : list (option string * Request) :=
  omap (fun e => match e with Sent proxy r => Some (proxy, r) | _ => None end) evs.

(** [Header.Add] files a value under the canonical form of the name it
    is given, [textproto.CanonicalMIMEHeaderKey]; [Header_Add] above
    files it under the name itself, which is the same for a name that is
    canonical already.  The scan by which Go's library recognizes such a
    name: it stops at a byte that no header name may hold, else wants a
    capital at the start and after each hyphen, and no capital
    elsewhere. *)
Definition validHeaderFieldByte (c : ascii) : bool :=
  let n := byte_val c in
  ((48 <=? n) && (n <=? 57)) || ((65 <=? n) && (n <=? 90)) ||
  ((97 <=? n) && (n <=? 122)) || in_cutset c "!#$%&'*+-.^_`|~".

Fixpoint canonical_from (upper : bool) (s : string) : bool :=
  match s with
  | EmptyString => true
  | String c s' =>
      let n := byte_val c in
      if negb (validHeaderFieldByte c) then true
      else if upper && (97 <=? n) && (n <=? 122) then false
      else if negb upper && (65 <=? n) && (n <=? 90) then false
      else canonical_from (Ascii.eqb c "-") s'
  end.

Definition canonical_name (s : string) : bool := canonical_from true s.

(** The message with which credential resolution ends when a call on
    the cluster fails: that of the first failing call, in the order in
    which [getSubnetKeyFromMinIOConfig] makes them; the three calls on
    the [subnet] subsystem are made only when the schema lists it. *)
Definition first_failure (err e : error) (supported : bool) (pe e2 e3 : error)
  : option string :=
  if err is Some _ then Some "Unable to initialize admin connection."
  else if e is Some _ then Some "Unable to get minio config keys"
  else if negb supported then None
  else if pe is Some _ then Some "Unable to get config keys for SUBNET"
  else if e2 is Some _ then Some "Unable to get server SUBNET config"
  else if e3 is Some _ then Some "Unable to parse sub-system target 'subnet'"
  else None.

(** A cluster for the examples whose schema lists [subnet] and whose
    [subnet] configuration cannot be fetched. *)
Definition unreadable_cluster (local : configV10 * error) : ClusterEnv :=
  {| Client := string;
     newAdminClient := fun alias => (alias, None);
     HelpConfigKV := fun _ subSys _ _ =>
       ({| SubSys := subSys;
           KeysHelp := [{| HelpKey := "subnet"; HelpDescription := "" |}] |}, None);
     GetConfigKV := fun _ _ => ("", Some "connection reset by peer");
     ParseSubSysTarget := fun _ _ => ({| TargetSubSystem := "subnet"; KVS := [] |}, None);
     loadMcConfig := local |}.

(* ================================================================== *)
(** * Properties *)
(* ================================================================== *)

Section ClusterInfoAggregation.

Lemma wrap_int_add_l a b : wrap_int (wrap_int a + b) = wrap_int (a + b).
Proof.
  unfold wrap_int.
  replace ((a + 2 ^ 63) mod 2 ^ 64 - 2 ^ 63 + b + 2 ^ 63)
    with ((a + 2 ^ 63) mod 2 ^ 64 + b) by lia.
  rewrite Zplus_mod_idemp_l. f_equal. f_equal. lia.
Qed.

Lemma wrap_int_small z : - 2 ^ 63 <= z < 2 ^ 63 -> wrap_int z = z.
Proof. intros H. unfold wrap_int. rewrite Z.mod_small; lia. Qed.

Lemma u64_add_l a b : u64 (u64 a + b) = u64 (a + b).
Proof. unfold u64. apply Zplus_mod_idemp_l. Qed.

Lemma u64_small z : 0 <= z < 2 ^ 64 -> u64 z = z.
Proof. intros H. unfold u64. apply Z.mod_small; lia. Qed.

Lemma pools_loop servers p d :
  fold_left poolsAndDrives_step servers (p, wrap_int d) =
  (fold_right Z.max p (map PoolNumber servers),
   wrap_int (d + len (all_disks servers))).
Proof.
  revert p d. induction servers as [|s servers IH]; intros p d.
  - simpl. unfold len. simpl. by rewrite Z.add_0_r.
  - cbn [fold_left poolsAndDrives_step map fold_right].
    unfold add_int. rewrite wrap_int_add_l, IH.
    f_equal.
    + clear IH. destruct (Z.ltb_spec p (PoolNumber s)).
      * induction servers as [|t l IHl]; simpl; lia.
      * induction servers as [|t l IHl]; simpl; lia.
    + f_equal. unfold all_disks, len. simpl. rewrite length_app. lia.
Qed.

Lemma poolsAndDrives_spec servers :
  poolsAndDrives servers =
  (max_pool servers, wrap_int (len (all_disks servers))).
Proof.
  unfold poolsAndDrives, max_pool.
  change (1, 0) with (1, wrap_int 0). by rewrite pools_loop.
Qed.

Lemma driveSpace_disk_loop (disks : list Disk) t u :
  fold_left driveSpace_disk disks (u64 t, u64 u) =
  (u64 (t + sumZ (map TotalSpace disks)),
   u64 (u + sumZ (map UsedSpace disks))).
Proof.
  revert t u. induction disks as [|d disks IH]; intros t u; simpl.
  - by rewrite !Z.add_0_r.
  - unfold add_u64. rewrite !u64_add_l, IH. f_equal; f_equal; lia.
Qed.

Lemma sumZ_app l1 l2 : sumZ (l1 ++ l2) = sumZ l1 + sumZ l2.
Proof. induction l1; simpl; lia. Qed.

Lemma driveSpace_server_loop servers t u :
  fold_left driveSpace_server servers (u64 t, u64 u) =
  (u64 (t + sumZ (map TotalSpace (all_disks servers))),
   u64 (u + sumZ (map UsedSpace (all_disks servers)))).
Proof.
  revert t u. induction servers as [|s servers IH]; intros t u.
  - simpl. by rewrite !Z.add_0_r.
  - cbn [fold_left]. unfold driveSpace_server at 2.
    rewrite driveSpace_disk_loop, IH.
    unfold all_disks. simpl. rewrite !map_app, !sumZ_app.
    f_equal; f_equal; lia.
Qed.

Lemma getDriveSpaceInfo_spec admInfo :
  getDriveSpaceInfo admInfo =
  (u64 (sumZ (map TotalSpace (all_disks (Servers admInfo)))),
   u64 (sumZ (map UsedSpace (all_disks (Servers admInfo))))).
Proof.
  unfold getDriveSpaceInfo. change (0, 0) with (u64 0, u64 0).
  by rewrite driveSpace_server_loop.
Qed.

Lemma max_pool_lower servers : 1 <= max_pool servers.
Proof. unfold max_pool. induction servers; simpl; lia. Qed.

Lemma max_pool_upper servers s :
  s ∈ servers -> PoolNumber s <= max_pool servers.
Proof.
  unfold max_pool. induction 1; simpl; lia.
Qed.

Lemma max_pool_attained servers :
  max_pool servers = 1 \/ exists s, s ∈ servers /\ PoolNumber s = max_pool servers.
Proof.
  unfold max_pool. induction servers as [|s servers IH]; simpl; [by left|].
  destruct (Z.max_spec (PoolNumber s) (fold_right Z.max 1 (map PoolNumber servers)))
    as [[_ ->]|[_ ->]].
  - destruct IH as [IH|(t & Ht & IH)]; [by left|].
    right. exists t. split; [by right|done].
  - right. exists s. split; [by left|done].
Qed.

Lemma getClusterRegInfo_unfold admInfo clusterName :
  getClusterRegInfo admInfo clusterName =
  match Servers admInfo with
  | [] => Panic "index out of range"
  | srvr0 :: _ =>
      Done {| DeploymentID := madmin.DeploymentID admInfo;
              ClusterName := clusterName;
              UsedCapacity := Usage_Size admInfo;
              Info := {| MinioVersion := Version srvr0;
                         NoOfServerPools := max_pool (Servers admInfo);
                         NoOfServers := len (Servers admInfo);
                         NoOfDrives := wrap_int (len (all_disks (Servers admInfo)));
                         TotalDriveSpace :=
                           u64 (sumZ (map TotalSpace (all_disks (Servers admInfo))));
                         UsedDriveSpace :=
                           u64 (sumZ (map UsedSpace (all_disks (Servers admInfo))));
                         NoOfBuckets := Buckets_Count admInfo;
                         NoOfObjects := Objects_Count admInfo |} |}
  end.
Proof.
  unfold getClusterRegInfo.
  rewrite poolsAndDrives_spec, getDriveSpaceInfo_spec.
  destruct (Servers admInfo) as [|srvr0 rest] eqn:E; [done|].
  unfold index, len. cbn [length].
  replace (Z.of_nat (S (length rest)) <=? 0) with false
    by (symmetry; apply Z.leb_gt; lia).
  done.
Qed.

Example pools_1123 :
  NoOfServerPools <$> (Info <$> outcome_value
    (getClusterRegInfo (info_of [srv 1 []; srv 1 []; srv 2 []; srv 3 []]) "c")) = Some 3.
Proof. reflexivity. Qed.

Example pools_1 :
  NoOfServerPools <$> (Info <$> outcome_value
    (getClusterRegInfo (info_of [srv 1 []]) "c")) = Some 1.
Proof. reflexivity. Qed.

(** Where no sum leaves the range of its type, the sums are the plain
    ones. *)
Lemma sumZ_nonneg (l : list Z) : Forall (fun z => 0 <= z) l -> 0 <= sumZ l.
Proof. induction 1; simpl; lia. Qed.

Lemma getDriveSpaceInfo_exact admInfo :
  let disks := all_disks (Servers admInfo) in
  Forall (fun d => 0 <= TotalSpace d /\ 0 <= UsedSpace d) disks ->
  sumZ (map TotalSpace disks) < 2 ^ 64 ->
  sumZ (map UsedSpace disks) < 2 ^ 64 ->
  getDriveSpaceInfo admInfo =
  (sumZ (map TotalSpace disks), sumZ (map UsedSpace disks)).
Proof.
  intros disks Hpos Ht Hu. rewrite getDriveSpaceInfo_spec. fold disks.
  rewrite !u64_small; [done|split; [|done]..]; apply sumZ_nonneg, Forall_map;
    eapply Forall_impl; [exact Hpos| |exact Hpos|]; simpl; intros d; lia.
Qed.

(** C8. For every admin status, the loops of the aggregation compute
    as pool count the largest pool index of the servers, and at least 1
    (it is 1, or the index of some server, and no server has a larger
    one); as drive count the number of disks of all servers; and as
    total and used drive space the sums of [TotalSpace] and [UsedSpace]
    over every disk of every server, each disk counted as often as it
    occurs, in the arithmetic of the Go types ([int], [uint64]).  These
    are the values that [getClusterRegInfo] returns; it fails to return
    only on an empty server list. *)
Theorem getClusterRegInfo_aggregates admInfo clusterName :
  let servers := Servers admInfo in
  let pools := max_pool servers in
  let drives := wrap_int (len (all_disks servers)) in
  let total := u64 (sumZ (map TotalSpace (all_disks servers))) in
  let used := u64 (sumZ (map UsedSpace (all_disks servers))) in
  poolsAndDrives servers = (pools, drives) /\
  getDriveSpaceInfo admInfo = (total, used) /\
  1 <= pools /\
  (forall s, s ∈ servers -> PoolNumber s <= pools) /\
  (pools = 1 \/ exists s, s ∈ servers /\ PoolNumber s = pools) /\
  match getClusterRegInfo admInfo clusterName with
  | Done r =>
      NoOfServerPools (Info r) = pools /\
      NoOfDrives (Info r) = drives /\
      TotalDriveSpace (Info r) = total /\
      UsedDriveSpace (Info r) = used
  | _ => servers = []
  end.
Proof.
  intros servers pools drives total used.
  split_and!.
  - apply poolsAndDrives_spec.
  - apply getDriveSpaceInfo_spec.
  - apply max_pool_lower.
  - intros s Hs. by apply max_pool_upper.
  - apply max_pool_attained.
  - rewrite getClusterRegInfo_unfold. fold servers.
    by destruct servers as [|s0 rest].
Qed.

(** C10. [getClusterRegInfo] reads [Servers[0].Version] whatever the
    input: with no server the index is out of range and the call panics;
    with at least one server it returns, and the version it reports is the
    first server's. *)
Theorem getClusterRegInfo_needs_a_server admInfo clusterName :
  match Servers admInfo with
  | [] => getClusterRegInfo admInfo clusterName = Panic "index out of range"
  | srvr0 :: _ =>
      exists r, getClusterRegInfo admInfo clusterName = Done r /\
                MinioVersion (Info r) = Version srvr0
  end.
Proof.
  rewrite getClusterRegInfo_unfold.
  destruct (Servers admInfo) as [|srvr0 rest]; [done|].
  eexists. split; [done|]. done.
Qed.

End ClusterInfoAggregation.

Section AdminFactory.

Context `{FactoryLibs}.

Example fnv32a_empty : fnv32a_sum "" = 0x811c9dc5.
Proof. reflexivity. Qed.

Example fnv32a_a : fnv32a_sum "a" = 0xe40c292c.
Proof. reflexivity. Qed.

Example fnv32a_foobar : fnv32a_sum "foobar" = 0xbf9cf968.
Proof. reflexivity. Qed.

Lemma newAdminFactory_wf : factory_wf newAdminFactory.
Proof. split; intros *; simpl; by rewrite lookup_empty. Qed.

Lemma s3AdminNew_keeps config f k p :
  clientCache f !! k = Some p ->
  clientCache (s3AdminNew config f).2 !! k = Some p.
Proof.
  intros Hk. unfold s3AdminNew. cbv zeta.
  destruct (url_Parse (HostURL config)) as [u|]; [|done].
  set (key := fnv32a_sum _).
  destruct (clientCache f !! key) as [api|] eqn:E; [done|].
  destruct (madmin_New _ _ _ _); [done|]. simpl.
  rewrite lookup_insert_ne; [done|]. congruence.
Qed.

Lemma calls_keeps configs f k p :
  clientCache f !! k = Some p ->
  clientCache (calls configs f) !! k = Some p.
Proof.
  revert f. induction configs as [|c cs IH]; intros f Hk; [done|].
  apply IH. by apply s3AdminNew_keeps.
Qed.

Lemma s3AdminNew_wf config f :
  factory_wf f -> factory_wf (s3AdminNew config f).2.
Proof.
  intros [Hlt Hinj]. unfold s3AdminNew. cbv zeta.
  destruct (url_Parse (HostURL config)) as [u|]; [|done].
  set (key := fnv32a_sum _).
  destruct (clientCache f !! key) as [api|] eqn:E; [done|].
  destruct (madmin_New _ _ _ _); [done|]. simpl. clearbody key.
  split; simpl.
  - intros k p. rewrite length_app. simpl.
    destruct (decide (key = k)) as [->|Hne].
    + rewrite lookup_insert_eq. intros [= <-]. lia.
    + rewrite lookup_insert_ne by done. intros Hk. apply Hlt in Hk. lia.
  - intros k1 k2 p.
    destruct (decide (key = k1)) as [E1|N1], (decide (key = k2)) as [E2|N2];
      subst; rewrite ?lookup_insert_eq, ?lookup_insert_ne by done.
    + done.
    + intros [= <-] Hk. apply Hlt in Hk. lia.
    + intros Hk [= <-]. apply Hlt in Hk. lia.
    + apply Hinj.
Qed.

Lemma calls_wf configs f : factory_wf f -> factory_wf (calls configs f).
Proof.
  revert f. induction configs as [|c cs IH]; intros f Hf; [done|].
  apply IH. by apply s3AdminNew_wf.
Qed.

Lemma s3AdminNew_cached config id f p f' :
  identity config = Some id ->
  s3AdminNew config f = (Done (Some p, None), f') ->
  clientCache f' !! fingerprint id = Some p.
Proof.
  unfold identity, s3AdminNew. cbv zeta.
  destruct (url_Parse (HostURL config)) as [u|]; [|done].
  intros [= <-]. unfold fingerprint.
  set (key := fnv32a_sum _).
  destruct (clientCache f !! key) as [api|] eqn:E.
  - intros [= <- <-]. exact E.
  - destruct (madmin_New _ _ _ _); [done|].
    intros [= <- <-]. simpl. apply lookup_insert_eq.
Qed.

Lemma s3AdminNew_hit config id f p :
  identity config = Some id ->
  clientCache f !! fingerprint id = Some p ->
  s3AdminNew config f = (Done (Some p, None), f).
Proof.
  unfold identity, s3AdminNew. cbv zeta.
  destruct (url_Parse (HostURL config)) as [u|]; [|done].
  intros [= <-]. unfold fingerprint. by intros ->.
Qed.

(** C1. Take any run of the factory from its creation, a call for
    [config1] that returns a client, any further calls, and then a call
    for [config2].  If the two configs have the same (host, access key,
    secret key), the second call returns the very client of the first
    (and allocates nothing).  Whenever the second call returns a client,
    it is the client of the first exactly when the fingerprints of the
    two identities are equal: configs with different fingerprints get
    different clients. *)
Theorem s3AdminNew_same_instance
    (before between : list Config) (config1 config2 : Config)
    (id1 id2 : string * string * string) (api1 : ptr) :
  let f0 := calls before newAdminFactory in
  let f1 := calls between (s3AdminNew config1 f0).2 in
  identity config1 = Some id1 ->
  identity config2 = Some id2 ->
  (s3AdminNew config1 f0).1 = Done (Some api1, None) ->
  (id1 = id2 -> s3AdminNew config2 f1 = (Done (Some api1, None), f1)) /\
  (forall api2,
      (s3AdminNew config2 f1).1 = Done (Some api2, None) ->
      (api1 = api2 <-> fingerprint id1 = fingerprint id2)).
Proof.
  intros f0. destruct (s3AdminNew config1 f0) as [r1 f0'] eqn:E1.
  intros f1 Hid1 Hid2 Hcall1. simpl in Hcall1, f1. subst r1.
  assert (Hc1 : clientCache f1 !! fingerprint id1 = Some api1).
  { unfold f1. apply calls_keeps.
    by apply (s3AdminNew_cached config1 id1 f0). }
  split.
  - intros <-. by apply s3AdminNew_hit with id1.
  - intros api2 Hcall2.
    destruct (s3AdminNew config2 f1) as [r2 f2] eqn:E2. simpl in Hcall2. subst r2.
    assert (Hwf : factory_wf f2).
    { replace f2 with (s3AdminNew config2 f1).2 by (by rewrite E2).
      apply s3AdminNew_wf. unfold f1. apply calls_wf.
      replace f0' with (s3AdminNew config1 f0).2 by (by rewrite E1).
      apply s3AdminNew_wf. unfold f0. apply calls_wf, newAdminFactory_wf. }
    assert (Hc2 : clientCache f2 !! fingerprint id2 = Some api2)
      by (by apply (s3AdminNew_cached config2 id2 f1)).
    assert (Hc1' : clientCache f2 !! fingerprint id1 = Some api1).
    { replace f2 with (s3AdminNew config2 f1).2 by (by rewrite E2).
      by apply s3AdminNew_keeps. }
    split.
    + intros <-. by apply (proj2 Hwf) with api1.
    + intros Heq. rewrite Heq in Hc1'. congruence.
Qed.

End AdminFactory.

Lemma s3AdminNew_same_instance_witness :
  let c := mkConfig "https://play.min.io" "Q3AM3UQ867SPQQA43P2F" "zuf+tfteSlswRu7BJ86wekitnifILbZam1KYY3TG" in
  let d := mkConfig "http://localhost:9000" "minioadmin" "minioadmin" in
  let f1 := calls (H := simple_libs) [d] (s3AdminNew (H := simple_libs) c newAdminFactory).2 in
  s3AdminNew (H := simple_libs) c f1 = (Done (Some 0%nat, None), f1).
Proof.
  intros c d f1.
  refine (proj1 (s3AdminNew_same_instance (H := simple_libs) [] [d] c c
                   ("play.min.io", AccessKey c, SecretKey c)
                   ("play.min.io", AccessKey c, SecretKey c) 0%nat _ _ _) _);
    reflexivity.
Defined.

Lemma distinct_identities_share_a_client :
  identity (H := simple_libs) config_ab_c <> identity (H := simple_libs) config_a_bc /\
  let f1 := (s3AdminNew (H := simple_libs) config_ab_c newAdminFactory).2 in
  (s3AdminNew (H := simple_libs) config_ab_c newAdminFactory).1 = Done (Some 0%nat, None) /\
  (s3AdminNew (H := simple_libs) config_a_bc f1).1 = Done (Some 0%nat, None).
Proof. split; [discriminate|]. split; reflexivity. Qed.

Section CredentialResolution.

Context (E : ClusterEnv).

Lemma hasHelpKey_lists (help : Help) (name : string) :
  hasHelpKey name (KeysHelp help) = true <-> lists_subsystem help name.
Proof.
  unfold lists_subsystem. induction (KeysHelp help) as [|h keys IH]; cbn [hasHelpKey].
  - split; [done|]. intros (h & Hin & _). by apply elem_of_nil in Hin.
  - destruct (String.eqb_spec (HelpKey h) name) as [Heq|Hne].
    + split; [|done]. intros _. exists h. split; [by left|done].
    + rewrite IH. split.
      * intros (h' & Hin & Hh). exists h'. split; [by right|done].
      * intros (h' & Hin & Hh). apply elem_of_cons in Hin as [->|Hin]; [done|].
        by exists h'.
Qed.

Lemma findKV_holds (kvs : list KV) (key value : string) :
  holds_key kvs key value -> findKV key kvs = Some value.
Proof.
  intros (before & kv & after & -> & Hk & Hv & Hfirst).
  induction before as [|kv' before IH]; cbn [app findKV].
  - rewrite Hk, String.eqb_refl. by rewrite Hv.
  - destruct (String.eqb_spec (Key kv') key) as [Heq|_].
    + exfalso. apply (Hfirst kv'); [by left|done].
    + apply IH. intros kv'' Hin. apply Hfirst. by right.
Qed.

Lemma findKV_lacks (kvs : list KV) (key : string) :
  lacks_key kvs key -> findKV key kvs = None.
Proof.
  unfold lacks_key. induction kvs as [|kv kvs IH]; intros Hno; cbn [findKV]; [done|].
  destruct (String.eqb_spec (Key kv) key) as [Heq|_].
  - exfalso. apply (Hno kv); [by left|done].
  - apply IH. intros kv' Hin. apply Hno. by right.
Qed.

Lemma getSubnetKey_target alias key tgt :
  cluster_target alias tgt ->
  getSubnetKeyFromMinIOConfig (H := E) alias key =
  match findKV key (KVS tgt) with
  | Some value => Done (true, value)
  | None => Done (false, "")
  end.
Proof.
  intros (client & help & sh & buf & H1 & H2 & H3 & H4 & H5 & H6).
  apply hasHelpKey_lists in H3.
  unfold getSubnetKeyFromMinIOConfig, minioConfigSupportsSubnet.
  rewrite H1, H2. simpl. rewrite H3, H4. simpl. rewrite H5. simpl.
  rewrite H6. simpl. by destruct (findKV key (KVS tgt)).
Qed.

Lemma getSubnetKey_unsupported alias key :
  cluster_unsupported alias ->
  getSubnetKeyFromMinIOConfig (H := E) alias key = Done (false, "").
Proof.
  intros (client & help & H1 & H2 & H3).
  assert (H3' : hasHelpKey "subnet" (KeysHelp help) = false).
  { destruct (hasHelpKey "subnet" (KeysHelp help)) eqn:Hh; [|done].
    by apply hasHelpKey_lists in Hh. }
  unfold getSubnetKeyFromMinIOConfig, minioConfigSupportsSubnet.
  rewrite H1, H2. simpl. by rewrite H3'.
Qed.

Lemma mcConfig_unfold config err :
  loadMcConfig = (config, err) ->
  mcConfig (H := E) =
  match err with None => Done config | Some _ => Fatal "Unable to access configuration file." end.
Proof. unfold mcConfig. intros ->. by destruct err. Qed.

(** C2. Let the cluster of [alias] hold [held] for the key of a
    credential (API key or license): [Some value] when its schema lists
    the [subnet] subsystem and that subsystem has the key, [None] when
    the subsystem lacks the key or the schema lacks the subsystem.  Then
    resolution returns [value] as it is, whatever the local
    configuration holds and even when it cannot be loaded; and with
    [None] it returns the field of the alias in the local configuration
    (empty for an alias that is not configured), the only other outcome
    being the fatal error of a configuration that cannot be loaded. *)
Theorem resolve_precedence (cred : Credential) (alias : string)
    (held : option string) (config : configV10) (err : error) :
  server_holds alias (cred_key cred) held ->
  loadMcConfig = (config, err) ->
  resolve cred alias =
  match held, err with
  | Some value, _ => Done value
  | None, None => Done (cred_local cred (Aliases_get config alias))
  | None, Some _ => Fatal "Unable to access configuration file."
  end.
Proof.
  intros Hheld Hlocal.
  assert (Hkey : getSubnetKeyFromMinIOConfig alias (cred_key cred) =
                 match held with
                 | Some value => Done (true, value)
                 | None => Done (false, "")
                 end).
  { destruct Hheld as [tgt value Ht Hf|tgt Ht Hf|Hu].
    - rewrite (getSubnetKey_target _ _ tgt Ht). by rewrite (findKV_holds _ _ _ Hf).
    - rewrite (getSubnetKey_target _ _ tgt Ht). by rewrite (findKV_lacks _ _ Hf).
    - by apply getSubnetKey_unsupported. }
  destruct cred; simpl in *;
    unfold getSubnetAPIKeyFromConfig, getSubnetLicenseFromConfig;
    rewrite Hkey; destruct held; simpl; try done;
    rewrite (mcConfig_unfold _ _ Hlocal); by destruct err.
Qed.

End CredentialResolution.

Lemma resolve_precedence_witness :
  resolve (H := demo_cluster ["api"; "subnet"]
                  [{| Key := "license"; Value := "" |};
                   {| Key := "api_key"; Value := "server-key" |}]
                  (demo_local, None))
          CredAPIKey "play" = Done "server-key".
Proof.
  apply (resolve_precedence _ CredAPIKey "play" (Some "server-key") demo_local None);
    [|reflexivity].
  eapply holds_value.
  - exists "play". do 3 eexists. split_and!; try reflexivity.
    exists {| HelpKey := "subnet"; HelpDescription := "" |}.
    split; [|reflexivity]. cbn. apply elem_of_cons. right. by apply elem_of_cons; left.
  - exists [{| Key := "license"; Value := "" |}],
           {| Key := "api_key"; Value := "server-key" |}, [].
    split_and!; try reflexivity.
    intros kv' Hin. apply elem_of_cons in Hin as [->|Hin]; [done|].
    by apply elem_of_nil in Hin.
Defined.

Section SubnetRuns.

Context `{Process} `{Gjson}.

Lemma strlen_nonneg s : 0 <= strlen s.
Proof. induction s; simpl; lia. Qed.

Lemma strlen_pos s : (0 <? strlen s) = negb (String.eqb s "").
Proof.
  destruct s as [|c s]; [done|]. simpl.
  pose proof (strlen_nonneg s). apply Z.ltb_lt. lia.
Qed.

Lemma strlen_zero s : (strlen s =? 0) = String.eqb s "".
Proof.
  destruct s as [|c s]; [done|]. simpl.
  pose proof (strlen_nonneg s). apply Z.eqb_neq. lia.
Qed.

Lemma IO_bind_run {A B} (m : IO A) (k : A -> IO B) w :
  (m ≫= k) w =
  match m w with
  | (Done a, w') => k a w'
  | (Panic msg, w') => (Panic msg, w')
  | (Fatal msg, w') => (Fatal msg, w')
  end.
Proof. reflexivity. Qed.

(** Runs the terminal steps of an [IO] computation on a world. *)
Ltac io_run :=
  cbv [mbind IO_bind mret IO_ret ReadString ReadPassword Print Println emit
       next_line lift];
  simpl.

Lemma subnetPostReq_run reqURL payload headers w :
  subnetPostReq reqURL payload headers w =
  match http_NewRequest_err "POST" reqURL with
  | Some e => (Done ("", Some e), w)
  | None =>
      (Done (reply_of (next_answer w)),
       world_after w (stdin w) (tail (network w))
         [Sent globalSubnetProxyURL (post_request reqURL payload headers);
          Received (next_answer w)])
  end.
Proof.
  unfold subnetPostReq, http_NewRequest.
  destruct (http_NewRequest_err "POST" reqURL); reflexivity.
Qed.

Lemma subnetGetReq_run reqURL headers w :
  subnetGetReq reqURL headers w =
  match http_NewRequest_err "GET" reqURL with
  | Some e => (Done ("", Some e), w)
  | None =>
      (Done (reply_of (next_answer w)),
       world_after w (stdin w) (tail (network w))
         [Sent globalSubnetProxyURL (get_request reqURL headers);
          Received (next_answer w)])
  end.
Proof.
  unfold subnetGetReq, http_NewRequest.
  destruct (http_NewRequest_err "GET" reqURL); reflexivity.
Qed.

Lemma new_events_after w inp net evs :
  new_events w (world_after w inp net evs) = evs.
Proof. unfold new_events, world_after. simpl. by rewrite drop_app_length. Qed.

Lemma world_after_after w inp net evs inp' net' evs' :
  world_after (world_after w inp net evs) inp' net' evs' =
  world_after w inp' net' (evs ++ evs').
Proof. unfold world_after. simpl. by rewrite <- app_assoc. Qed.

Lemma world_after_nil w : w = world_after w (stdin w) (network w) [].
Proof. destruct w. unfold world_after. simpl. by rewrite app_nil_r. Qed.

Lemma URLs_differ : subnetLoginURL <> subnetMFAURL.
Proof.
  unfold subnetLoginURL, subnetMFAURL, subnetBaseURL.
  destruct globalDevMode; discriminate.
Qed.

(** The whole of [subnetLogin], as a function of the world. *)
Lemma subnetLogin_run w :
  let user := strings_TrimSpace (typed_line w) in
  let pw := hd "" (tail (stdin w)) in
  let otp := hd "" (tail (tail (stdin w))) in
  let asked := [Printed "SUBNET username: "] in
  let asked2 := (asked ++ [Printed "Password: "; Printed LF])%list in
  let login := Sent globalSubnetProxyURL
                 (post_request subnetLoginURL (LoginReq user pw) None) in
  subnetLogin w =
  if strlen user =? 0 then
    (Done ("", Some ("Username cannot be empty. If you don't have one, please create one from here: "
                     +:+ minioSubscriptionURL)),
     world_after w (tail (stdin w)) (network w) asked)
  else
    match http_NewRequest_err "POST" subnetLoginURL with
    | Some e =>
        (Done ("", Some e), world_after w (tail (tail (stdin w))) (network w) asked2)
    | None =>
        let sent1 := (asked2 ++ [login; Received (next_answer w)])%list in
        match reply_of (next_answer w) with
        | (_, Some e) =>
            (Done ("", Some e),
             world_after w (tail (tail (stdin w))) (tail (network w)) sent1)
        | (respStr, None) =>
            if Result_Bool (gjson_Get respStr "mfa_required") then
              let asked3 :=
                (sent1 ++ [Printed "OTP received in email: "; Printed LF])%list in
              let inp := tail (tail (tail (stdin w))) in
              match http_NewRequest_err "POST" subnetMFAURL with
              | Some e => (Done ("", Some e), world_after w inp (tail (network w)) asked3)
              | None =>
                  let answer2 := hd (DoError "EOF") (tail (network w)) in
                  let mfa :=
                    Sent globalSubnetProxyURL
                      (post_request subnetMFAURL
                         (SubnetMFAReq user otp
                            (Result_String (gjson_Get respStr "mfa_token"))) None) in
                  (Done (match reply_of answer2 with
                         | (_, Some e) => ("", Some e)
                         | (respStr2, None) => access_token respStr2
                         end),
                   world_after w inp (tail (tail (network w)))
                     (asked3 ++ [mfa; Received answer2]))
              end
            else
              (Done (access_token respStr),
               world_after w (tail (tail (stdin w))) (tail (network w)) sent1)
        end
    end.
Proof.
  intros user pw otp asked asked2 login.
  unfold subnetLogin.
  subst user pw otp asked asked2 login.
  unfold typed_line, next_answer, world_after.
  destruct w as [inp net evs]. cbn [stdin network events].
  destruct inp as [|l1 [|l2 [|l3 inp]]]; io_run;
    (destruct (strlen (strings_TrimSpace _) =? 0); [reflexivity|]);
    io_run; rewrite subnetPostReq_run;
    (destruct (http_NewRequest_err "POST" subnetLoginURL);
     [simpl; by rewrite <- ?app_assoc|]);
    unfold next_answer, world_after; simpl;
    (destruct (reply_of (hd (DoError "EOF") net)) as [respStr [e|]];
     [simpl; by rewrite <- ?app_assoc|]);
    simpl;
    (destruct (Result_Bool (gjson_Get respStr "mfa_required"));
     [|simpl; by rewrite <- ?app_assoc]);
    io_run; rewrite subnetPostReq_run;
    (destruct (http_NewRequest_err "POST" subnetMFAURL);
     [simpl; by rewrite <- ?app_assoc|]);
    unfold next_answer, world_after; simpl;
    destruct (reply_of (hd (DoError "EOF") (tail net))) as [respStr2 [e|]];
    simpl; by rewrite <- ?app_assoc.
Qed.

Lemma print_orgs_run idx orgs w :
  print_orgs idx orgs w =
  (Done tt, world_after w (stdin w) (network w) (org_lines idx orgs)).
Proof.
  revert idx w. induction orgs as [|org orgs IH]; intros idx w.
  - simpl. io_run. by rewrite (world_after_nil w) at 1.
  - cbn [print_orgs org_lines]. rewrite IO_bind_run. io_run.
    rewrite IH. unfold world_after. simpl. by rewrite <- app_assoc.
Qed.

(** The whole of [getSubnetAccID], as a function of the world. *)
Lemma getSubnetAccID_run headers w :
  let sent := [Sent globalSubnetProxyURL (get_request subnetOrgsURL headers);
               Received (next_answer w)] in
  getSubnetAccID headers w =
  match http_NewRequest_err "GET" subnetOrgsURL with
  | Some e => (Done ("", Some e), w)
  | None =>
      match reply_of (next_answer w) with
      | (_, Some e) =>
          (Done ("", Some e), world_after w (stdin w) (tail (network w)) sent)
      | (respStr, None) =>
          let orgs := Result_Array (gjson_Parse respStr) in
          if 1 <? len orgs then
            let w' :=
              world_after w (tail (stdin w)) (tail (network w))
                (sent ++
                 [Printed (Sprintln ["You are part of multiple organizations on SUBNET:"])] ++
                 org_lines 0 orgs ++
                 [Printed "Please choose the organization for this cluster: "]) in
            match Atoi (Trim (typed_line w) LF) with
            | (_, Some e) => (Done ("", Some e), w')
            | (idx, None) =>
                if len orgs <? idx then
                  (Done ("", Some "Invalid choice for organization. Please run the command again."),
                   w')
                else (selected orgs idx, w')
            end
          else (selected orgs 1, world_after w (stdin w) (tail (network w)) sent)
      end
  end.
Proof.
  intros sent. subst sent. unfold getSubnetAccID.
  rewrite IO_bind_run, subnetGetReq_run.
  destruct (http_NewRequest_err "GET" subnetOrgsURL); [done|].
  destruct (reply_of (next_answer w)) as [respStr [e|]]; [done|].
  cbv zeta.
  set (orgs := Result_Array (gjson_Parse respStr)).
  assert (Hsel : forall idx w0, account_of orgs idx w0 = (selected orgs idx, w0)).
  { intros idx w0. unfold account_of, selected. io_run.
    by destruct (index orgs (wrap_int (idx - 1))). }
  destruct (1 <? len orgs); [|apply Hsel].
  io_run. rewrite print_orgs_run. unfold world_after at 1. simpl.
  unfold typed_line.
  destruct w as [inp net evs]. cbn [stdin network events].
  destruct inp as [|l inp]; cbn [hd tail];
    [generalize (Atoi (Trim "" LF))|generalize (Atoi (Trim (l +:+ LF) LF))];
    intros [idx [e|]]; unfold world_after, next_answer; simpl;
    rewrite <- ?app_assoc; simpl; try done;
    (destruct (len orgs <? idx); [done|]); by rewrite Hsel.
Qed.

Lemma Atoi_range s v : Atoi s = (v, None) -> min_int <= v <= max_int.
Proof.
  unfold Atoi.
  destruct (match s with
            | String "-" s' => (true, s')
            | String "+" s' => (false, s')
            | _ => (false, s)
            end) as [neg digits].
  destruct digits as [|c digits]; [discriminate|].
  destruct (digits_val 0 (String c digits)) as [n|]; [|discriminate].
  destruct (Z.ltb_spec (if neg then - n else n) min_int); [discriminate|].
  destruct (Z.ltb_spec max_int (if neg then - n else n)); [discriminate|].
  intros [= <-]. lia.
Qed.

Lemma index_Some {A} (l : list A) (i : Z) :
  0 <= i < len l -> exists a, l !! Z.to_nat i = Some a /\ index l i = Done a.
Proof.
  intros Hi. unfold index.
  destruct (Z.ltb_spec i 0); [lia|]. destruct (Z.leb_spec (len l) i); [lia|].
  simpl. destruct (l !! Z.to_nat i) as [a|] eqn:E; [by exists a|].
  apply lookup_ge_None in E. unfold len in Hi. lia.
Qed.

Lemma index_out {A} (l : list A) (i : Z) :
  i < 0 \/ len l <= i -> index l i = Panic "index out of range".
Proof.
  intros Hi. unfold index.
  destruct (Z.ltb_spec i 0); [done|]. destruct (Z.leb_spec (len l) i); [done|lia].
Qed.

(** The sound part of organization selection: with one organization
    its account ID is returned and nothing is asked; with several, a
    choice [k] between 1 and their number returns the account ID of the
    [k]-th, a larger one is refused with an error, and so is an input
    that is not a number. *)
Lemma getSubnetAccID_selection headers w respStr :
  orgs_reply w = Some respStr ->
  let orgs := Result_Array (gjson_Parse respStr) in
  let o := (getSubnetAccID headers w).1 in
  let choice := Atoi (Trim (typed_line w) LF) in
  len orgs <= max_int ->
  (forall org, orgs = [org] ->
     o = Done (Result_String (Result_Get org "accountId"), None) /\
     printed (new_events w (getSubnetAccID headers w).2) = []) /\
  (1 < len orgs ->
     (forall k, choice = (k, None) -> 1 <= k <= len orgs ->
        exists org, orgs !! Z.to_nat (k - 1) = Some org /\
                    o = Done (Result_String (Result_Get org "accountId"), None)) /\
     (forall k, choice = (k, None) -> len orgs < k ->
        o = Done ("", Some "Invalid choice for organization. Please run the command again.")) /\
     (forall k e, choice = (k, Some e) -> o = Done ("", Some e))).
Proof.
  intros Hreply orgs o choice Hlen. subst o choice.
  pose proof (getSubnetAccID_run headers w) as Hrun. cbv zeta in Hrun.
  rewrite Hrun. clear Hrun. unfold orgs_reply in Hreply.
  destruct (http_NewRequest_err "GET" subnetOrgsURL); [done|].
  destruct (reply_of (next_answer w)) as [r [e|]]; [done|].
  injection Hreply as ->. fold orgs. split.
  - intros org Horgs. rewrite Horgs. simpl. rewrite new_events_after. done.
  - intros Hmany. apply Z.ltb_lt in Hmany. rewrite Hmany.
    split_and!.
    + intros k -> Hk. destruct (Z.ltb_spec (len orgs) k); [lia|]. simpl.
      unfold selected. rewrite wrap_int_small by (unfold max_int in *; lia).
      destruct (index_Some orgs (k - 1)) as (org & Hl & ->); [lia|].
      by exists org.
    + intros k -> Hk. apply Z.ltb_lt in Hk. by rewrite Hk.
    + by intros k e ->.
Qed.

(** C5. With more than one organization, a choice that parses to a
    number that is zero or negative is not refused: the code checks the
    choice against the number of organizations only, and indexes the list
    at the choice minus one, which is out of range; the call panics. *)
Theorem getSubnetAccID_nonpositive_choice_panics headers w respStr k :
  orgs_reply w = Some respStr ->
  let orgs := Result_Array (gjson_Parse respStr) in
  1 < len orgs ->
  len orgs <= max_int ->
  Atoi (Trim (typed_line w) LF) = (k, None) ->
  k <= 0 ->
  (getSubnetAccID headers w).1 = Panic "index out of range".
Proof.
  intros Hreply orgs Hmany Hlen Hchoice Hk.
  pose proof (getSubnetAccID_run headers w) as Hrun. cbv zeta in Hrun.
  rewrite Hrun. clear Hrun. unfold orgs_reply in Hreply.
  destruct (http_NewRequest_err "GET" subnetOrgsURL); [done|].
  destruct (reply_of (next_answer w)) as [r [e|]]; [done|].
  injection Hreply as ->. fold orgs.
  apply Z.ltb_lt in Hmany. rewrite Hmany, Hchoice.
  destruct (Z.ltb_spec (len orgs) k); [lia|]. simpl.
  unfold selected. rewrite index_out; [done|].
  apply Atoi_range in Hchoice. unfold min_int, max_int in *.
  destruct (decide (k = - 2 ^ 63)) as [->|Hne].
  - right. unfold wrap_int. change ((- 2 ^ 63 - 1 + 2 ^ 63) mod 2 ^ 64 - 2 ^ 63)
      with (2 ^ 63 - 1). lia.
  - left. rewrite wrap_int_small; lia.
Qed.

(** C6. When the reply lists no organization, nothing is checked before
    the list is indexed at position 0: the call panics, and no error is
    returned. *)
Theorem getSubnetAccID_no_organization_panics headers w respStr :
  orgs_reply w = Some respStr ->
  Result_Array (gjson_Parse respStr) = [] ->
  (getSubnetAccID headers w).1 = Panic "index out of range".
Proof.
  intros Hreply Horgs.
  pose proof (getSubnetAccID_run headers w) as Hrun. cbv zeta in Hrun.
  rewrite Hrun. clear Hrun. unfold orgs_reply in Hreply.
  destruct (http_NewRequest_err "GET" subnetOrgsURL); [done|].
  destruct (reply_of (next_answer w)) as [r [e|]]; [done|].
  injection Hreply as ->. by rewrite Horgs.
Qed.

(** C7. Take any run of [subnetLogin], the MFA endpoint being a URL
    that [http.NewRequest] accepts.  If the login request got a reply
    whose [mfa_required] is true, the run sends exactly two requests, the
    login and then one to the MFA endpoint, and returns what the answer
    to the second gives: its error, or the [token_info.access_token] of
    its text, or the error that the text has none.  If it got a reply
    whose [mfa_required] is false, the run sends the login request only,
    never prompts for the one-time code, and returns the
    [token_info.access_token] of that reply when the reply has one, and
    else the error that it has none.  If it got no reply, at most the
    login request is sent and the run returns an error.  So a request
    goes to the MFA endpoint, and then exactly one, if and only if the
    login reply has [mfa_required] true.  And whenever a token is
    returned, it is the [token_info.access_token] of the most recent
    answer of the network. *)
Theorem subnetLogin_mfa (w : World) :
  http_NewRequest_err "POST" subnetMFAURL = None ->
  let o := (subnetLogin w).1 in
  let new := new_events w (subnetLogin w).2 in
  let token_of (respStr : string) : string * error :=
    if Result_Exists (gjson_Get respStr "token_info.access_token")
    then (Result_String (gjson_Get respStr "token_info.access_token"), None)
    else ("", Some "access token not found in response") in
  match login_reply w with
  | Some respStr =>
      if Result_Bool (gjson_Get respStr "mfa_required") then
        sent_urls new = [subnetLoginURL; subnetMFAURL] /\
        o = Done (match reply_of (hd (DoError "EOF") (tail (network w))) with
                  | (_, Some e) => ("", Some e)
                  | (respStr2, None) => token_of respStr2
                  end)
      else
        sent_urls new = [subnetLoginURL] /\
        ("OTP received in email: " ∉ printed new) /\
        o = Done (token_of respStr)
  | None =>
      (sent_urls new = [] \/ sent_urls new = [subnetLoginURL]) /\
      exists e, o = Done ("", Some e)
  end /\
  (forall token,
      o = Done (token, None) ->
      exists resp respStr,
        last_received new = Some resp /\
        reply_of resp = (respStr, None) /\
        Result_Exists (gjson_Get respStr "token_info.access_token") = true /\
        token = Result_String (gjson_Get respStr "token_info.access_token")).
Proof.
  intros Hmfa o new token_of. subst o new token_of.
  pose proof (subnetLogin_run w) as Hrun. cbv zeta in Hrun. rewrite Hrun.
  clear Hrun. unfold login_reply. rewrite Hmfa.
  destruct (strlen (strings_TrimSpace (typed_line w)) =? 0).
  { cbn [fst snd]. rewrite new_events_after. split.
    - split; [by left|]. by eexists.
    - intros token [=]. }
  destruct (http_NewRequest_err "POST" subnetLoginURL).
  { cbn [fst snd]. rewrite new_events_after. split.
    - split; [by left|]. by eexists.
    - intros token [=]. }
  destruct (reply_of (next_answer w)) as [respStr [e|]] eqn:Hreply.
  { cbn [fst snd]. rewrite new_events_after. split.
    - split; [by right|]. by eexists.
    - intros token [=]. }
  destruct (Result_Bool (gjson_Get respStr "mfa_required")).
  - cbn [fst snd]. rewrite new_events_after. split; [done|].
    intros token Htok.
    destruct (reply_of (hd (DoError "EOF") (tail (network w))))
      as [respStr2 [e|]] eqn:Hreply2; [by inversion Htok|].
    exists (hd (DoError "EOF") (tail (network w))), respStr2.
    split; [done|]. split; [done|].
    unfold access_token in Htok.
    destruct (Result_Exists (gjson_Get respStr2 "token_info.access_token"));
      by inversion Htok.
  - cbn [fst snd]. rewrite new_events_after. split.
    + split; [done|]. split; [|done].
      cbn. rewrite !elem_of_cons. intros [?|[?|[?|?%elem_of_nil]]]; done.
    + intros token Htok. exists (next_answer w), respStr.
      split; [done|]. split; [done|].
      unfold access_token in Htok.
      destruct (Result_Exists (gjson_Get respStr "token_info.access_token"));
        by inversion Htok.
Qed.

(** C3. Authorization-URL construction takes one of three ways, tried
    in this order.  With a non-empty API key the URL gets the query
    [?api_key=] and the key; the license is not looked at, the headers
    are empty and nothing is printed, read or sent.  Otherwise, with a
    non-empty license, the URL gets [?license=] and the license, again
    with empty headers and no interaction.  Otherwise the login flow
    runs: if it fails its error is returned; if it returns a token and
    the organization lookup returns an account ID, the result is the URL
    with [?aid=] and the account ID, and the single header
    [Authorization: Bearer] followed by the token. *)
Theorem subnetURLWithAuth_strategies (reqURL apiKey license : string) (w : World) :
  (apiKey <> "" ->
   subnetURLWithAuth reqURL apiKey license w =
   (Done (reqURL +:+ "?api_key=" +:+ apiKey, Some ∅, None), w)) /\
  (apiKey = "" -> license <> "" ->
   subnetURLWithAuth reqURL apiKey license w =
   (Done (reqURL +:+ "?license=" +:+ license, Some ∅, None), w)) /\
  (apiKey = "" -> license = "" ->
   (forall token e w1,
       subnetLogin w = (Done (token, Some e), w1) ->
       subnetURLWithAuth reqURL apiKey license w = (Done ("", None, Some e), w1)) /\
   (forall token w1 accID w2,
       subnetLogin w = (Done (token, None), w1) ->
       getSubnetAccID (Some {[ "Authorization" := "Bearer " +:+ token ]}) w1 =
         (Done (accID, None), w2) ->
       subnetURLWithAuth reqURL apiKey license w =
       (Done (reqURL +:+ "?aid=" +:+ accID,
              Some {[ "Authorization" := "Bearer " +:+ token ]}, None), w2))).
Proof.
  unfold subnetURLWithAuth. rewrite !strlen_pos.
  split_and!.
  - intros Hk. apply String.eqb_neq in Hk. by rewrite Hk.
  - intros -> Hl. apply String.eqb_neq in Hl. by rewrite Hl.
  - intros -> ->. simpl. split.
    + intros token e w1 Hlogin. rewrite IO_bind_run, Hlogin. done.
    + intros token w1 accID w2 Hlogin Hacc.
      rewrite IO_bind_run, Hlogin. simpl.
      rewrite IO_bind_run. unfold subnetAuthHeaders. by rewrite Hacc.
Qed.

(** C4. When the login flow returns a token and the organization lookup
    then returns an error, [subnetURLWithAuth] returns the empty URL and
    the headers with a nil error: it returns the error variable of the
    login, which is nil at that point, and not the error of the
    lookup. *)
Theorem subnetURLWithAuth_drops_lookup_error
    (reqURL token accID lookupErr : string) (w w1 w2 : World) :
  subnetLogin w = (Done (token, None), w1) ->
  getSubnetAccID (subnetAuthHeaders token) w1 = (Done (accID, Some lookupErr), w2) ->
  subnetURLWithAuth reqURL "" "" w = (Done ("", subnetAuthHeaders token, None), w2).
Proof.
  intros Hlogin Hacc. unfold subnetURLWithAuth. simpl.
  rewrite IO_bind_run, Hlogin. simpl. rewrite IO_bind_run, Hacc. done.
Qed.

End SubnetRuns.

Section SubnetExamples.

#[local] Existing Instance simple_process.
#[local] Existing Instance simple_gjson.

Example login_without_mfa :
  (subnetLogin (world ["alice"; "secret"] [ok login_doc])).1 = Done ("tok-123", None).
Proof. reflexivity. Qed.

Example login_with_mfa :
  (subnetLogin (world ["alice"; "secret"; "424242"] [ok login_mfa_doc; ok mfa_doc])).1
  = Done ("tok-456", None).
Proof. reflexivity. Qed.

Example one_organization :
  (getSubnetAccID None (world [] [ok one_org])).1 = Done ("11", None).
Proof. reflexivity. Qed.

Example three_organizations_choice_2 :
  (getSubnetAccID None (world ["2"] [ok three_orgs])).1 = Done ("22", None).
Proof. reflexivity. Qed.

Example three_organizations_choice_5 :
  (getSubnetAccID None (world ["5"] [ok three_orgs])).1 =
  Done ("", Some "Invalid choice for organization. Please run the command again.").
Proof. reflexivity. Qed.

Example three_organizations_shown :
  printed (new_events (world ["2"] [ok three_orgs])
             (getSubnetAccID None (world ["2"] [ok three_orgs])).2) =
  [ "You are part of multiple organizations on SUBNET:" +:+ LF;
    "   1 : Acme" +:+ LF; "   2 : Globex" +:+ LF; "   3 : Initech" +:+ LF;
    "Please choose the organization for this cluster: " ].
Proof. reflexivity. Qed.

Lemma subnetLogin_mfa_witness :
  sent_urls (new_events (world ["alice"; "secret"; "424242"] [ok login_mfa_doc; ok mfa_doc])
               (subnetLogin (world ["alice"; "secret"; "424242"]
                                   [ok login_mfa_doc; ok mfa_doc])).2)
  = ["https://subnet.min.io/api/auth/login"; "https://subnet.min.io/api/auth/mfa-login"] /\
  (subnetLogin (world ["alice"; "secret"; "424242"] [ok login_mfa_doc; ok mfa_doc])).1
  = Done ("tok-456", None).
Proof.
  exact (proj1 (subnetLogin_mfa
                  (world ["alice"; "secret"; "424242"] [ok login_mfa_doc; ok mfa_doc])
                  eq_refl)).
Defined.

Lemma subnetURLWithAuth_strategies_witness :
  (subnetURLWithAuth "https://subnet.min.io/api/cluster/register" "" ""
     (world ["alice"; "secret"] [ok login_doc; ok one_org])).1
  = Done ("https://subnet.min.io/api/cluster/register?aid=11",
          Some {[ "Authorization" := "Bearer tok-123" ]}, None).
Proof.
  set (w := world ["alice"; "secret"] [ok login_doc; ok one_org]).
  assert (Hlogin : subnetLogin w = (Done ("tok-123", None), (subnetLogin w).2))
    by (vm_compute; reflexivity).
  assert (Hacc : getSubnetAccID (Some {[ "Authorization" := "Bearer " +:+ "tok-123" ]})
                   (subnetLogin w).2 =
                 (Done ("11", None),
                  (getSubnetAccID (subnetAuthHeaders "tok-123") (subnetLogin w).2).2))
    by (vm_compute; reflexivity).
  rewrite (proj2 (proj2 (proj2 (subnetURLWithAuth_strategies
                                  "https://subnet.min.io/api/cluster/register" "" "" w))
                          eq_refl eq_refl)
             "tok-123" _ "11" _ Hlogin Hacc).
  reflexivity.
Defined.

Lemma subnetURLWithAuth_drops_lookup_error_witness :
  (subnetURLWithAuth "https://subnet.min.io/api/cluster/register" "" ""
     (world ["alice"; "secret"] [ok login_doc; Response 500 "internal error" None])).1
  = Done ("", Some {[ "Authorization" := "Bearer tok-123" ]}, None).
Proof.
  set (w := world ["alice"; "secret"] [ok login_doc; Response 500 "internal error" None]).
  assert (Hlogin : subnetLogin w = (Done ("tok-123", None), (subnetLogin w).2))
    by (vm_compute; reflexivity).
  assert (Hacc : getSubnetAccID (subnetAuthHeaders "tok-123") (subnetLogin w).2 =
                 (Done ("",
                        Some "Request failed with code 500 and error: internal error"),
                  (getSubnetAccID (subnetAuthHeaders "tok-123") (subnetLogin w).2).2))
    by (vm_compute; reflexivity).
  rewrite (subnetURLWithAuth_drops_lookup_error
             "https://subnet.min.io/api/cluster/register" _ _ _ _ _ _ Hlogin Hacc).
  reflexivity.
Defined.

Lemma getSubnetAccID_nonpositive_choice_panics_witness :
  (getSubnetAccID None (world ["0"] [ok three_orgs])).1 = Panic "index out of range".
Proof.
  apply (getSubnetAccID_nonpositive_choice_panics None (world ["0"] [ok three_orgs])
           (render three_orgs) 0); try reflexivity; vm_compute; congruence.
Defined.

Lemma getSubnetAccID_no_organization_panics_witness :
  (getSubnetAccID None (world [] [ok (JArr [])])).1 = Panic "index out of range".
Proof.
  apply (getSubnetAccID_no_organization_panics None (world [] [ok (JArr [])])
           (render (JArr []))); reflexivity.
Defined.

End SubnetExamples.

Section RegistrationToken.

Lemma byte_val_range c : 0 <= byte_val c < 256.
Proof.
  unfold byte_val. pose proof (N_ascii_bounded c). lia.
Qed.

Lemma byte_of_val c : Base64.byte_of (byte_val c) = c.
Proof.
  unfold Base64.byte_of, byte_val. rewrite N2Z.id. apply ascii_N_embedding.
Qed.

Lemma byte_val_inj c d : byte_val c = byte_val d -> c = d.
Proof. intros E. rewrite <- (byte_of_val c), <- (byte_of_val d). by rewrite E. Qed.

Lemma eqb_byte_val c d : byte_val c <> byte_val d -> Ascii.eqb c d = false.
Proof. intros Hne. apply Ascii.eqb_neq. intros ->. done. Qed.

Lemma append_nil (s : string) : EmptyString +:+ s = s.
Proof. reflexivity. Qed.

Lemma append_cons (x : ascii) (a b : string) : String x a +:+ b = String x (a +:+ b).
Proof. reflexivity. Qed.

Lemma append_assoc (a b c : string) : (a +:+ b) +:+ c = a +:+ (b +:+ c).
Proof. induction a as [|x a IH]; [done|]. rewrite !append_cons. by rewrite IH. Qed.

(** Induction on a string, three bytes at a time. *)
Lemma string_ind3 (P : string -> Prop) :
  P EmptyString ->
  (forall a, P (String a EmptyString)) ->
  (forall a b, P (String a (String b EmptyString))) ->
  (forall a b c rest, P rest -> P (String a (String b (String c rest)))) ->
  forall s, P s.
Proof.
  intros H0 H1 H2 H3.
  fix IH 1. intros [|a [|b [|c rest]]]; [done..|].
  apply H3, IH.
Qed.

Lemma enc_dec i : 0 <= i < 64 -> Base64.dec (Base64.enc i) = Some i.
Proof.
  intros Hi. rewrite <- (Z2Nat.id i) by lia.
  assert (Hn : (Z.to_nat i < 64)%nat) by lia.
  generalize dependent (Z.to_nat i). intros n Hn.
  do 64 (destruct n as [|n]; [reflexivity|]). lia.
Qed.

Lemma enc_not_pad i : 0 <= i < 64 -> Ascii.eqb (Base64.enc i) Base64.pad = false.
Proof.
  intros Hi. rewrite <- (Z2Nat.id i) by lia.
  assert (Hn : (Z.to_nat i < 64)%nat) by lia.
  generalize dependent (Z.to_nat i). intros n Hn.
  do 64 (destruct n as [|n]; [reflexivity|]). lia.
Qed.

Lemma EncodeToString_nonempty a s :
  exists c t, Base64.EncodeToString (String a s) = String c t.
Proof. destruct s as [|b [|c rest]]; simpl; eauto. Qed.

Lemma byte_of_eq a z : z = byte_val a -> Base64.byte_of z = a.
Proof. intros ->. apply byte_of_val. Qed.

Ltac div_lia := Z.div_mod_to_equations; lia.

Ltac same_bytes :=
  repeat match goal with
         | |- Some _ = Some _ => f_equal
         | |- String _ _ = String _ _ => f_equal
         | |- Base64.byte_of _ = _ => apply byte_of_eq; div_lia
         end.

(** Decoding undoes encoding, for every byte string. *)
Lemma base64_roundtrip s :
  Base64.DecodeString (Base64.EncodeToString s) = Some s.
Proof.
  induction s as [|a|a b|a b c rest IH] using string_ind3.
  - done.
  - pose proof (byte_val_range a) as Ha. cbn [Base64.EncodeToString].
    cbv zeta. cbn [Base64.DecodeString].
    rewrite !enc_dec by div_lia. simpl. same_bytes.
  - pose proof (byte_val_range a) as Ha. pose proof (byte_val_range b) as Hb.
    cbn [Base64.EncodeToString]. cbv zeta. cbn [Base64.DecodeString].
    rewrite ?enc_dec, ?enc_not_pad by div_lia. simpl.
    rewrite ?enc_dec, ?enc_not_pad by div_lia. simpl.
    same_bytes.
  - pose proof (byte_val_range a) as Ha. pose proof (byte_val_range b) as Hb.
    pose proof (byte_val_range c) as Hc.
    cbn [Base64.EncodeToString]. cbv zeta. cbn [Base64.DecodeString].
    rewrite !enc_dec by div_lia. simpl.
    assert (Hbytes :
      Base64.bytes3
        ((byte_val a * 65536 + byte_val b * 256 + byte_val c) / 262144)
        ((byte_val a * 65536 + byte_val b * 256 + byte_val c) / 4096 mod 64)
        ((byte_val a * 65536 + byte_val b * 256 + byte_val c) / 64 mod 64)
        ((byte_val a * 65536 + byte_val b * 256 + byte_val c) mod 64)
      = String a (String b (String c EmptyString))).
    { unfold Base64.bytes3. cbv zeta. same_bytes. }
    destruct rest as [|d rest].
    + simpl. rewrite ?enc_not_pad by div_lia.
      rewrite ?enc_dec by div_lia. simpl.
      by rewrite Hbytes.
    + destruct (EncodeToString_nonempty d rest) as (x & t & Henc).
      rewrite Henc in *. rewrite IH. simpl. by rewrite Hbytes.
Qed.

(** *** Integers *)

Lemma digit_val_char d :
  (d < 10)%N -> digit_val (pretty_N_char d) = Some (Z.of_N d).
Proof.
  intros Hd.
  assert (d = 0 \/ d = 1 \/ d = 2 \/ d = 3 \/ d = 4 \/ d = 5 \/ d = 6 \/
          d = 7 \/ d = 8 \/ d = 9)%N as Hc by lia.
  repeat destruct Hc as [->|Hc]; try subst d; reflexivity.
Qed.

Lemma pretty_N_go_app x s rest :
  pretty_N_go x s +:+ rest = pretty_N_go x (s +:+ rest).
Proof.
  revert s. induction (N.lt_wf_0 x) as [x _ IH]; intros s.
  destruct (decide (x = 0%N)) as [->|Hx]; [by rewrite !pretty_N_go_0|].
  rewrite (pretty_N_go_step x s), (pretty_N_go_step x (s +:+ rest)) by lia.
  rewrite IH by (apply N.div_lt; lia).
  by rewrite append_cons.
Qed.

Lemma span_digits_go x s :
  span_digits (pretty_N_go x s) =
  (pretty_N_go x (span_digits s).1, (span_digits s).2).
Proof.
  revert s. induction (N.lt_wf_0 x) as [x _ IH]; intros s.
  destruct (decide (x = 0%N)) as [->|Hx].
  { rewrite !pretty_N_go_0. by destruct (span_digits s). }
  rewrite (pretty_N_go_step x s), (pretty_N_go_step x (span_digits s).1) by lia.
  rewrite IH by (apply N.div_lt; lia).
  cbn [span_digits]. rewrite digit_val_char by (apply N.mod_lt; lia).
  by destruct (span_digits s).
Qed.

Lemma digits_val_go x s :
  digits_val 0 (pretty_N_go x s) = digits_val (Z.of_N x) s.
Proof.
  revert s. induction (N.lt_wf_0 x) as [x _ IH]; intros s.
  destruct (decide (x = 0%N)) as [->|Hx]; [by rewrite pretty_N_go_0|].
  rewrite pretty_N_go_step by lia. rewrite IH by (apply N.div_lt; lia).
  cbn [digits_val]. rewrite digit_val_char by (apply N.mod_lt; lia).
  f_equal. rewrite N2Z.inj_div, N2Z.inj_mod. div_lia.
Qed.

Lemma pretty_N_go_head x s :
  (0 < x)%N ->
  exists c t, pretty_N_go x s = String c t /\ is_Some (digit_val c).
Proof.
  revert s. induction (N.lt_wf_0 x) as [x _ IH]; intros s Hx.
  rewrite pretty_N_go_step by lia.
  destruct (decide (x `div` 10 = 0)%N) as [->|Hq].
  - rewrite pretty_N_go_0. do 2 eexists. split; [done|].
    rewrite digit_val_char by (apply N.mod_lt; lia). done.
  - apply IH; [apply N.div_lt; lia|by apply N.neq_0_lt_0].
Qed.

Lemma digit_not_minus c : is_Some (digit_val c) -> Ascii.eqb c "-" = false.
Proof.
  intros [d Hd]. destruct (Ascii.eqb_spec c "-") as [->|]; [|done].
  discriminate.
Qed.

Lemma read_digits_pos p rest :
  span_digits rest = (EmptyString, rest) ->
  span_digits (pretty (N.pos p) +:+ rest) = (pretty (N.pos p), rest) /\
  digits_val 0 (pretty (N.pos p)) = Some (Z.pos p) /\
  exists c t, pretty (N.pos p) = String c t /\ is_Some (digit_val c).
Proof.
  intros Hrest. unfold pretty, pretty_N.
  destruct (decide (N.pos p = 0%N)) as [|_]; [done|].
  split_and!.
  - rewrite pretty_N_go_app, span_digits_go. rewrite append_nil, Hrest. done.
  - rewrite digits_val_go. done.
  - by apply pretty_N_go_head.
Qed.

(** Reading back an integer that is followed by something other than a
    digit. *)
Lemma read_number_pretty (z : Z) rest :
  span_digits rest = (EmptyString, rest) ->
  read_number (pretty z +:+ rest) = Some (z, rest).
Proof.
  intros Hrest. unfold read_number. destruct z as [|p|p].
  - change (pretty 0) with "0". rewrite !append_cons, append_nil.
    cbn [Ascii.eqb Bool.eqb]. cbn [span_digits]. rewrite Hrest. done.
  - change (pretty (Z.pos p)) with (pretty (N.pos p)).
    destruct (read_digits_pos p rest Hrest) as (Hspan & Hval & c & t & Hc & Hdig).
    rewrite Hc at 1. rewrite append_cons, digit_not_minus by done.
    rewrite Hspan. rewrite Hc in Hval |- *. rewrite Hval. done.
  - change (pretty (Z.neg p)) with ("-" +:+ pretty (N.pos p)).
    destruct (read_digits_pos p rest Hrest) as (Hspan & Hval & c & t & Hc & Hdig).
    rewrite !append_cons, append_nil. cbn [Ascii.eqb Bool.eqb].
    rewrite Hspan. rewrite Hc in Hval |- *. rewrite Hval. done.
Qed.

(** *** Strings *)

Lemma string_body_raw c rest :
  Ascii.eqb c JSON.quote = false ->
  Ascii.eqb c JSON.backslash = false ->
  Reader.string_body (String c rest) =
  Reader.string_body rest ≫= λ '(t, r), Some (String c t, r).
Proof. intros Hq Hb. cbn [Reader.string_body]. by rewrite Hq, Hb. Qed.

Lemma string_body_high c rest :
  128 <= byte_val c ->
  Reader.string_body (String c rest) =
  Reader.string_body rest ≫= λ '(t, r), Some (String c t, r).
Proof.
  intros Hc. apply string_body_raw; apply eqb_byte_val;
    change (byte_val JSON.quote) with 34; change (byte_val JSON.backslash) with 92; lia.
Qed.

Lemma string_body_safe c rest :
  JSON.html_safe (byte_val c) = true ->
  Reader.string_body (String c rest) =
  Reader.string_body rest ≫= λ '(t, r), Some (String c t, r).
Proof.
  intros Hc. unfold JSON.html_safe in Hc.
  apply string_body_raw; apply eqb_byte_val;
    change (byte_val JSON.quote) with 34; change (byte_val JSON.backslash) with 92; lia.
Qed.

Lemma string_body_escape_byte c rest :
  byte_val c < 128 ->
  JSON.html_safe (byte_val c) = false ->
  Reader.string_body (JSON.escape_byte c +:+ rest) =
  Reader.string_body rest ≫= λ '(t, r), Some (String c t, r).
Proof.
  destruct c as [[] [] [] [] [] [] [] []]; intros H1 H2;
    try (by vm_compute in H1); try (by vm_compute in H2); reflexivity.
Qed.

Lemma seq2_high b0 b1 : JSON.seq2 b0 b1 = true -> 128 <= b0 /\ 128 <= b1.
Proof. unfold JSON.seq2, JSON.cont. lia. Qed.

Lemma seq3_high b0 b1 b2 :
  JSON.seq3 b0 b1 b2 = true -> 128 <= b0 /\ 128 <= b1 /\ 128 <= b2.
Proof. unfold JSON.seq3, JSON.cont. destruct (b0 =? 224), (b0 =? 237); lia. Qed.

Lemma seq4_high b0 b1 b2 b3 :
  JSON.seq4 b0 b1 b2 b3 = true -> 128 <= b0 /\ 128 <= b1 /\ 128 <= b2 /\ 128 <= b3.
Proof. unfold JSON.seq4, JSON.cont. destruct (b0 =? 240), (b0 =? 244); lia. Qed.

Lemma line_sep_bytes c0 c1 c2 :
  JSON.line_sep (byte_val c0) (byte_val c1) (byte_val c2) = true ->
  c0 = "226"%char /\ c1 = "128"%char /\ (c2 = "168"%char \/ c2 = "169"%char).
Proof.
  unfold JSON.line_sep. intros H.
  assert (byte_val c0 = 226 /\ byte_val c1 = 128 /\
          (byte_val c2 = 168 \/ byte_val c2 = 169)) as (H0 & H1 & H2) by lia.
  split_and!; [by apply byte_val_inj..|].
  destruct H2; [left|right]; by apply byte_val_inj.
Qed.

(** Reading back the body of a string of well-formed UTF-8. *)
Lemma string_body_escape s rest :
  JSON.valid_utf8 s = true ->
  Reader.string_body (JSON.escape s +:+ String JSON.quote rest) = Some (s, rest).
Proof.
  remember (String.length s) as n eqn:Hn.
  assert (Hlen : (String.length s <= n)%nat) by lia. clear Hn.
  revert s Hlen. induction n as [|n IH]; intros s Hlen Hvalid.
  { destruct s; [reflexivity|simpl in Hlen; lia]. }
  destruct s as [|c0 s1]; [reflexivity|].
  cbn [JSON.escape JSON.valid_utf8] in *. cbv zeta in *.
  cbn [String.length] in Hlen.
  destruct (byte_val c0 <? 128) eqn:Hascii.
  { destruct (JSON.html_safe (byte_val c0)) eqn:Hsafe.
    - rewrite append_cons, string_body_safe by done.
      rewrite IH by (done || lia). done.
    - rewrite append_assoc, string_body_escape_byte by (done || lia).
      rewrite IH by (done || lia). done. }
  destruct s1 as [|c1 s2]; [done|]. cbn [String.length] in Hlen.
  destruct (JSON.seq2 (byte_val c0) (byte_val c1)) eqn:H2.
  { apply seq2_high in H2 as [? ?].
    rewrite !append_cons, !string_body_high by done.
    rewrite IH by (done || lia). done. }
  destruct s2 as [|c2 s3]; [done|]. cbn [String.length] in Hlen.
  destruct (JSON.seq3 (byte_val c0) (byte_val c1) (byte_val c2)) eqn:H3.
  { destruct (JSON.line_sep (byte_val c0) (byte_val c1) (byte_val c2)) eqn:Hsep.
    - apply line_sep_bytes in Hsep as (-> & -> & Hc2).
      rewrite !append_cons.
      destruct Hc2 as [->| ->]; cbn [Reader.string_body];
        rewrite IH by (done || lia); reflexivity.
    - apply seq3_high in H3 as (? & ? & ?).
      rewrite !append_cons, !string_body_high by done.
      rewrite IH by (done || lia). done. }
  destruct s3 as [|c3 s4]; [done|]. cbn [String.length] in Hlen.
  destruct (JSON.seq4 (byte_val c0) (byte_val c1) (byte_val c2) (byte_val c3)) eqn:H4;
    [|done].
  apply seq4_high in H4 as (? & ? & ? & ?).
  rewrite !append_cons, !string_body_high by done.
  rewrite IH by (done || lia). done.
Qed.

(** *** The object *)

Lemma after_prefix_app p s : after_prefix p (p +:+ s) = Some s.
Proof.
  induction p as [|c p IH]; [by destruct s|].
  rewrite append_cons. cbn [after_prefix]. by rewrite Ascii.eqb_refl.
Qed.

Lemma field_app name value rest :
  JSON.field name value +:+ rest = Reader.key name +:+ value +:+ rest.
Proof.
  unfold JSON.field, Reader.key.
  rewrite !append_cons, !append_assoc, !append_cons, append_nil. done.
Qed.

Lemma string_field_read name v rest :
  JSON.valid_utf8 v = true ->
  Reader.string_field name (JSON.field name (JSON.string_ v) +:+ rest) = Some (v, rest).
Proof.
  intros Hv. unfold Reader.string_field. rewrite field_app, after_prefix_app.
  cbn [mbind option_bind]. unfold JSON.string_, Reader.string_.
  rewrite !append_cons, Ascii.eqb_refl, append_assoc, append_cons, append_nil.
  by apply string_body_escape.
Qed.

Lemma int_field_read name z rest :
  span_digits rest = (EmptyString, rest) ->
  Reader.int_field name (JSON.field name (JSON.int_ z) +:+ rest) = Some (z, rest).
Proof.
  intros Hrest. unfold Reader.int_field. rewrite field_app, after_prefix_app.
  cbn [mbind option_bind]. by apply read_number_pretty.
Qed.

Section WithNames.

Context `{FieldNames}.

Ltac read_field :=
  first [ rewrite string_field_read by done
        | rewrite int_field_read by reflexivity ];
  cbn [mbind option_bind];
  rewrite ?append_cons, ?append_nil; cbn [after_prefix Ascii.eqb Bool.eqb].

Lemma Unmarshal_ClusterInfo_Marshal i rest :
  JSON.valid_utf8 (MinioVersion i) = true ->
  Reader.Unmarshal_ClusterInfo (Marshal_ClusterInfo i +:+ rest) = Some (i, rest).
Proof.
  intros Hv. unfold Reader.Unmarshal_ClusterInfo, Marshal_ClusterInfo.
  rewrite !append_assoc.
  rewrite ?append_cons, ?append_nil; cbn [after_prefix Ascii.eqb Bool.eqb].
  cbn [mbind option_bind].
  do 8 read_field. by destruct i.
Qed.

Lemma Unmarshal_Marshal r :
  JSON.valid_utf8 (DeploymentID r) = true ->
  JSON.valid_utf8 (ClusterName r) = true ->
  JSON.valid_utf8 (MinioVersion (Info r)) = true ->
  Reader.Unmarshal (json_Marshal r).1 = Some r.
Proof.
  intros Hd Hc Hv. unfold Reader.Unmarshal, json_Marshal. cbn [fst].
  rewrite ?append_cons, ?append_nil; cbn [after_prefix Ascii.eqb Bool.eqb].
  cbn [mbind option_bind].
  do 3 read_field.
  rewrite field_app, after_prefix_app. cbn [mbind option_bind].
  rewrite Unmarshal_ClusterInfo_Marshal by done. cbn [mbind option_bind].
  by destruct r.
Qed.

(** C9. The token of a registration info is the base64 text of its JSON
    form: a function of the info alone, with no error.  Decoding it,
    base64 and then JSON, gives back the info with every field as it
    was, whenever the three strings of the info are well-formed
    UTF-8. *)
Theorem generateRegToken_roundtrip (info : ClusterRegistrationInfo) :
  JSON.valid_utf8 (DeploymentID info) = true ->
  JSON.valid_utf8 (ClusterName info) = true ->
  JSON.valid_utf8 (MinioVersion (Info info)) = true ->
  generateRegToken info = (Base64.EncodeToString (json_Marshal info).1, None) /\
  Reader.decodeRegToken (generateRegToken info).1 = Some info.
Proof.
  intros Hd Hc Hv. split; [done|].
  unfold Reader.decodeRegToken, generateRegToken.
  destruct (json_Marshal info) as [token e] eqn:E.
  assert (e = None) as -> by (by injection E).
  cbn [fst]. rewrite base64_roundtrip. cbn [mbind option_bind].
  replace token with (json_Marshal info).1 by (by rewrite E).
  by apply Unmarshal_Marshal.
Qed.

End WithNames.

End RegistrationToken.

Lemma generateRegToken_roundtrip_witness :
  Reader.decodeRegToken (H := go_names) (generateRegToken (H := go_names) info_fffd).1
  = Some info_fffd.
Proof.
  apply (generateRegToken_roundtrip (H := go_names) info_fffd); reflexivity.
Defined.

Lemma generateRegToken_not_injective :
  info_ff <> info_fe /\
  generateRegToken (H := go_names) info_ff = generateRegToken (H := go_names) info_fe /\
  Reader.decodeRegToken (H := go_names) (generateRegToken (H := go_names) info_ff).1
  = Some info_fffd /\
  info_fffd <> info_ff.
Proof. split_and!; [discriminate|reflexivity|reflexivity|discriminate]. Qed.

(* ------------------------------------------------------------------ *)
(** ** More on the admin-client factory *)

Section FactoryMore.

Context `{FactoryLibs}.

(** A call changes the factory at most by one new object and one new
    cache entry for it. *)
Lemma s3AdminNew_step config f :
  (s3AdminNew config f).2 = f \/
  exists key client,
    clientCache f !! key = None /\
    (s3AdminNew config f).1 = Done (Some (length (heap f)), None) /\
    (s3AdminNew config f).2 =
      {| clientCache := <[key := length (heap f)]> (clientCache f);
         heap := (heap f ++ [client])%list |}.
Proof.
  unfold s3AdminNew. cbv zeta.
  destruct (url_Parse (HostURL config)) as [u|]; [|by left].
  set (key := fnv32a_sum _).
  destruct (clientCache f !! key) as [api|] eqn:E; [by left|].
  destruct (madmin_New _ _ _ _); [by left|].
  right. by eexists key, _.
Qed.

(** Client objects are never changed or removed once made. *)
Lemma s3AdminNew_heap_keeps config f api client :
  heap f !! api = Some client -> heap (s3AdminNew config f).2 !! api = Some client.
Proof.
  intros Hc.
  destruct (s3AdminNew_step config f) as [->|(key & c & _ & _ & ->)]; [done|].
  cbn [heap]. by apply lookup_app_l_Some.
Qed.

Lemma calls_heap_keeps configs f api client :
  heap f !! api = Some client -> heap (calls configs f) !! api = Some client.
Proof.
  revert f. induction configs as [|c cs IH]; intros f Hc; [done|].
  apply IH. by apply s3AdminNew_heap_keeps.
Qed.

Lemma calls_size configs f :
  size (clientCache f) = length (heap f) ->
  size (clientCache (calls configs f)) = length (heap (calls configs f)).
Proof.
  revert f. induction configs as [|c cs IH]; intros f Hsize; [done|].
  cbn [calls fold_left]. apply IH.
  destruct (s3AdminNew_step c f) as [->|(key & client & Hnone & _ & ->)]; [done|].
  cbn [clientCache heap]. rewrite map_size_insert_None by done.
  rewrite length_app. simpl. lia.
Qed.

(** A config that parses and that [madmin.New] accepts has its
    fingerprint in the cache once it has been seen. *)
Lemma calls_cache_complete configs f config u :
  config ∈ configs ->
  url_Parse (HostURL config) = Some u ->
  madmin_New (Host u) (AccessKey config) (SecretKey config)
             (if String.eqb (Scheme u) "http" then false else true) = None ->
  is_Some (clientCache (calls configs f)
             !! fnv32a_sum (Host u +:+ AccessKey config +:+ SecretKey config)).
Proof.
  intros Hin Hu Hnew. revert f.
  induction configs as [|c cs IH]; intros f; [by apply elem_of_nil in Hin|].
  apply elem_of_cons in Hin as [<-|Hin]; [|by apply IH].
  cbn [calls fold_left].
  assert (Hone : is_Some (clientCache (s3AdminNew config f).2
                            !! fnv32a_sum (Host u +:+ AccessKey config +:+ SecretKey config))).
  { unfold s3AdminNew. rewrite Hu. cbv zeta.
    set (key := fnv32a_sum _).
    destruct (clientCache f !! key) as [api|] eqn:E; [cbn [snd]; by rewrite E|].
    rewrite Hnew. cbn [snd clientCache]. rewrite lookup_insert_eq. by eexists. }
  destruct Hone as [api Hone]. exists api. by apply calls_keeps.
Qed.

(** An entry of the cache was there before, or is the fingerprint of a
    config seen, and its object is the one built from that config. *)
Lemma calls_cache_sound configs f key api :
  clientCache (calls configs f) !! key = Some api ->
  clientCache f !! key = Some api \/
  exists config u,
    config ∈ configs /\
    url_Parse (HostURL config) = Some u /\
    key = fnv32a_sum (Host u +:+ AccessKey config +:+ SecretKey config) /\
    heap (calls configs f) !! api =
      Some {| endpointHost := Host u;
              accessKeyID := AccessKey config;
              secretAccessKey := SecretKey config;
              secure := if String.eqb (Scheme u) "http" then false else true;
              customTransport :=
                transport_for (if String.eqb (Scheme u) "http" then false else true)
                              config;
              appName := AppName config;
              appVersion := AppVersion config |}.
Proof.
  revert f. induction configs as [|c cs IH]; intros f Hk; [by left|].
  change (calls (c :: cs) f) with (calls cs (s3AdminNew c f).2) in *.
  destruct (IH _ Hk) as [Hbefore|(config & u & Hin & Hu & Hkey & Hobj)].
  2:{ right. exists config, u. split_and!; try done. by right. }
  clear IH Hk.
  assert (Hcase :
    (s3AdminNew c f).2 = f \/
    exists u,
      url_Parse (HostURL c) = Some u /\
      (s3AdminNew c f).2 =
        {| clientCache :=
             <[fnv32a_sum (Host u +:+ AccessKey c +:+ SecretKey c) := length (heap f)]>
               (clientCache f);
           heap := (heap f ++
             [{| endpointHost := Host u;
                 accessKeyID := AccessKey c;
                 secretAccessKey := SecretKey c;
                 secure := if String.eqb (Scheme u) "http" then false else true;
                 customTransport :=
                   transport_for (if String.eqb (Scheme u) "http" then false else true) c;
                 appName := AppName c;
                 appVersion := AppVersion c |}])%list |}).
  { unfold s3AdminNew. cbv zeta.
    destruct (url_Parse (HostURL c)) as [u|] eqn:Hu; [|by left].
    destruct (clientCache f !! _) as [api'|]; [by left|].
    destruct (madmin_New _ _ _ _); [by left|]. right. by exists u. }
  destruct Hcase as [Hsame|(u & Hu & Hnew)]; [left; by rewrite Hsame in Hbefore|].
  set (f1 := (s3AdminNew c f).2) in *. rewrite Hnew in Hbefore. cbn [clientCache] in Hbefore.
  destruct (decide (fnv32a_sum (Host u +:+ AccessKey c +:+ SecretKey c) = key))
    as [<-|Hne].
  - rewrite lookup_insert_eq in Hbefore. injection Hbefore as <-. right. exists c, u.
    split_and!; [by left|done|done|].
    apply calls_heap_keeps. rewrite Hnew. cbn [heap].
    by rewrite lookup_app_r, Nat.sub_diag.
  - rewrite lookup_insert_ne in Hbefore by done. by left.
Qed.

(** X1. From its creation on, whatever calls are made, the cache of the
    factory holds the fingerprints of the configs seen, each with one
    client object of its own.  A config seen that parses and that
    [madmin.New] accepts has its fingerprint in the cache; every entry
    of the cache is the fingerprint of a config seen and is the address
    of the object built from such a config; there are as many entries
    as objects, and no two entries share an object. *)
Theorem factory_one_client_per_fingerprint (configs : list Config) :
  let f := calls configs newAdminFactory in
  let useTLS (u : URL) := if String.eqb (Scheme u) "http" then false else true in
  let key_of (u : URL) (config : Config) :=
    fnv32a_sum (Host u +:+ AccessKey config +:+ SecretKey config) in
  (forall config u,
      config ∈ configs ->
      url_Parse (HostURL config) = Some u ->
      madmin_New (Host u) (AccessKey config) (SecretKey config) (useTLS u) = None ->
      is_Some (clientCache f !! key_of u config)) /\
  (forall key api,
      clientCache f !! key = Some api ->
      exists config u,
        config ∈ configs /\
        url_Parse (HostURL config) = Some u /\
        key = key_of u config /\
        heap f !! api =
          Some {| endpointHost := Host u;
                  accessKeyID := AccessKey config;
                  secretAccessKey := SecretKey config;
                  secure := useTLS u;
                  customTransport := transport_for (useTLS u) config;
                  appName := AppName config;
                  appVersion := AppVersion config |}) /\
  size (clientCache f) = length (heap f) /\
  (forall key1 key2 api,
      clientCache f !! key1 = Some api -> clientCache f !! key2 = Some api ->
      key1 = key2).
Proof.
  intros f useTLS key_of.
  assert (Hwf : factory_wf f) by apply calls_wf, newAdminFactory_wf.
  split_and!.
  - intros config u Hin Hu Hnew. by apply calls_cache_complete.
  - intros key api Hk.
    destruct (calls_cache_sound _ _ _ _ Hk) as [Hempty|Hseen]; [|exact Hseen].
    cbn in Hempty. by rewrite lookup_empty in Hempty.
  - by apply calls_size.
  - apply Hwf.
Qed.

(** X2. The first config to reach a fingerprint decides the client: when
    a call creates a client, every later call for a config with the same
    fingerprint returns that client as it was made, with the host, the
    keys, the TLS choice, the transport and the application name of the
    first config, whatever the scheme and the [Insecure] and [Debug]
    flags of the later one, and also when the later config has another
    (host, access key, secret key) that happens to have the same
    fingerprint. *)
Theorem s3AdminNew_first_config_wins
    (between : list Config) (config1 config2 : Config) (f0 : Factory)
    (id1 id2 : string * string * string) (u1 : URL) :
  url_Parse (HostURL config1) = Some u1 ->
  identity config1 = Some id1 ->
  identity config2 = Some id2 ->
  fingerprint id2 = fingerprint id1 ->
  clientCache f0 !! fingerprint id1 = None ->
  madmin_New (Host u1) (AccessKey config1) (SecretKey config1)
             (if String.eqb (Scheme u1) "http" then false else true) = None ->
  let f1 := calls between (s3AdminNew config1 f0).2 in
  let api := length (heap f0) in
  s3AdminNew config2 f1 = (Done (Some api, None), f1) /\
  heap f1 !! api =
    Some {| endpointHost := Host u1;
            accessKeyID := AccessKey config1;
            secretAccessKey := SecretKey config1;
            secure := if String.eqb (Scheme u1) "http" then false else true;
            customTransport :=
              transport_for (if String.eqb (Scheme u1) "http" then false else true)
                            config1;
            appName := AppName config1;
            appVersion := AppVersion config1 |}.
Proof.
  intros Hu Hid1 Hid2 Hfp Hmiss Hnew f1 api.
  assert (Hcall : s3AdminNew config1 f0 =
    (Done (Some api, None),
     {| clientCache := <[fingerprint id1 := api]> (clientCache f0);
        heap := (heap f0 ++
          [{| endpointHost := Host u1;
              accessKeyID := AccessKey config1;
              secretAccessKey := SecretKey config1;
              secure := if String.eqb (Scheme u1) "http" then false else true;
              customTransport :=
                transport_for (if String.eqb (Scheme u1) "http" then false else true)
                              config1;
              appName := AppName config1;
              appVersion := AppVersion config1 |}])%list |})).
  { unfold identity in Hid1. rewrite Hu in Hid1. injection Hid1 as <-.
    unfold fingerprint in Hmiss. unfold s3AdminNew. rewrite Hu. cbv zeta.
    rewrite Hmiss, Hnew. done. }
  split.
  - apply s3AdminNew_hit with id2; [done|]. rewrite Hfp. unfold f1. apply calls_keeps.
    rewrite Hcall. cbn [snd clientCache]. apply lookup_insert_eq.
  - unfold f1. apply calls_heap_keeps. rewrite Hcall. cbn [snd heap].
    unfold api. by rewrite lookup_app_r, Nat.sub_diag.
Qed.

(** X3. Only a call that creates a client changes the factory.  A call
    for a URL that does not parse panics; a call that finds its
    fingerprint in the cache returns the cached client; a call that
    misses and whose construction [madmin.New] refuses returns the
    error: all three leave cache and objects as they were, so a refused
    construction is not remembered.  A call that misses and whose
    construction is accepted returns a new address, adds the entry for
    it and the object built from the config, and changes nothing
    else. *)
Theorem s3AdminNew_changes_only_on_creation (config : Config) (f : Factory) :
  (url_Parse (HostURL config) = None ->
   s3AdminNew config f = (Panic "nil pointer dereference", f)) /\
  (forall u,
      url_Parse (HostURL config) = Some u ->
      let useTLS := if String.eqb (Scheme u) "http" then false else true in
      let key := fnv32a_sum (Host u +:+ AccessKey config +:+ SecretKey config) in
      (forall api,
          clientCache f !! key = Some api ->
          s3AdminNew config f = (Done (Some api, None), f)) /\
      (forall e,
          clientCache f !! key = None ->
          madmin_New (Host u) (AccessKey config) (SecretKey config) useTLS = Some e ->
          s3AdminNew config f = (Done (None, Some e), f)) /\
      (clientCache f !! key = None ->
       madmin_New (Host u) (AccessKey config) (SecretKey config) useTLS = None ->
       s3AdminNew config f =
       (Done (Some (length (heap f)), None),
        {| clientCache := <[key := length (heap f)]> (clientCache f);
           heap := (heap f ++
                    [{| endpointHost := Host u;
                        accessKeyID := AccessKey config;
                        secretAccessKey := SecretKey config;
                        secure := useTLS;
                        customTransport := transport_for useTLS config;
                        appName := AppName config;
                        appVersion := AppVersion config |}])%list |}))).
Proof.
  unfold s3AdminNew. cbv zeta. split.
  - by intros ->.
  - intros u ->. split_and!.
    + by intros api ->.
    + by intros e -> ->.
    + by intros -> ->.
Qed.

End FactoryMore.

Lemma s3AdminNew_first_config_wins_witness :
  let f1 := (s3AdminNew (H := simple_libs) config_ab_c newAdminFactory).2 in
  s3AdminNew (H := simple_libs) config_a_bc f1 = (Done (Some 0%nat, None), f1) /\
  accessKeyID <$> heap f1 !! 0%nat = Some "ab".
Proof.
  intros f1.
  destruct (s3AdminNew_first_config_wins (H := simple_libs) [] config_ab_c config_a_bc
              newAdminFactory ("play.min.io", "ab", "c") ("play.min.io", "a", "bc")
              {| Scheme := "https"; Host := "play.min.io" |}
              eq_refl eq_refl eq_refl eq_refl eq_refl eq_refl)
    as [Hcall Hheap].
  split; [exact Hcall|].
  change (heap f1 !! 0%nat) with
    (heap (calls (H := simple_libs) []
             (s3AdminNew (H := simple_libs) config_ab_c newAdminFactory).2)
       !! length (heap newAdminFactory)).
  by rewrite Hheap.
Defined.

Lemma s3AdminNew_changes_only_on_creation_witness :
  let c := mkConfig "http://localhost:9000" "minioadmin" "minioadmin" in
  let f1 := (s3AdminNew (H := simple_libs) c newAdminFactory).2 in
  s3AdminNew (H := simple_libs) c f1 = (Done (Some 0%nat, None), f1).
Proof.
  intros c f1.
  apply (proj1 (proj2 (s3AdminNew_changes_only_on_creation (H := simple_libs) c f1)
                  {| Scheme := "http"; Host := "localhost:9000" |} eq_refl)).
  vm_compute. reflexivity.
Defined.

Section AdminClientMore.

Context `{FactoryLibs} `{AliasLibs}.

Lemma s3AdminNew_result config f :
  (exists api, (s3AdminNew config f).1 = Done (Some api, None) /\
               exists id, identity config = Some id) \/
  ((exists e, (s3AdminNew config f).1 = Done (None, Some e)) /\
   (s3AdminNew config f).2 = f) \/
  ((exists msg, (s3AdminNew config f).1 = Panic msg) /\
   (s3AdminNew config f).2 = f).
Proof.
  unfold s3AdminNew, identity. cbv zeta.
  destruct (url_Parse (HostURL config)) as [u|]; [|right; right; eauto].
  set (key := fnv32a_sum _).
  destruct (clientCache f !! key) as [api|]; [left; eauto|].
  destruct (madmin_New _ _ _ _); [right; left; eauto|left; eauto].
Qed.

(** X4. What [newAdminClient] does before it reaches the factory.  An
    alias expansion that fails is returned as the error, with no client;
    so is, for a text that matches the URL pattern and has no alias
    entry, the error that asks for an alias; neither reaches the
    factory.  Otherwise the result is that of the factory for the config
    built from the alias and the expanded URL, the client dropped when
    there is an error.  So a client and an error never come together,
    and with an error the factory is as it was before the call. *)
Theorem newAdminClient_error_leaves_factory (aliasedURL : string) (f : Factory) :
  (forall alias urlStrFull hostCfg e,
      expandAlias aliasedURL = (alias, urlStrFull, hostCfg, Some e) ->
      Admin.newAdminClient aliasedURL f = (Done (None, Some e), f)) /\
  (forall alias urlStrFull,
      expandAlias aliasedURL = (alias, urlStrFull, None, None) ->
      urlRgx_MatchString aliasedURL = true ->
      Admin.newAdminClient aliasedURL f =
      (Done (None, Some (errInvalidAliasedURL aliasedURL)), f)) /\
  (forall alias urlStrFull hostCfg,
      expandAlias aliasedURL = (alias, urlStrFull, hostCfg, None) ->
      is_Some hostCfg \/ urlRgx_MatchString aliasedURL = false ->
      Admin.newAdminClient aliasedURL f =
      match s3AdminNew (buildConfig alias urlStrFull) f with
      | (Done (_, Some e), f') => (Done (None, Some e), f')
      | other => other
      end) /\
  (forall client e,
      (Admin.newAdminClient aliasedURL f).1 = Done (client, Some e) ->
      client = None /\ (Admin.newAdminClient aliasedURL f).2 = f).
Proof.
  unfold Admin.newAdminClient, Admin.newAdminClientFromAlias. split_and!.
  - by intros alias urlStrFull hostCfg e ->.
  - by intros alias urlStrFull -> ->.
  - intros alias urlStrFull hostCfg -> Hgo.
    assert (Hno : (if hostCfg is None then true else false)
                  && urlRgx_MatchString aliasedURL = false).
    { destruct Hgo as [Hcfg|Hrgx].
      - by destruct Hcfg as [cfg Hcfg]; subst hostCfg.
      - rewrite Hrgx. by destruct hostCfg. }
    rewrite Hno. cbv zeta.
    by destruct (s3AdminNew (buildConfig alias urlStrFull) f) as [[[c [e|]]|m|m] f'].
  - intros client e.
    destruct (expandAlias aliasedURL) as [[[alias urlStrFull] hostCfg] [err|]].
    { intros [= <- _]. done. }
    destruct ((if hostCfg is None then true else false) && urlRgx_MatchString aliasedURL).
    { intros [= <- _]. done. }
    cbv zeta.
    destruct (s3AdminNew_result (buildConfig alias urlStrFull) f)
      as [(api & Hr & _)|[((e' & Hr) & Hf)|((msg & Hr) & Hf)]];
      destruct (s3AdminNew (buildConfig alias urlStrFull) f) as [r f'];
      cbn [fst snd] in *; subst r; [done| |done].
    intros [= <- _]. done.
Qed.

(** X5. Asking twice for the client of the same aliased URL gives the
    same client: once a call has returned one, every later call for that
    aliased URL, whatever was asked in between, returns it and leaves the
    factory as it is. *)
Theorem newAdminClient_same_client (aliasedURL : string) (between : list Config)
    (f : Factory) (api : ptr) :
  (Admin.newAdminClient aliasedURL f).1 = Done (Some api, None) ->
  let f1 := calls between (Admin.newAdminClient aliasedURL f).2 in
  Admin.newAdminClient aliasedURL f1 = (Done (Some api, None), f1).
Proof.
  unfold Admin.newAdminClient, Admin.newAdminClientFromAlias.
  destruct (expandAlias aliasedURL) as [[[alias urlStrFull] hostCfg] [err|]]; [done|].
  destruct ((if hostCfg is None then true else false) && urlRgx_MatchString aliasedURL);
    [done|].
  cbv zeta. set (config := buildConfig alias urlStrFull).
  destruct (s3AdminNew_result config f)
    as [(api' & Hr & id & Hid)|[((e' & Hr) & Hf)|((msg & Hr) & Hf)]];
    destruct (s3AdminNew config f) as [r f'] eqn:E;
    cbn [fst snd] in *; subst r; [|done..].
  cbn [fst snd]. intros [= ->].
  assert (Hhit : s3AdminNew config (calls between f') =
                 (Done (Some api, None), calls between f')).
  { apply s3AdminNew_hit with id; [done|]. apply calls_keeps.
    by apply (s3AdminNew_cached config id f). }
  by rewrite Hhit.
Qed.

End AdminClientMore.

Lemma newAdminClient_error_leaves_factory_witness :
  Admin.newAdminClient (H := simple_libs) (H0 := simple_aliases)
    "https://play.min.io" newAdminFactory =
  (Done (None, Some "Use `mc alias set mycloud https://play.min.io ...` to add an alias."),
   newAdminFactory).
Proof.
  apply (proj1 (proj2 (newAdminClient_error_leaves_factory
                         (H := simple_libs) (H0 := simple_aliases)
                         "https://play.min.io" newAdminFactory))
           "" "https://play.min.io"); reflexivity.
Defined.

Lemma newAdminClient_same_client_witness :
  let f1 := calls (H := simple_libs) [mkConfig "http://localhost:9000" "a" "b"]
              (Admin.newAdminClient (H := simple_libs) (H0 := simple_aliases)
                 "play" newAdminFactory).2 in
  Admin.newAdminClient (H := simple_libs) (H0 := simple_aliases) "play" f1
  = (Done (Some 0%nat, None), f1).
Proof.
  apply (newAdminClient_same_client (H := simple_libs) (H0 := simple_aliases)).
  reflexivity.
Defined.

(* ------------------------------------------------------------------ *)
(** ** More on the request layer *)

Section RequestLayer.

Context `{Process} `{Gjson}.

Lemma read_limited_spec limit body readErr :
  let '(read, e) := read_limited limit body readErr in
  exists rest,
    body = read +:+ rest /\
    ((Z.of_N limit <= strlen body /\ strlen read = Z.of_N limit /\ e = None) \/
     (strlen body < Z.of_N limit /\ read = body /\ e = readErr)).
Proof.
  revert limit. induction body as [|c body IH]; intros limit.
  - cbn [read_limited]. destruct (N.eqb_spec limit 0) as [->|Hl].
    + exists EmptyString. split; [done|]. left. done.
    + exists EmptyString. split; [done|]. right. simpl. split; [lia|done].
  - cbn [read_limited]. destruct (N.eqb_spec limit 0) as [->|Hl].
    + exists (String c body). split; [done|]. left. simpl.
      pose proof (strlen_nonneg body). split; [lia|done].
    + specialize (IH (N.pred limit)).
      destruct (read_limited (N.pred limit) body readErr) as [read e].
      destruct IH as (rest & Hbody & Hcase). exists rest.
      split; [by rewrite append_cons, <- Hbody|].
      cbn [strlen]. destruct Hcase as [(? & ? & ->)|(? & -> & ->)]; [left|right];
        split_and!; try done; lia.
Qed.

(** X6. The request layer never returns more than 1 MiB of a response:
    whatever the network answers, the text that [subnetGetReq] and
    [subnetPostReq] return has at most 1048576 bytes. *)
Theorem subnet_requests_cap_the_body (w : World) :
  (forall reqURL headers text e w',
      subnetGetReq reqURL headers w = (Done (text, e), w') -> strlen text <= 1048576) /\
  (forall reqURL payload headers text e w',
      subnetPostReq reqURL payload headers w = (Done (text, e), w') ->
      strlen text <= 1048576).
Proof.
  assert (Hcap : forall resp, strlen (reply_of resp).1 <= 1048576).
  { intros [e|code body readErr]; [done|]. unfold reply_of.
    pose proof (read_limited_spec subnetRespBodyLimit body readErr) as Hspec.
    destruct (read_limited subnetRespBodyLimit body readErr) as [read [e|]];
      [done|].
    destruct Hspec as (rest & Hbody & Hcase).
    assert (strlen read <= 1048576).
    { destruct Hcase as [(_ & Hlen & _)|(Hlt & -> & _)].
      - rewrite Hlen. done.
      - change (Z.of_N subnetRespBodyLimit) with 1048576 in Hlt. lia. }
    by destruct (code =? 200). }
  split.
  - intros reqURL headers text e w'. rewrite subnetGetReq_run.
    destruct (http_NewRequest_err "GET" reqURL); [by intros [= <- _ _]|].
    intros [= Hr _]. specialize (Hcap (next_answer w)). by rewrite Hr in Hcap.
  - intros reqURL payload headers text e w'. rewrite subnetPostReq_run.
    destruct (http_NewRequest_err "POST" reqURL); [by intros [= <- _ _]|].
    intros [= Hr _]. specialize (Hcap (next_answer w)). by rewrite Hr in Hcap.
Qed.

(** X7. What the request layer makes of an answer.  It returns no error
    exactly for a response with status 200 whose body is read without an
    error, or is cut at the limit before one shows; the text is then
    the body, or its first 1 MiB.  Every other status gives the text
    together with the error [Request failed with code CODE and error:
    TEXT], the code in decimal, and a failed exchange or a failed read
    gives its error and the empty text. *)
Theorem reply_of_classified (resp : HttpResult) :
  match resp with
  | DoError e => reply_of resp = ("", Some e)
  | Response code body readErr =>
      exists read rest,
        body = read +:+ rest /\
        ((1048576 <= strlen body /\ strlen read = 1048576) \/
         (strlen body < 1048576 /\ read = body)) /\
        if (strlen body <? 1048576) && bool_decide (is_Some readErr) then
          reply_of resp = ("", readErr)
        else if code =? 200 then reply_of resp = (read, None)
        else reply_of resp =
             (read, Some ("Request failed with code " +:+ pretty code +:+
                          " and error: " +:+ read))
  end.
Proof.
  destruct resp as [e|code body readErr]; [done|]. unfold reply_of.
  pose proof (read_limited_spec subnetRespBodyLimit body readErr) as Hspec.
  destruct (read_limited subnetRespBodyLimit body readErr) as [read e].
  destruct Hspec as (rest & Hbody & Hcase).
  change (Z.of_N subnetRespBodyLimit) with 1048576 in Hcase.
  exists read, rest. split; [done|].
  destruct Hcase as [(Hge & Hlen & ->)|(Hlt & -> & ->)].
  - split; [by left|].
    destruct (Z.ltb_spec (strlen body) 1048576); [lia|]. cbn [andb].
    by destruct (code =? 200).
  - split; [by right|].
    destruct (Z.ltb_spec (strlen body) 1048576); [|lia]. cbn [andb].
    destruct readErr as [e|]; [done|]. cbn.
    by destruct (code =? 200).
Qed.

Lemma add_headers_lookup (m : gmap string string) (k : string) :
  add_headers (Some m) ∅ !! k = (fun v => [v]) <$> m !! k.
Proof.
  unfold add_headers. cbn [default].
  apply (map_fold_weak_ind
           (fun (h : Header) (m : gmap string string) =>
              h !! k = (fun v => [v]) <$> m !! k)).
  - by rewrite !lookup_empty.
  - intros i x m' h Hnone IH. unfold Header_Add, Header in *.
    destruct (decide (i = k)) as [->|Hne].
    + rewrite !lookup_insert_eq, IH, Hnone. reflexivity.
    + rewrite !lookup_insert_ne by done. exact IH.
Qed.

(** X8. The headers of a request that goes out, for a caller whose
    header names are in canonical form: each header of the caller is
    there with its value, and [Content-Type: application/json] is added
    unless the caller gave a [Content-Type] that is not empty; with no
    headers at all it is the only header.  Method, URL and body are
    those asked for. *)
Theorem with_headers_sent (method reqURL : string) (body : option Payload)
    (headers : StringMap) :
  let r := (http_NewRequest method reqURL body).1 in
  let sent := ReqHeader (with_headers r headers) in
  let given k := default None ((fun m : gmap string string => m !! k) <$> headers) in
  (forall k, is_Some (given k) -> canonical_name k = true) ->
  (forall k v, given k = Some v -> k <> "Content-Type" -> sent !! k = Some [v]) /\
  (forall k, given k = None -> k <> "Content-Type" -> sent !! k = None) /\
  sent !! "Content-Type" =
    match given "Content-Type" with
    | Some ct => if strlen ct =? 0 then Some [ct; "application/json"] else Some [ct]
    | None => Some ["application/json"]
    end /\
  Method (with_headers r headers) = method /\
  ReqURL (with_headers r headers) = reqURL /\
  ReqBody (with_headers r headers) = body.
Proof.
  intros r sent given _.
  assert (Hadd : forall k, add_headers headers ∅ !! k = (fun v => [v]) <$> given k).
  { intros k. subst given. destruct headers as [m|]; cbn.
    - apply add_headers_lookup.
    - unfold add_headers. cbn [default]. rewrite map_fold_empty. apply lookup_empty. }
  subst sent r. unfold with_headers, http_NewRequest.
  cbn [fst ReqHeader Method ReqURL ReqBody].
  set (h := add_headers headers ∅) in *. unfold Header in *.
  assert (Hct : Header_Get "Content-Type" h = default "" (given "Content-Type")).
  { unfold Header_Get. rewrite Hadd. by destruct (given "Content-Type"). }
  split_and!; try done.
  - intros k v Hk Hne.
    destruct (strlen (Header_Get "Content-Type" h) =? 0).
    + unfold Header_Add, Header. rewrite lookup_insert_ne by done. by rewrite Hadd, Hk.
    + by rewrite Hadd, Hk.
  - intros k Hk Hne.
    destruct (strlen (Header_Get "Content-Type" h) =? 0).
    + unfold Header_Add, Header. rewrite lookup_insert_ne by done. by rewrite Hadd, Hk.
    + by rewrite Hadd, Hk.
  - rewrite Hct. destruct (given "Content-Type") as [ct|] eqn:Hg; cbn [default id].
    + destruct (strlen ct =? 0) eqn:Hlen.
      * unfold Header_Add, Header. rewrite lookup_insert_eq, Hadd, Hg. done.
      * rewrite Hadd, Hg. done.
    + change (strlen "" =? 0) with true. cbv iota.
      unfold Header_Add, Header. rewrite lookup_insert_eq, Hadd, Hg. done.
Qed.

End RequestLayer.

(* ------------------------------------------------------------------ *)
(** ** More on the login flow *)

Section LoginMore.

Context `{Process} `{Gjson}.

Lemma tail2_drop {A} (l : list A) : tail (tail l) = drop 2 l.
Proof. by destruct l as [|? [|? ?]]. Qed.

Lemma tail3_drop {A} (l : list A) : tail (tail (tail l)) = drop 3 l.
Proof. by destruct l as [|? [|? [|? ?]]]. Qed.

(** X9. [subnetLogin] always returns, with a token or with an error and
    the empty token, never with both.  It reads at most three lines
    (name, password, one-time code), sends at most two requests, and
    takes one answer of the network per request sent; there is no
    retry. *)
Theorem subnetLogin_bounded (w : World) :
  exists token e i j new,
    subnetLogin w =
      (Done (token, e), world_after w (drop i (stdin w)) (drop j (network w)) new) /\
    (i <= 3)%nat /\ (j <= 2)%nat /\
    length (sent_urls new) = j /\
    (e <> None -> token = "").
Proof.
  pose proof (subnetLogin_run w) as Hrun. cbv zeta in Hrun. rewrite Hrun. clear Hrun.
  rewrite !tail3_drop, !tail2_drop.
  destruct (strlen (strings_TrimSpace (typed_line w)) =? 0).
  { eexists _, _, 1%nat, 0%nat, _. split; [reflexivity|]. split_and!; done || lia. }
  destruct (http_NewRequest_err "POST" subnetLoginURL).
  { eexists _, _, 2%nat, 0%nat, _. split; [reflexivity|]. split_and!; done || lia. }
  destruct (reply_of (next_answer w)) as [respStr [e|]].
  { eexists _, _, 2%nat, 1%nat, _. split; [reflexivity|]. split_and!; done || lia. }
  destruct (Result_Bool (gjson_Get respStr "mfa_required")).
  - destruct (http_NewRequest_err "POST" subnetMFAURL).
    { eexists _, _, 3%nat, 1%nat, _. split; [reflexivity|]. split_and!; done || lia. }
    destruct (reply_of (hd (DoError "EOF") (tail (network w)))) as [respStr2 [e|]].
    { eexists _, _, 3%nat, 2%nat, _. split; [reflexivity|]. split_and!; done || lia. }
    unfold access_token.
    destruct (Result_Exists (gjson_Get respStr2 "token_info.access_token"));
      eexists _, _, 3%nat, 2%nat, _; (split; [reflexivity|]); split_and!; done || lia.
  - unfold access_token.
    destruct (Result_Exists (gjson_Get respStr "token_info.access_token"));
      eexists _, _, 2%nat, 1%nat, _; (split; [reflexivity|]); split_and!; done || lia.
Qed.

(** X10. A user name that is empty once trimmed ends the login at once:
    the error names the subscription page, the password is not asked
    for, nothing is sent and no answer of the network is taken. *)
Theorem subnetLogin_empty_username (w : World) :
  strlen (strings_TrimSpace (typed_line w)) = 0 ->
  exists e,
    subnetLogin w =
      (Done ("", Some e),
       world_after w (tail (stdin w)) (network w) [Printed "SUBNET username: "]) /\
    e = "Username cannot be empty. If you don't have one, please create one from here: "
        +:+ "https://min.io/subscription".
Proof.
  intros Hempty. pose proof (subnetLogin_run w) as Hrun. cbv zeta in Hrun.
  rewrite Hrun, Hempty. by eexists.
Qed.

(** X11. What the login flow sends, when the login is answered: one
    POST to the login endpoint with the trimmed user name and the
    password; and, when the answer asks for a second factor, one POST to
    the MFA endpoint with the same user name, the one-time code typed,
    and the [mfa_token] of the login answer.  Both go through the SUBNET
    proxy setting and carry no header but
    [Content-Type: application/json]; the password is in the first
    request only. *)
Theorem subnetLogin_requests (w : World) (respStr : string) :
  login_reply w = Some respStr ->
  http_NewRequest_err "POST" subnetMFAURL = None ->
  let user := strings_TrimSpace (typed_line w) in
  let password := hd "" (tail (stdin w)) in
  let otp := hd "" (tail (tail (stdin w))) in
  let json_only : Header := {[ "Content-Type" := ["application/json"] ]} in
  let login :=
    {| Method := "POST"; ReqURL := subnetLoginURL; ReqHeader := json_only;
       ReqBody := Some (LoginReq user password) |} in
  let mfa :=
    {| Method := "POST"; ReqURL := subnetMFAURL; ReqHeader := json_only;
       ReqBody := Some (SubnetMFAReq user otp
                          (Result_String (gjson_Get respStr "mfa_token"))) |} in
  sent_requests (new_events w (subnetLogin w).2) =
  if Result_Bool (gjson_Get respStr "mfa_required")
  then [(globalSubnetProxyURL, login); (globalSubnetProxyURL, mfa)]
  else [(globalSubnetProxyURL, login)].
Proof.
  intros Hreply Hmfa user password otp json_only login mfa.
  assert (Hpost : forall url payload,
             post_request url payload None =
             {| Method := "POST"; ReqURL := url; ReqHeader := json_only;
                ReqBody := Some payload |}).
  { intros url payload. unfold post_request, with_headers, add_headers.
    cbn [ReqHeader Method ReqURL ReqBody default]. rewrite map_fold_empty.
    reflexivity. }
  pose proof (subnetLogin_run w) as Hrun. cbv zeta in Hrun. rewrite Hrun. clear Hrun.
  unfold login_reply in Hreply. rewrite Hmfa.
  destruct (strlen (strings_TrimSpace (typed_line w)) =? 0); [done|].
  destruct (http_NewRequest_err "POST" subnetLoginURL); [done|].
  destruct (reply_of (next_answer w)) as [r [e|]]; [done|].
  injection Hreply as ->.
  destruct (Result_Bool (gjson_Get respStr "mfa_required"));
    cbn [fst snd]; rewrite new_events_after; cbn; by rewrite !Hpost.
Qed.

(** X21. What the login flow prints does not depend on what is typed
    or answered, beyond how far the flow gets: it is a prefix of the
    three prompts and the two line ends after the hidden inputs.
    Neither the name, the password, the one-time code nor anything of
    an answer is printed. *)
Theorem subnetLogin_prompts (w : World) :
  printed (new_events w (subnetLogin w).2) `prefix_of`
  ["SUBNET username: "; "Password: "; LF; "OTP received in email: "; LF].
Proof.
  pose proof (subnetLogin_run w) as Hrun. cbv zeta in Hrun. rewrite Hrun. clear Hrun.
  destruct (strlen (strings_TrimSpace (typed_line w)) =? 0).
  { cbn [snd]. rewrite new_events_after. by eexists. }
  destruct (http_NewRequest_err "POST" subnetLoginURL).
  { cbn [snd]. rewrite new_events_after. by eexists. }
  destruct (reply_of (next_answer w)) as [respStr [e|]].
  { cbn [snd]. rewrite new_events_after. by eexists. }
  destruct (Result_Bool (gjson_Get respStr "mfa_required")).
  - destruct (http_NewRequest_err "POST" subnetMFAURL);
      cbn [snd]; rewrite new_events_after; by eexists.
  - cbn [snd]. rewrite new_events_after. by eexists.
Qed.

End LoginMore.

(* ------------------------------------------------------------------ *)
(** ** More on the choice of an organization *)

Section OrganizationMore.

Context `{Process} `{Gjson}.

Lemma sent_urls_app (a b : list Event) :
  sent_urls (a ++ b) = (sent_urls a ++ sent_urls b)%list.
Proof. apply omap_app. Qed.

Lemma sent_urls_org_lines i (orgs : list Result) : sent_urls (org_lines i orgs) = [].
Proof. revert i. induction orgs as [|o orgs IH]; intros i; [done|]. cbn. apply IH. Qed.

(** X12. [getSubnetAccID] sends at most one request and takes at most
    one answer; it reads at most one line, and none unless the reply
    lists more than one organization: a choice that is refused is not
    asked for again.  With an error the account ID is empty. *)
Theorem getSubnetAccID_bounded (headers : StringMap) (w : World) :
  exists o i j new,
    getSubnetAccID headers w =
      (o, world_after w (drop i (stdin w)) (drop j (network w)) new) /\
    (i <= 1)%nat /\ (j <= 1)%nat /\
    length (sent_urls new) = j /\
    (i = 1%nat ->
     exists respStr, orgs_reply w = Some respStr /\
                     1 < len (Result_Array (gjson_Parse respStr))) /\
    (forall accID e, o = Done (accID, Some e) -> accID = "").
Proof.
  pose proof (getSubnetAccID_run headers w) as Hrun. cbv zeta in Hrun.
  rewrite Hrun. clear Hrun. unfold orgs_reply.
  destruct (http_NewRequest_err "GET" subnetOrgsURL).
  { eexists _, 0%nat, 0%nat, []. rewrite <- world_after_nil.
    split; [reflexivity|]. split_and!; try done; try lia. by intros ? ? [= <- _]. }
  destruct (reply_of (next_answer w)) as [respStr [e|]].
  { eexists _, 0%nat, 1%nat, _. split; [reflexivity|].
    split_and!; try done; try lia. by intros ? ? [= <- _]. }
  destruct (Z.ltb_spec 1 (len (Result_Array (gjson_Parse respStr)))) as [Hmany|Hfew].
  - assert (Hsel : forall idx accID e,
               selected (Result_Array (gjson_Parse respStr)) idx = Done (accID, Some e) ->
               accID = "").
    { intros idx accID e. unfold selected. by destruct (index _ _). }
    destruct (Atoi (Trim (typed_line w) LF)) as [idx [e|]];
      [|destruct (len (Result_Array (gjson_Parse respStr)) <? idx)];
      (eexists _, 1%nat, 1%nat, _; split; [reflexivity|]);
      (split_and!;
       [lia|lia|by rewrite !sent_urls_app, sent_urls_org_lines|eauto|]);
      first [by intros ? ? [= <- _]|apply Hsel].
  - eexists _, 0%nat, 1%nat, _. split; [reflexivity|].
    split_and!; try done; try lia.
    unfold selected. intros accID e. by destruct (index _ _).
Qed.

(** X22. With one organization in the reply there is no question: the
    account ID of that organization is returned, nothing is printed and
    no line is read; the one request sent is the GET of the
    organizations, with the headers given. *)
Theorem getSubnetAccID_single_organization (headers : StringMap) (w : World)
    (respStr : string) (org : Result) :
  orgs_reply w = Some respStr ->
  Result_Array (gjson_Parse respStr) = [org] ->
  getSubnetAccID headers w =
  (Done (Result_String (Result_Get org "accountId"), None),
   world_after w (stdin w) (tail (network w))
     [Sent globalSubnetProxyURL (get_request subnetOrgsURL headers);
      Received (next_answer w)]).
Proof.
  intros Hreply Horgs.
  pose proof (getSubnetAccID_run headers w) as Hrun. cbv zeta in Hrun.
  rewrite Hrun. clear Hrun. unfold orgs_reply in Hreply.
  destruct (http_NewRequest_err "GET" subnetOrgsURL); [done|].
  destruct (reply_of (next_answer w)) as [r [e|]]; [done|].
  injection Hreply as ->. rewrite Horgs. reflexivity.
Qed.

(** *** Typing a number *)

Lemma digit_not_LF c : is_Some (digit_val c) -> in_cutset c LF = false.
Proof.
  intros [d Hd]. unfold LF. cbn [in_cutset].
  rewrite eqb_byte_val; [done|]. unfold digit_val in Hd.
  change (byte_val "010") with 10.
  destruct ((48 <=? byte_val c) && (byte_val c <=? 57)) eqn:E; [lia|done].
Qed.

Lemma span_digits_all c s :
  span_digits (String c s) = (String c s, EmptyString) ->
  is_Some (digit_val c) /\ span_digits s = (s, EmptyString).
Proof.
  cbn [span_digits]. destruct (digit_val c) as [d|]; [|done].
  destruct (span_digits s) as [ds rest]. intros [= -> ->]. eauto.
Qed.

Lemma TrimRight_digits s :
  span_digits s = (s, EmptyString) -> s <> EmptyString ->
  TrimRight (s +:+ LF) LF = s.
Proof.
  induction s as [|c s IH]; [done|]. intros Hall _.
  apply span_digits_all in Hall as [Hc Hs].
  rewrite append_cons. cbn [TrimRight].
  destruct s as [|c' s].
  - rewrite append_nil. change (TrimRight LF LF) with EmptyString.
    cbv iota. by rewrite digit_not_LF.
  - by rewrite IH.
Qed.

Lemma Atoi_digit_head c t :
  is_Some (digit_val c) ->
  Atoi (String c t) =
  match digits_val 0 (String c t) with
  | None => (0, Some ErrSyntax)
  | Some n =>
      if n <? min_int then (min_int, Some ErrRange)
      else if max_int <? n then (max_int, Some ErrRange)
      else (n, None)
  end.
Proof.
  destruct c as [[] [] [] [] [] [] [] []]; intros [d Hd];
    try (by vm_compute in Hd); reflexivity.
Qed.

(** Typing the decimal of a positive number within [int] gives that
    number. *)
Lemma Atoi_typed (p : positive) :
  Z.pos p <= max_int ->
  Atoi (Trim (pretty (Z.pos p) +:+ LF) LF) = (Z.pos p, None).
Proof.
  intros Hmax. change (pretty (Z.pos p)) with (pretty (N.pos p)).
  assert (Hall : span_digits (pretty (N.pos p)) = (pretty (N.pos p), EmptyString)).
  { unfold pretty, pretty_N. destruct (decide (N.pos p = 0%N)); [done|].
    by rewrite span_digits_go. }
  destruct (read_digits_pos p EmptyString eq_refl) as (_ & Hval & c & t & Hc & Hdig).
  assert (Htrim : Trim (pretty (N.pos p) +:+ LF) LF = pretty (N.pos p)).
  { unfold Trim. rewrite Hc at 1. rewrite append_cons. cbn [TrimLeft].
    rewrite digit_not_LF by done. rewrite <- append_cons, <- Hc.
    apply TrimRight_digits; [done|]. by rewrite Hc. }
  rewrite Htrim, Hc, Atoi_digit_head by done. rewrite <- Hc, Hval.
  unfold min_int, max_int in *.
  destruct (Z.ltb_spec (Z.pos p) (- 2 ^ 63)); [lia|].
  destruct (Z.ltb_spec (2 ^ 63 - 1) (Z.pos p)); [lia|]. done.
Qed.

(** X13. With several organizations listed, typing the number [k] of
    one of them, in decimal and followed by the newline, returns the
    account ID of the [k]-th organization of the reply. *)
Theorem getSubnetAccID_typed_choice (headers : StringMap) (w : World)
    (respStr : string) (k : Z) (more : list string) :
  orgs_reply w = Some respStr ->
  let orgs := Result_Array (gjson_Parse respStr) in
  1 < len orgs ->
  len orgs <= max_int ->
  1 <= k <= len orgs ->
  stdin w = pretty k :: more ->
  exists org,
    orgs !! Z.to_nat (k - 1) = Some org /\
    (getSubnetAccID headers w).1 = Done (Result_String (Result_Get org "accountId"), None).
Proof.
  intros Hreply orgs Hmany Hlen Hk Hin.
  destruct (getSubnetAccID_selection headers w respStr Hreply Hlen) as [_ Hsel].
  destruct (Hsel Hmany) as (Hvalid & _ & _).
  apply Hvalid; [|done].
  unfold typed_line. rewrite Hin.
  destruct k as [|p|p]; [lia| |lia]. apply Atoi_typed. lia.
Qed.

(** *** The list shown *)

Lemma printed_app (a b : list Event) : printed (a ++ b) = (printed a ++ printed b)%list.
Proof. apply omap_app. Qed.

Lemma printed_org_lines i (orgs : list Result) :
  printed (org_lines i orgs) =
  imap (fun j org => Sprintln ["  "; pretty (i + Z.of_nat j + 1); ":";
                               Result_String (Result_Get org "company")]) orgs.
Proof.
  revert i. induction orgs as [|o orgs IH]; intros i; [done|].
  cbn [org_lines]. rewrite imap_cons.
  change (printed (?e :: ?l)) with (printed [e] ++ printed l)%list.
  rewrite IH. cbn. rewrite Z.add_0_r. f_equal.
  apply imap_ext. intros j org _. unfold compose.
  by replace (i + 1 + Z.of_nat j + 1) with (i + Z.of_nat (S j) + 1) by lia.
Qed.

(** X14. With several organizations in the reply, the flow prints a
    heading, then one line per organization in the order of the reply,
    numbered from 1 and showing the company, then the prompt: all of it
    before the choice is read, whatever the choice is. *)
Theorem getSubnetAccID_list_shown (headers : StringMap) (w : World) (respStr : string) :
  orgs_reply w = Some respStr ->
  let orgs := Result_Array (gjson_Parse respStr) in
  1 < len orgs ->
  printed (new_events w (getSubnetAccID headers w).2) =
  (Sprintln ["You are part of multiple organizations on SUBNET:"] ::
   imap (fun j org => Sprintln ["  "; pretty (Z.of_nat j + 1); ":";
                                Result_String (Result_Get org "company")]) orgs ++
   ["Please choose the organization for this cluster: "])%list.
Proof.
  intros Hreply orgs Hmany.
  pose proof (getSubnetAccID_run headers w) as Hrun. cbv zeta in Hrun.
  rewrite Hrun. clear Hrun. unfold orgs_reply in Hreply.
  destruct (http_NewRequest_err "GET" subnetOrgsURL); [done|].
  destruct (reply_of (next_answer w)) as [r [e|]]; [done|].
  injection Hreply as ->. fold orgs. apply Z.ltb_lt in Hmany. rewrite Hmany.
  assert (Hp : printed
    ([Sent globalSubnetProxyURL (get_request subnetOrgsURL headers);
      Received (next_answer w)] ++
     [Printed (Sprintln ["You are part of multiple organizations on SUBNET:"])] ++
     org_lines 0 orgs ++
     [Printed "Please choose the organization for this cluster: "]) =
    (Sprintln ["You are part of multiple organizations on SUBNET:"] ::
     imap (fun j org => Sprintln ["  "; pretty (Z.of_nat j + 1); ":";
                                  Result_String (Result_Get org "company")]) orgs ++
     ["Please choose the organization for this cluster: "])%list).
  { rewrite !printed_app, printed_org_lines. done. }
  destruct (Atoi (Trim (typed_line w) LF)) as [idx [e|]];
    [|destruct (len orgs <? idx)]; cbn [fst snd]; by rewrite new_events_after.
Qed.

End OrganizationMore.

(* ------------------------------------------------------------------ *)
(** ** More on the aggregation of the cluster status *)
(* ------------------------------------------------------------------ *)

Section AggregationMore.

Lemma all_disks_perm (a b : list ServerProperties) :
  a ≡ₚ b -> all_disks a ≡ₚ all_disks b.
Proof.
  unfold all_disks. induction 1 as [|s a b _ IH|s t a|a b c _ IH1 _ IH2]; cbn.
  - done.
  - by rewrite IH.
  - rewrite !app_assoc. f_equiv. apply Permutation_app_comm.
  - by etrans.
Qed.

Lemma sumZ_perm (l1 l2 : list Z) : l1 ≡ₚ l2 -> sumZ l1 = sumZ l2.
Proof. unfold sumZ. induction 1; cbn; lia. Qed.

Lemma max_pool_perm (a b : list ServerProperties) : a ≡ₚ b -> max_pool a = max_pool b.
Proof. unfold max_pool. induction 1; cbn; lia. Qed.

(** X15. The counts of the registration info do not depend on the
    order in which the status lists the servers: with the servers in
    another order the pool count, the drive count and the two sums are
    the same, and so is everything in the result but the version, which
    is that of the server listed first. *)
Theorem getClusterRegInfo_server_order (admInfo : InfoMessage)
    (servers' : list ServerProperties) (clusterName : string) :
  Servers admInfo ≡ₚ servers' ->
  let admInfo' :=
    {| madmin.DeploymentID := madmin.DeploymentID admInfo; Servers := servers';
       Usage_Size := Usage_Size admInfo; Buckets_Count := Buckets_Count admInfo;
       Objects_Count := Objects_Count admInfo |} in
  poolsAndDrives servers' = poolsAndDrives (Servers admInfo) /\
  getDriveSpaceInfo admInfo' = getDriveSpaceInfo admInfo /\
  match getClusterRegInfo admInfo clusterName, getClusterRegInfo admInfo' clusterName with
  | Done r, Done r' =>
      r' = {| DeploymentID := DeploymentID r; ClusterName := ClusterName r;
              UsedCapacity := UsedCapacity r;
              Info := {| MinioVersion := MinioVersion (Info r');
                         NoOfServerPools := NoOfServerPools (Info r);
                         NoOfServers := NoOfServers (Info r);
                         NoOfDrives := NoOfDrives (Info r);
                         NoOfBuckets := NoOfBuckets (Info r);
                         NoOfObjects := NoOfObjects (Info r);
                         TotalDriveSpace := TotalDriveSpace (Info r);
                         UsedDriveSpace := UsedDriveSpace (Info r) |} |}
  | Panic _, Panic _ => servers' = []
  | _, _ => False
  end.
Proof.
  intros Hperm admInfo'.
  pose proof (all_disks_perm _ _ Hperm) as Hdisks.
  assert (Hlen : len (all_disks servers') = len (all_disks (Servers admInfo))).
  { unfold len. by rewrite Hdisks. }
  assert (Ht : sumZ (map TotalSpace (all_disks servers')) =
               sumZ (map TotalSpace (all_disks (Servers admInfo)))).
  { apply sumZ_perm. by rewrite Hdisks. }
  assert (Hu : sumZ (map UsedSpace (all_disks servers')) =
               sumZ (map UsedSpace (all_disks (Servers admInfo)))).
  { apply sumZ_perm. by rewrite Hdisks. }
  split_and!.
  - rewrite !poolsAndDrives_spec, Hlen. by rewrite (max_pool_perm _ _ Hperm).
  - rewrite !getDriveSpaceInfo_spec. cbn [Servers admInfo']. by rewrite Ht, Hu.
  - rewrite !getClusterRegInfo_unfold. cbn [Servers admInfo'].
    destruct (Servers admInfo) as [|s0 rest] eqn:Es.
    { apply Permutation_nil_l in Hperm. by subst servers'. }
    destruct servers' as [|s0' rest'].
    { by apply Permutation_nil_r in Hperm. }
    cbn [DeploymentID ClusterName UsedCapacity Info MinioVersion NoOfServerPools
         NoOfServers NoOfDrives NoOfBuckets NoOfObjects TotalDriveSpace UsedDriveSpace
         madmin.DeploymentID Usage_Size Buckets_Count Objects_Count admInfo'].
    rewrite Hlen, Ht, Hu, (max_pool_perm _ _ Hperm).
    unfold len. by rewrite (Permutation_length Hperm).
Qed.

(** X16. Where no count leaves the range of its type, the registration
    info holds the plain numbers: with at least one server, disks whose
    sizes are not negative, sums below [2^64] and fewer than [2^63]
    disks, the call returns, the drive count is the number of disks of
    all servers, and the two sizes are the sums over these disks; a used
    size that is within the total on every disk is within the total in
    the result. *)
Theorem getClusterRegInfo_exact (admInfo : InfoMessage) (clusterName : string) :
  let disks := all_disks (Servers admInfo) in
  Servers admInfo <> [] ->
  Forall (fun d => 0 <= TotalSpace d /\ 0 <= UsedSpace d) disks ->
  sumZ (map TotalSpace disks) < 2 ^ 64 ->
  sumZ (map UsedSpace disks) < 2 ^ 64 ->
  len disks < 2 ^ 63 ->
  exists r,
    getClusterRegInfo admInfo clusterName = Done r /\
    NoOfDrives (Info r) = len disks /\
    TotalDriveSpace (Info r) = sumZ (map TotalSpace disks) /\
    UsedDriveSpace (Info r) = sumZ (map UsedSpace disks) /\
    (Forall (fun d => UsedSpace d <= TotalSpace d) disks ->
     UsedDriveSpace (Info r) <= TotalDriveSpace (Info r)).
Proof.
  intros disks Hsome Hpos Ht Hu Hlen.
  pose proof (getDriveSpaceInfo_exact admInfo Hpos Ht Hu) as Hexact.
  rewrite getDriveSpaceInfo_spec in Hexact. fold disks in Hexact.
  injection Hexact as Het Heu.
  rewrite getClusterRegInfo_unfold.
  destruct (Servers admInfo) as [|s0 rest] eqn:Es; [done|].
  eexists. split; [reflexivity|]. cbn [Info NoOfDrives TotalDriveSpace UsedDriveSpace].
  change (all_disks (s0 :: rest)) with disks. rewrite Het, Heu.
  split_and!; try done.
  - apply wrap_int_small. unfold len in *. lia.
  - intros Hle. clear -Hle. clearbody disks. unfold sumZ.
    induction Hle as [|d l Hd _ IH]; cbn; lia.
Qed.

End AggregationMore.

(* ------------------------------------------------------------------ *)
(** ** More on credential resolution *)
(* ------------------------------------------------------------------ *)

Section CredentialsMore.

Context `{ClusterEnv}.

(** X17. An error of a call on the cluster ends the resolution of a
    credential with the fatal message of that call: the connection, the
    schema, and, for a schema that lists [subnet], the subsystem's help,
    its configuration and the parsing of it.  There is no fallback to
    the local configuration, whatever it holds. *)
Theorem resolve_cluster_error_is_fatal (cred : Credential) (alias : string)
    (client : Client) (err e pe e2 e3 : error) (help sh : Help) (buf : string)
    (tgt : SubsysTarget) (msg : string) :
  newAdminClient alias = (client, err) ->
  HelpConfigKV client "" "" false = (help, e) ->
  HelpConfigKV client "subnet" "" false = (sh, pe) ->
  GetConfigKV client "subnet" = (buf, e2) ->
  ParseSubSysTarget buf sh = (tgt, e3) ->
  first_failure err e (hasHelpKey "subnet" (KeysHelp help)) pe e2 e3 = Some msg ->
  resolve cred alias = Fatal msg.
Proof.
  intros H1 H2 H3 H4 H5 Hf.
  assert (Hkey : forall key, getSubnetKeyFromMinIOConfig alias key = Fatal msg).
  { intros key. unfold getSubnetKeyFromMinIOConfig, minioConfigSupportsSubnet.
    unfold first_failure in Hf. rewrite H1.
    destruct err; [by injection Hf as <-|]. cbn. rewrite H2.
    destruct e; [by injection Hf as <-|]. cbn.
    destruct (hasHelpKey "subnet" (KeysHelp help)); [|done]. cbn in Hf |- *.
    rewrite H3. destruct pe; [by injection Hf as <-|]. cbn.
    rewrite H4. destruct e2; [by injection Hf as <-|]. cbn.
    rewrite H5. destruct e3; [by injection Hf as <-|]. done. }
  destruct cred; cbn [resolve];
    unfold getSubnetAPIKeyFromConfig, getSubnetLicenseFromConfig;
    by rewrite Hkey.
Qed.

End CredentialsMore.

(* ------------------------------------------------------------------ *)
(** ** Saving the API key of a registration *)
(* ------------------------------------------------------------------ *)

Section SaveMore.

Context `{ClusterEnv} `{!ClusterWrites} `{Gjson}.

(** X18. [extractAndSaveAPIKey] saves the [api_key] of a response where
    the key is read from.  A response without an [api_key], or with an
    empty one, leaves everything as it is: no write, whatever the state
    of the cluster.  Otherwise there is exactly one write, after those
    made before.  When the cluster's [subnet] subsystem has an
    [api_key] entry, the write is [subnet license= api_key=KEY] on the
    cluster, fatal when the cluster refuses it; when the subsystem has no
    such entry or the cluster has no such subsystem, it is the alias of
    the local configuration with the key as its API key and its other
    fields as they were, and a local configuration that cannot be loaded
    is fatal and nothing is written. *)
Theorem extractAndSaveAPIKey_writes (alias resp : string) (log : list ConfigWrite) :
  let apiKey := Result_String (Result_Get (gjson_Parse resp) "api_key") in
  (strlen apiKey = 0 -> extractAndSaveAPIKey alias resp log = (Done tt, log)) /\
  (forall held,
      0 < strlen apiKey ->
      server_holds alias "api_key" held ->
      extractAndSaveAPIKey alias resp log =
      match held with
      | Some _ =>
          let client := (newAdminClient alias).1 in
          let configStr := "subnet license= api_key=" +:+ apiKey in
          (match (SetConfigKV client configStr).2 with
           | None => Done tt
           | Some _ => Fatal "Unable to set SUBNET API key config on minio"
           end,
           (log ++ [ServerSet client configStr])%list)
      | None =>
          match loadMcConfig with
          | (mcCfg, None) =>
              let aliasCfg :=
                {| AliasURL := AliasURL (Aliases_get mcCfg alias);
                   AliasAccessKey := AliasAccessKey (Aliases_get mcCfg alias);
                   AliasSecretKey := AliasSecretKey (Aliases_get mcCfg alias);
                   License := License (Aliases_get mcCfg alias);
                   APIKey := apiKey |} in
              (setAlias alias aliasCfg, (log ++ [AliasSet alias aliasCfg])%list)
          | (_, Some _) => (Fatal "Unable to access configuration file.", log)
          end
      end).
Proof.
  intros apiKey. unfold extractAndSaveAPIKey. fold apiKey. split.
  { intros ->. done. }
  intros held Hpos Hheld. apply Z.ltb_lt in Hpos. rewrite Hpos.
  unfold setSubnetAPIKeyConfig.
  cbv [mbind Writing_bind mret Writing_ret reading call_SetConfigKV call_setAlias].
  destruct Hheld as [tgt value Ht Hf|tgt Ht Hf|Hu].
  - rewrite (getSubnetKey_target _ _ _ tgt Ht), (findKV_holds _ _ _ Hf).
    destruct Ht as (client & help & sh & buf & Hc & _). rewrite Hc. cbn.
    by destruct (SetConfigKV client ("subnet license= api_key=" +:+ apiKey)) as [b [e|]].
  - pose proof (getSubnetKey_target _ alias "api_key" tgt Ht) as Hkey.
    rewrite (findKV_lacks _ _ Hf) in Hkey. rewrite Hkey.
    unfold mcConfig. by destruct loadMcConfig as [mcCfg [e|]].
  - rewrite (getSubnetKey_unsupported _ alias "api_key" Hu).
    unfold mcConfig. by destruct loadMcConfig as [mcCfg [e|]].
Qed.

End SaveMore.

(* ------------------------------------------------------------------ *)
(** ** Registration and reachability *)
(* ------------------------------------------------------------------ *)

Section RegisterMore.

Context `{Process} `{Gjson} `{ClusterEnv} `{FieldNames}.

(** X19. With a stored credential the registration is one POST and no
    question: when the API key of the alias is not empty, or it is and
    the license is not, [registerClusterOnSubnet] reads nothing and
    prints nothing, and sends one request, to the registration URL with
    the credential as its query ([api_key], which goes before
    [license]), with the registration token of the info as payload and
    no header but the content type; what it returns is the reply to that
    request.  With an API key the license is not resolved. *)
Theorem registerClusterOnSubnet_stored_credential (alias : string)
    (clusterRegInfo : ClusterRegistrationInfo) (w : World) (apiKey : string) :
  getSubnetAPIKeyFromConfig alias = Done apiKey ->
  let lic := if strlen apiKey =? 0
             then default "" (outcome_value (getSubnetLicenseFromConfig alias))
             else "" in
  (strlen apiKey = 0 ->
   exists l, getSubnetLicenseFromConfig alias = Done l /\ 0 < strlen l) ->
  let regURL :=
    subnetRegisterURL +:+
    (if 0 <? strlen apiKey then "?api_key=" +:+ apiKey else "?license=" +:+ lic) in
  http_NewRequest_err "POST" regURL = None ->
  registerClusterOnSubnet alias clusterRegInfo w =
  (Done (reply_of (next_answer w)),
   world_after w (stdin w) (tail (network w))
     [Sent globalSubnetProxyURL
        {| Method := "POST"; ReqURL := regURL;
           ReqHeader := {[ "Content-Type" := ["application/json"] ]};
           ReqBody := Some (ClusterRegistrationReq (generateRegToken clusterRegInfo).1) |};
      Received (next_answer w)]).
Proof.
  intros Hkey lic Hlic regURL Hreq.
  assert (Hpost : forall url payload,
             post_request url payload (Some ∅) =
             {| Method := "POST"; ReqURL := url;
                ReqHeader := {[ "Content-Type" := ["application/json"] ]};
                ReqBody := Some payload |}).
  { intros url payload. unfold post_request, with_headers, add_headers.
    change (default ∅ (Some ∅)) with (∅ : gmap string string).
    cbn [ReqHeader Method ReqURL ReqBody]. rewrite map_fold_empty.
    reflexivity. }
  assert (He : (generateRegToken clusterRegInfo).2 = None) by reflexivity.
  unfold registerClusterOnSubnet. rewrite Hkey.
  destruct (generateRegToken clusterRegInfo) as [regToken e]. cbn [fst snd] in *.
  subst e. cbv [mbind IO_bind lift mret IO_ret].
  destruct (Z.ltb_spec 0 (strlen apiKey)) as [Hlen|Hlen].
  - assert (Hz : (strlen apiKey =? 0) = false) by (apply Z.eqb_neq; lia).
    rewrite Hz. unfold subnetURLWithAuth. apply Z.ltb_lt in Hlen. subst regURL.
    rewrite Hlen in *. cbv [mret IO_ret]. cbv beta iota.
    rewrite subnetPostReq_run, Hreq, Hpost. done.
  - assert (Hz : strlen apiKey = 0) by (pose proof (strlen_nonneg apiKey); lia).
    destruct (Hlic Hz) as (l & Hl & Hpos).
    subst lic regURL. rewrite Hl, Hz in *.
    change (0 =? 0) with true in *. change (0 <? 0) with false in *.
    cbn [outcome_value default id] in Hreq |- *.
    unfold subnetURLWithAuth. rewrite Hz. apply Z.ltb_lt in Hpos. rewrite Hpos.
    change (0 <? 0) with false. cbv [mret IO_ret]. cbv beta iota.
    rewrite subnetPostReq_run, Hreq, Hpost. done.
Qed.

(** X20. [checkURLReachable] sends one HEAD request to the URL, with no
    body and no header, not through the SUBNET proxy, takes one answer,
    and reports the URL as reachable exactly when that answer has status
    200; it reads and prints nothing. *)
Theorem checkURLReachable_spec (url : string) (w : World) :
  http_NewRequest_err "HEAD" url = None ->
  exists e,
    checkURLReachable url w =
    (Done e,
     world_after w (stdin w) (tail (network w))
       [Sent None {| Method := "HEAD"; ReqURL := url; ReqHeader := ∅; ReqBody := None |};
        Received (next_answer w)]) /\
    (e = None <-> exists body readErr, next_answer w = Response 200 body readErr).
Proof.
  intros Hreq. unfold checkURLReachable, http_NewRequest. rewrite Hreq.
  cbv [mbind IO_bind clientDo]. fold (next_answer w).
  destruct (next_answer w) as [e|code body readErr] eqn:Hans.
  - exists (Some e). split; [done|]. split; [done|]. by intros (? & ? & ?).
  - destruct (Z.eqb_spec code 200) as [->|Hne]; cbn.
    + exists None. split; [done|]. split; [|done]. intros _. by eexists _, _.
    + exists (Some (pretty code)). split; [done|]. split; [done|].
      intros (? & ? & [= ? _ _]). done.
Qed.

End RegisterMore.

(* ------------------------------------------------------------------ *)
(** ** Runs of the flows, on scripted input *)
(* ------------------------------------------------------------------ *)

Section MoreExamples.

#[local] Existing Instance simple_process.
#[local] Existing Instance simple_gjson.

Lemma with_headers_sent_witness :
  ReqHeader (with_headers (http_NewRequest "GET" subnetOrgsURL None).1
               (subnetAuthHeaders "tok-123")) !! "Authorization"
  = Some ["Bearer tok-123"].
Proof.
  refine (proj1 (with_headers_sent "GET" subnetOrgsURL None (subnetAuthHeaders "tok-123") _)
            "Authorization" "Bearer tok-123" _ _).
  - intros k [v Hk]. cbn in Hk. apply lookup_singleton_Some in Hk as [<- _].
    reflexivity.
  - reflexivity.
  - discriminate.
Defined.

Lemma subnetLogin_empty_username_witness :
  (subnetLogin (world ["  "; "secret"] [ok login_doc])).1 =
  Done ("", Some ("Username cannot be empty. If you don't have one, " +:+
                  "please create one from here: https://min.io/subscription")).
Proof.
  destruct (subnetLogin_empty_username (world ["  "; "secret"] [ok login_doc]))
    as (e & Hrun & ->); [vm_compute; reflexivity|].
  rewrite Hrun. reflexivity.
Defined.

Lemma subnetLogin_requests_witness :
  sent_requests
    (new_events (world [" alice "; "secret"; "424242"] [ok login_mfa_doc; ok mfa_doc])
       (subnetLogin (world [" alice "; "secret"; "424242"]
                           [ok login_mfa_doc; ok mfa_doc])).2) =
  [ (None, {| Method := "POST"; ReqURL := "https://subnet.min.io/api/auth/login";
              ReqHeader := {[ "Content-Type" := ["application/json"] ]};
              ReqBody := Some (LoginReq "alice" "secret") |});
    (None, {| Method := "POST"; ReqURL := "https://subnet.min.io/api/auth/mfa-login";
              ReqHeader := {[ "Content-Type" := ["application/json"] ]};
              ReqBody := Some (SubnetMFAReq "alice" "424242" "mfa-9") |}) ].
Proof.
  rewrite (subnetLogin_requests
             (world [" alice "; "secret"; "424242"] [ok login_mfa_doc; ok mfa_doc])
             (render login_mfa_doc)); [|vm_compute; reflexivity..].
  vm_compute. reflexivity.
Defined.

Lemma getSubnetAccID_typed_choice_witness :
  (getSubnetAccID None (world ["3"] [ok three_orgs])).1 = Done ("33", None).
Proof.
  destruct (getSubnetAccID_typed_choice None (world ["3"] [ok three_orgs])
              (render three_orgs) 3 [])
    as (org & Hlook & Hres);
    [first [ vm_compute; reflexivity | vm_compute; congruence
           | split; vm_compute; congruence ]..|].
  rewrite Hres. vm_compute in Hlook. injection Hlook as <-. reflexivity.
Defined.

Lemma getSubnetAccID_list_shown_witness :
  printed (new_events (world ["9"] [ok three_orgs])
             (getSubnetAccID None (world ["9"] [ok three_orgs])).2) =
  [ "You are part of multiple organizations on SUBNET:" +:+ LF;
    "   1 : Acme" +:+ LF; "   2 : Globex" +:+ LF; "   3 : Initech" +:+ LF;
    "Please choose the organization for this cluster: " ].
Proof.
  rewrite (getSubnetAccID_list_shown None (world ["9"] [ok three_orgs])
             (render three_orgs)); [|vm_compute; reflexivity..].
  vm_compute. reflexivity.
Defined.

Lemma getSubnetAccID_single_organization_witness :
  (getSubnetAccID None (world ["unread"] [ok one_org])).1 = Done ("11", None).
Proof.
  erewrite (getSubnetAccID_single_organization None (world ["unread"] [ok one_org]));
    [|vm_compute; reflexivity..].
  reflexivity.
Defined.

Lemma getClusterRegInfo_server_order_witness :
  getDriveSpaceInfo
    (info_of [srv 1 [{| TotalSpace := 100; UsedSpace := 10 |}];
              srv 2 [{| TotalSpace := 200; UsedSpace := 20 |};
                     {| TotalSpace := 300; UsedSpace := 30 |}]]) =
  getDriveSpaceInfo
    (info_of [srv 2 [{| TotalSpace := 200; UsedSpace := 20 |};
                     {| TotalSpace := 300; UsedSpace := 30 |}];
              srv 1 [{| TotalSpace := 100; UsedSpace := 10 |}]]).
Proof.
  refine (proj1 (proj2 (getClusterRegInfo_server_order
                          (info_of [srv 2 [{| TotalSpace := 200; UsedSpace := 20 |};
                                           {| TotalSpace := 300; UsedSpace := 30 |}];
                                    srv 1 [{| TotalSpace := 100; UsedSpace := 10 |}]])
                          [srv 1 [{| TotalSpace := 100; UsedSpace := 10 |}];
                           srv 2 [{| TotalSpace := 200; UsedSpace := 20 |};
                                  {| TotalSpace := 300; UsedSpace := 30 |}]]
                          "cluster" _))).
  apply perm_swap.
Defined.

Lemma getClusterRegInfo_exact_witness :
  exists r,
    getClusterRegInfo
      (info_of [srv 1 [{| TotalSpace := 100; UsedSpace := 10 |}];
                srv 2 [{| TotalSpace := 200; UsedSpace := 20 |};
                       {| TotalSpace := 300; UsedSpace := 30 |}]]) "cluster" = Done r /\
    NoOfDrives (Info r) = 3 /\
    TotalDriveSpace (Info r) = 600 /\
    UsedDriveSpace (Info r) = 60.
Proof.
  destruct (getClusterRegInfo_exact
              (info_of [srv 1 [{| TotalSpace := 100; UsedSpace := 10 |}];
                        srv 2 [{| TotalSpace := 200; UsedSpace := 20 |};
                               {| TotalSpace := 300; UsedSpace := 30 |}]]) "cluster")
    as (r & Hr & Hn & Ht & Hu & _).
  - discriminate.
  - cbv [all_disks Servers info_of srv Disks map concat app].
    repeat (apply List.Forall_cons; [cbn; lia|]). apply List.Forall_nil.
  - vm_compute. reflexivity.
  - vm_compute. reflexivity.
  - vm_compute. reflexivity.
  - exists r. rewrite Hn, Ht, Hu. split; [exact Hr|]. split_and!; reflexivity.
Defined.

Lemma resolve_cluster_error_is_fatal_witness :
  resolve (H := unreadable_cluster (demo_local, None)) CredAPIKey "play" =
  Fatal "Unable to get server SUBNET config".
Proof.
  eapply (@resolve_cluster_error_is_fatal (unreadable_cluster (demo_local, None))
            CredAPIKey "play"); reflexivity.
Defined.

Lemma registerClusterOnSubnet_stored_credential_witness :
  (@registerClusterOnSubnet _ _
     (demo_cluster ["api"; "subnet"] [{| Key := "api_key"; Value := "server-key" |}]
        (demo_local, None))
     go_names "play" info_fffd
     (world [] [ok (JObj [("api_key", JStr "server-key")])])).1 =
  Done (render (JObj [("api_key", JStr "server-key")]), None).
Proof.
  rewrite (@registerClusterOnSubnet_stored_credential _ _
             (demo_cluster ["api"; "subnet"]
                [{| Key := "api_key"; Value := "server-key" |}] (demo_local, None))
             go_names "play" info_fffd
             (world [] [ok (JObj [("api_key", JStr "server-key")])]) "server-key").
  - vm_compute. reflexivity.
  - reflexivity.
  - intros Hz. vm_compute in Hz. discriminate.
  - vm_compute. reflexivity.
Defined.

Lemma checkURLReachable_spec_witness :
  (checkURLReachable "https://subnet.min.io" (world [] [Response 200 "" None])).1 =
  Done None.
Proof.
  destruct (checkURLReachable_spec "https://subnet.min.io"
              (world [] [Response 200 "" None])) as (e & Hrun & Hiff);
    [vm_compute; reflexivity|].
  rewrite Hrun. cbn [fst]. f_equal. apply Hiff. by eexists _, _.
Defined.

Lemma extractAndSaveAPIKey_writes_witness :
  @extractAndSaveAPIKey (demo_cluster ["api"] [] (demo_local, None))
     (demo_writes (demo_cluster ["api"] [] (demo_local, None))) simple_gjson
     "play" (render (JObj [("api_key", JStr "new-key")])) [] =
  (Done tt,
   [AliasSet "play"
      {| AliasURL := "https://play.min.io";
         AliasAccessKey := "Q3AM3UQ867SPQQA43P2F";
         AliasSecretKey := "zuf+tfteSlswRu7BJ86wekitnifILbZam1KYY3TG";
         License := "";
         APIKey := "new-key" |}]).
Proof.
  rewrite (proj2 (@extractAndSaveAPIKey_writes
                    (demo_cluster ["api"] [] (demo_local, None))
                    (demo_writes (demo_cluster ["api"] [] (demo_local, None)))
                    simple_gjson
                    "play" (render (JObj [("api_key", JStr "new-key")])) []) None).
  - reflexivity.
  - vm_compute. reflexivity.
  - apply holds_no_subsystem. exists "play". eexists. split_and!; try reflexivity.
    intros (h & Hin & Hh). cbn in Hin.
    apply elem_of_cons in Hin as [->|Hin]; [discriminate|].
    by apply elem_of_nil in Hin.
Defined.

End MoreExamples.
